(** * Digital Twin: the interactive map editor

    A shallow embedding of the two React components that place entities on the
    map of the Digital Twin front end, and the properties proved about them.

    - [RouteManager] (frontend/src/component/MapComponent/RoutesManager.jsx),
      in its two variants: routes kept in [localStorage], and routes kept by
      the remote service at /api/routes;
    - [BuildingManager] (the building controls: add, select, update, delete,
      with the air-quality check before an add).

    A component is a record of its state hooks together with the part of the
    browser it touches (the storage key, the map's sources and layers, the
    alerts shown, the requests sent). A handler is a function on that record.
    What the browser hands back to a handler (the clock, the outcome of an
    HTTP call) is an argument of the handler.

    The file has two parts: the model (definitions only), then the proofs. *)

From Stdlib Require Import ZArith Bool List String Ascii Lia Floats DecimalString.
From Stdlib Require DecimalPos DecimalZ.
Import ListNotations.

(* Decimal literals such as 75.7873 stand for the nearest double, as in JavaScript. *)
#[local] Set Warnings "-inexact-float".

(* ################################################################# *)
(** * Part I: the model *)

(* ================================================================= *)
(** ** JavaScript numbers *)

(** The arithmetic the components use, as an interface. The code runs on
    IEEE-754 doubles ([Binary64] below). *)
Class JSNumber (N : Type) : Type := {
  num_lit : Z -> N;              (* an integer literal, or an array length *)
  num_add : N -> N -> N;
  num_sub : N -> N -> N;
  num_mul : N -> N -> N;
  num_div : N -> N -> N;
  num_neg : N -> N;
  num_gt : N -> N -> bool;       (* a > b *)
  num_truthy : N -> bool;        (* ToBoolean: false on 0, -0 and NaN *)
  Math_PI : N;
  Math_cos : N -> N;
  Math_sin : N -> N
}.

Declare Scope num_scope.
Delimit Scope num_scope with num.
Notation "x + y" := (num_add x y) : num_scope.
Notation "x - y" := (num_sub x y) : num_scope.
Notation "x * y" := (num_mul x y) : num_scope.
Notation "x / y" := (num_div x y) : num_scope.
Notation "- x" := (num_neg x) : num_scope.
Notation "x >? y" := (num_gt x y) (at level 70, no associativity) : num_scope.

(** [a || b] on numbers. *)
Definition num_or {N : Type} `{JSNumber N} (a b : N) : N :=
  if num_truthy a then a else b.

(** *** Doubles *)

Definition float_of_Z (z : Z) : float :=
  if (z <? 0)%Z then PrimFloat.opp (PrimFloat.of_uint63 (Uint63.of_Z (- z)))
  else PrimFloat.of_uint63 (Uint63.of_Z z).

(** [Math.PI] is the double nearest to pi. *)
Definition float_PI : float := 0x1.921fb54442d18p+1%float.

(** The engine's [Math.cos] and [Math.sin] are not part of the repository:
    they are parameters of the instance. ECMAScript fixes their value at 0
    ([Math.cos(+0)] is 1, [Math.sin(+0)] is +0) and leaves the rest to the
    implementation. *)
Definition Binary64 (cos sin : float -> float) : JSNumber float := {|
  num_lit := float_of_Z;
  num_add := PrimFloat.add;
  num_sub := PrimFloat.sub;
  num_mul := PrimFloat.mul;
  num_div := PrimFloat.div;
  num_neg := PrimFloat.opp;
  num_gt := fun a b => PrimFloat.ltb b a;
  num_truthy := fun a => negb (PrimFloat.is_zero a || PrimFloat.is_nan a);
  Math_PI := float_PI;
  Math_cos := cos;
  Math_sin := sin
|}.

(** What ECMAScript requires of the two functions at zero. *)
Definition conforming (cos sin : float -> float) : Prop :=
  cos 0%float = 1%float /\ sin 0%float = 0%float.

(** A small engine to run examples on: truncated Taylor series. It conforms. *)
Definition series_cos (x : float) : float :=
  (1 - x * x / 2 + x * x * x * x / 24)%float.

Definition series_sin (x : float) : float :=
  (x - x * x * x / 6)%float.

Definition Doubles : JSNumber float := Binary64 series_cos series_sin.

(** Two doubles are the same number when they are equal, or are both zero
    (+0 and -0 are one number with two signs; [x === y] holds of them). *)
Definition same_number (x y : float) : Prop :=
  x = y \/ (PrimFloat.is_zero x = true /\ PrimFloat.is_zero y = true).

Definition SF_is_zero (x : spec_float) : bool :=
  match x with S754_zero _ => true | _ => false end.

Definition SF_is_finite (x : spec_float) : bool :=
  match x with S754_zero _ | S754_finite _ _ _ => true | _ => false end.

Definition SF_same (a b : spec_float) : Prop :=
  a = b \/ (SF_is_zero a = true /\ SF_is_zero b = true).

(** The value of a finite double in units of [2 ^ -1074], the least
    positive double: every finite double is an integer number of them
    (its exponent is at least -1074). Infinities and NaN count as 0. *)
Definition SF_units (x : spec_float) : Z :=
  match x with
  | S754_finite s m e => cond_Zopp s (Z.pos m * 2 ^ (e + 1074))
  | _ => 0%Z
  end.

Definition units (x : float) : Z := SF_units (Prim2SF x).

(** [x] is within [2 ^ -49 * (|c| + |h|) + 2 ^ -1074] of [c]. *)
Definition near (x c h : float) : Prop :=
  (2 ^ 49 * Z.abs (units x - units c) <= Z.abs (units c) + Z.abs (units h) + 2 ^ 49)%Z.

(** The double 4. *)
Definition SF_four : spec_float := S754_finite false 4503599627370496 (-50).

(* ================================================================= *)
(** ** Geometry builder *)

Section Geometry.
Context {N : Type} `{JSNumber N}.
Local Open Scope num_scope.

(** A point is the array [[x, y]] = [[lng, lat]]. *)
Definition point : Type := N * N.

(** [getRotatedCoordinates(center, size, rotation)]: the four corners of the
    square of side [size] around the origin, each rotated by [rotation]
    degrees and moved to [center]; the result is an array holding one ring. *)
Definition getRotatedCoordinates (center : point) (size rotation : N)
  : list (list point) :=
  let rad := (rotation * Math_PI) / num_lit 180 in
  let points :=
    [ (- size / num_lit 2, - size / num_lit 2);
      (size / num_lit 2, - size / num_lit 2);
      (size / num_lit 2, size / num_lit 2);
      (- size / num_lit 2, size / num_lit 2) ] in
  [ map (fun '(x, y) =>
           (fst center + x * Math_cos rad - y * Math_sin rad,
            snd center + x * Math_sin rad + y * Math_cos rad))
        points ].

(** The label anchor of [displayBuilding] (also the camera target of
    [handleSelectBuilding]):
    [ring.reduce((acc, curr) => [acc[0] + curr[0], acc[1] + curr[1]], [0, 0])
         .map(coord => coord / ring.length)]. *)
Definition ring_center (ring : list point) : point :=
  let sum :=
    fold_left (fun acc curr => (fst acc + fst curr, snd acc + snd curr))
              ring (num_lit 0, num_lit 0) in
  (fst sum / num_lit (Z.of_nat (List.length ring)),
   snd sum / num_lit (Z.of_nat (List.length ring))).

End Geometry.

(* ================================================================= *)
(** ** What the browser provides *)

(** Conversions between numbers and strings: the template literal [`${n}`]
    and [Number(s)]. They belong to the engine, not to the repository. *)
Class JSRuntime (N : Type) : Type := {
  Number_toString : N -> string;
  Number_ofString : string -> N
}.

(** [JSON.stringify] and [JSON.parse] at the type of the value a storage key
    holds. [JSON_parse] answers [None] when the call raises (the text is not
    JSON, or is not the JSON of a value of that type). *)
Class JSONCodec (A : Type) : Type := {
  JSON_stringify : A -> string;
  JSON_parse : string -> option A
}.

(** How a handler ends: it returns, or an exception leaves it un-caught.
    Either way the state reached so far stays (state updates and effects
    made before the exception are not undone). *)
Inductive completion (S : Type) : Type :=
| Done (s : S)
| Raised (s : S).

Arguments Done {S} s.
Arguments Raised {S} s.

Definition final {S : Type} (c : completion S) : S :=
  match c with Done s => s | Raised s => s end.

(** [try { body } catch { handler }]. *)
Definition try_catch {S : Type} (body : completion S) (handler : S -> completion S)
  : completion S :=
  match body with
  | Done s => Done s
  | Raised s => handler s
  end.

(** [`${id}`] for an integer id. *)
Definition string_of_Z (z : Z) : string := NilZero.string_of_int (Z.to_int z).

(** The integer-valued double nearest to an integer: a double keeps 53
    bits, so the bits beyond them are rounded away, a tie going to the even
    mantissa. Up to [2 ^ 53] in magnitude nothing is rounded. This is what
    an addition of doubles returns for an exact sum that is an integer (a
    sum of two doubles of which one is 1 does not overflow). *)
Definition nearest_double (z : Z) : Z :=
  let a := Z.abs z in
  let d := (Z.log2 a - 52)%Z in
  if (d <=? 0)%Z then z
  else
    let q := (a / 2 ^ d)%Z in
    let r := (a mod 2 ^ d)%Z in
    let half := (2 ^ (d - 1))%Z in
    let q' := if (r <? half)%Z then q
              else if (half <? r)%Z then (q + 1)%Z
              else if Z.even q then q else (q + 1)%Z in
    (Z.sgn z * (q' * 2 ^ d))%Z.

(** [(s)] read as a condition: a string is falsy when empty. *)
Definition truthy (s : string) : bool := negb (String.eqb s EmptyString).

(** [s.split(',')]. *)
Fixpoint split_comma (s : string) : list string :=
  match s with
  | EmptyString => [EmptyString]
  | String c rest =>
      if Ascii.eqb c ","%char then EmptyString :: split_comma rest
      else match split_comma rest with
           | [] => [String c EmptyString]
           | word :: words => String c word :: words
           end
  end.

(* ================================================================= *)
(** ** The map surface *)

(** The part of the Mapbox object the components use: named GeoJSON sources
    and the layers that draw them. Camera and paint details other than the
    ones listed are not modelled. *)
Section MapSurface.
Context {N : Type}.

Inductive geojson : Type :=
| LineString (coordinates : list (list N))
| Polygon (height : N) (coordinates : list (list (@point N)))
| LabelPoint (coordinates : @point N) (text : string).

Inductive paint : Type :=
| Line (color : string) (width : Z)
| FillExtrusion (color : string) (height : N)
| Symbol.

Record layer : Type := {
  layer_id : string;
  layer_source : string;
  layer_paint : paint
}.

Record map_surface : Type := {
  sources : list (string * geojson);
  layers : list layer
}.

Definition getSource (id : string) (m : map_surface) : bool :=
  existsb (fun e => String.eqb (fst e) id) (sources m).

Definition getLayer (id : string) (m : map_surface) : bool :=
  existsb (fun l => String.eqb (layer_id l) id) (layers m).

Definition removeSource (id : string) (m : map_surface) : map_surface :=
  {| sources := filter (fun e => negb (String.eqb (fst e) id)) (sources m);
     layers := layers m |}.

Definition removeLayer (id : string) (m : map_surface) : map_surface :=
  {| sources := sources m;
     layers := filter (fun l => negb (String.eqb (layer_id l) id)) (layers m) |}.

Definition addSource (id : string) (data : geojson) (m : map_surface) : map_surface :=
  {| sources := sources m ++ [(id, data)]; layers := layers m |}.

Definition addLayer (l : layer) (m : map_surface) : map_surface :=
  {| sources := sources m; layers := layers m ++ [l] |}.

(** [if (map.getLayer(id)) map.removeLayer(id);
     if (map.getSource(id)) map.removeSource(id);] *)
Definition eraseLayerAndSource (id : string) (m : map_surface) : map_surface :=
  let m := if getLayer id m then removeLayer id m else m in
  if getSource id m then removeSource id m else m.

Definition empty_map : map_surface := {| sources := []; layers := [] |}.

End MapSurface.

Arguments geojson N : clear implicits.
Arguments paint N : clear implicits.
Arguments layer N : clear implicits.
Arguments map_surface N : clear implicits.

(* ================================================================= *)
(** ** Routes *)

(** The persisted record of a route: [{id, name, type, coordinates,
    createdAt}], the coordinates being strings ["lng,lat"]. Ids are
    integer-valued numbers (a clock reading, or a key of the service) and are
    modelled as integers. *)
Module Route.
Record t : Type := {
  id : Z;
  name : string;
  type : string;
  coordinates : list string;
  createdAt : string
}.
End Route.

Record road_type : Type := {
  value : string;
  label : string;
  color : string;
  width : Z
}.

Definition roadTypes : list road_type :=
  [ {| value := "major"; label := "Major Road"; color := "#000000"; width := 5 |};
    {| value := "minor"; label := "Minor Road"; color := "#808080"; width := 3 |} ].

Definition temp_route_line : string := "temp-route-line".

Definition validation_message : string :=
  "Please provide a route name and at least 2 points".

(** [clickedPoints.map((coord) => `${coord[0]},${coord[1]}`)] *)
Definition serialize_points {N : Type} `{JSRuntime N} (clickedPoints : list (@point N))
  : list string :=
  map (fun coord => (Number_toString (fst coord) ++ "," ++ Number_toString (snd coord))%string)
      clickedPoints.

(* ----------------------------------------------------------------- *)
(** *** RouteManager, routes kept in [localStorage] *)

Module RouteManagerLocal.
Section Component.
Context {N : Type} `{JSRuntime N} `{JSONCodec (list Route.t)}.

Record state : Type := {
  (* state hooks *)
  routes : list Route.t;
  routeName : string;
  routeType : string;
  clickedPoints : list (@point N);
  isDrawing : bool;
  isStyleLoaded : bool;
  error : string;
  (* the browser *)
  storage : option string;        (* localStorage.getItem('routes') *)
  surface : map_surface N;        (* the [map] prop *)
  alerts : list string
}.

Definition initial (stored : option string) (m : map_surface N) : state :=
  {| routes := []; routeName := ""; routeType := "major"; clickedPoints := [];
     isDrawing := false; isStyleLoaded := false; error := "";
     storage := stored; surface := m; alerts := [] |}.

Definition setRoutes (v : list Route.t) (s : state) : state :=
  {| routes := v; routeName := routeName s; routeType := routeType s;
     clickedPoints := clickedPoints s; isDrawing := isDrawing s;
     isStyleLoaded := isStyleLoaded s; error := error s;
     storage := storage s; surface := surface s; alerts := alerts s |}.

Definition setRouteName (v : string) (s : state) : state :=
  {| routes := routes s; routeName := v; routeType := routeType s;
     clickedPoints := clickedPoints s; isDrawing := isDrawing s;
     isStyleLoaded := isStyleLoaded s; error := error s;
     storage := storage s; surface := surface s; alerts := alerts s |}.

Definition setRouteType (v : string) (s : state) : state :=
  {| routes := routes s; routeName := routeName s; routeType := v;
     clickedPoints := clickedPoints s; isDrawing := isDrawing s;
     isStyleLoaded := isStyleLoaded s; error := error s;
     storage := storage s; surface := surface s; alerts := alerts s |}.

Definition setClickedPoints (v : list (@point N)) (s : state) : state :=
  {| routes := routes s; routeName := routeName s; routeType := routeType s;
     clickedPoints := v; isDrawing := isDrawing s;
     isStyleLoaded := isStyleLoaded s; error := error s;
     storage := storage s; surface := surface s; alerts := alerts s |}.

Definition setIsDrawing (v : bool) (s : state) : state :=
  {| routes := routes s; routeName := routeName s; routeType := routeType s;
     clickedPoints := clickedPoints s; isDrawing := v;
     isStyleLoaded := isStyleLoaded s; error := error s;
     storage := storage s; surface := surface s; alerts := alerts s |}.

Definition setIsStyleLoaded (v : bool) (s : state) : state :=
  {| routes := routes s; routeName := routeName s; routeType := routeType s;
     clickedPoints := clickedPoints s; isDrawing := isDrawing s;
     isStyleLoaded := v; error := error s;
     storage := storage s; surface := surface s; alerts := alerts s |}.

Definition setError (v : string) (s : state) : state :=
  {| routes := routes s; routeName := routeName s; routeType := routeType s;
     clickedPoints := clickedPoints s; isDrawing := isDrawing s;
     isStyleLoaded := isStyleLoaded s; error := v;
     storage := storage s; surface := surface s; alerts := alerts s |}.

Definition setItem (v : string) (s : state) : state :=
  {| routes := routes s; routeName := routeName s; routeType := routeType s;
     clickedPoints := clickedPoints s; isDrawing := isDrawing s;
     isStyleLoaded := isStyleLoaded s; error := error s;
     storage := Some v; surface := surface s; alerts := alerts s |}.

Definition onMap (f : map_surface N -> map_surface N) (s : state) : state :=
  {| routes := routes s; routeName := routeName s; routeType := routeType s;
     clickedPoints := clickedPoints s; isDrawing := isDrawing s;
     isStyleLoaded := isStyleLoaded s; error := error s;
     storage := storage s; surface := f (surface s); alerts := alerts s |}.

Definition alert (msg : string) (s : state) : state :=
  {| routes := routes s; routeName := routeName s; routeType := routeType s;
     clickedPoints := clickedPoints s; isDrawing := isDrawing s;
     isStyleLoaded := isStyleLoaded s; error := error s;
     storage := storage s; surface := surface s; alerts := alerts s ++ [msg] |}.

(** The map's ['style.load'] callback. *)
Definition handleStyleLoad (s : state) : state := setIsStyleLoaded true s.

(** The map's ['click'] callback:
    [if (!isDrawing) return; setClickedPoints((prev) => [...prev, coordinates])]. *)
Definition handleClick (lngLat : @point N) (s : state) : state :=
  if isDrawing s then setClickedPoints (clickedPoints s ++ [(fst lngLat, snd lngLat)]) s
  else s.

Definition drawRouteOnMap (route : Route.t) (m : map_surface N) : map_surface N :=
  let sourceId := ("route-" ++ string_of_Z (Route.id route))%string in
  let coords :=
    map (fun coordStr => map Number_ofString (split_comma coordStr))
        (Route.coordinates route) in
  let roadType := find (fun t => String.eqb (value t) (Route.type route)) roadTypes in
  let m := if getSource sourceId m
           then removeSource sourceId (removeLayer sourceId m) else m in
  let m := addSource sourceId (LineString coords) m in
  addLayer {| layer_id := sourceId; layer_source := sourceId;
              layer_paint :=
                Line (match roadType with Some t => color t | None => "#000000" end)
                     (match roadType with Some t => width t | None => 5%Z end) |} m.

(** [loadRoutes]: the body of the [try] raises when [JSON.parse] does; the
    [catch] then resets the catalog. *)
Definition loadRoutes (s : state) : completion state :=
  match storage s with
  | Some saved =>
      if truthy saved then
        try_catch
          (match JSON_parse saved with
           | None => Raised s
           | Some parsed =>
               Done (fold_left (fun st route => onMap (drawRouteOnMap route) st)
                               parsed (setRoutes parsed s))
           end)
          (fun s' => Done (setRoutes [] s'))
      else Done (setRoutes [] s)
  | None => Done (setRoutes [] s)
  end.

Definition saveRoutesToStorage (updatedRoutes : list Route.t) (s : state) : state :=
  setRoutes updatedRoutes (setItem (JSON_stringify updatedRoutes) s).

(** [handleSaveRoute]; [now] is [Date.now()] and [iso] is
    [new Date().toISOString()]. *)
Definition handleSaveRoute (now : Z) (iso : string) (s : state) : state :=
  if negb (truthy (routeName s)) || (List.length (clickedPoints s) <? 2)%nat then
    setError validation_message s
  else
    let newRoute :=
      {| Route.id := now;
         Route.name := routeName s;
         Route.type := routeType s;
         Route.coordinates := serialize_points (clickedPoints s);
         Route.createdAt := iso |} in
    let updatedRoutes := routes s ++ [newRoute] in
    let s := saveRoutesToStorage updatedRoutes s in
    let s := onMap (drawRouteOnMap newRoute) s in
    let s := onMap (eraseLayerAndSource temp_route_line) s in
    let s := setRouteName "" s in
    let s := setClickedPoints [] s in
    let s := setIsDrawing false s in
    let s := setError "" s in
    alert "Route saved successfully!" s.

Definition handleDeleteRoute (id : Z) (s : state) : state :=
  let updatedRoutes := filter (fun route => negb (Route.id route =? id)%Z) (routes s) in
  let s := saveRoutesToStorage updatedRoutes s in
  onMap (eraseLayerAndSource ("route-" ++ string_of_Z id)%string) s.

(** The drawing button:
    [setIsDrawing(!isDrawing); if (!isDrawing) setClickedPoints([]);].
    It reads "Start Drawing" when idle and "Cancel Drawing" when drawing. *)
Definition toggleDrawing (s : state) : state :=
  let s' := setIsDrawing (negb (isDrawing s)) s in
  if negb (isDrawing s) then setClickedPoints [] s' else s'.

End Component.
End RouteManagerLocal.

(* ----------------------------------------------------------------- *)
(** *** RouteManager, routes kept by the remote service *)

Module RouteManagerRemote.

(** The body of [POST /api/routes]: the record without an id. *)
Record routeData : Type := {
  name : string;
  type : string;
  coordinates : list string;
  createdAt : string
}.

Inductive request : Type :=
| GET_routes
| POST_routes (data : routeData)
| DELETE_route (id : Z).

(** What an [axios] call settles to. A failed call carries
    [error.response?.data?.message], when there is one. *)
Inductive get_outcome : Type :=
| GetOk (data : list Route.t)
| GetFailed.

Inductive post_outcome : Type :=
| PostOk
| PostFailed (message : option string).

Inductive delete_outcome : Type :=
| DeleteOk
| DeleteFailed.

Section Component.
Context {N : Type} `{JSRuntime N}.

Record state : Type := {
  (* state hooks *)
  routes : list Route.t;
  routeName : string;
  routeType : string;
  clickedPoints : list (@point N);
  isDrawing : bool;
  isStyleLoaded : bool;
  error : string;
  (* props *)
  mapPresent : bool;              (* the [map] prop is not null *)
  (* the browser *)
  surface : map_surface N;        (* what the map holds, when there is one *)
  alerts : list string;
  requests : list request         (* the calls sent to the service, oldest first *)
}.

Definition initial (m : map_surface N) : state :=
  {| routes := []; routeName := ""; routeType := "major"; clickedPoints := [];
     isDrawing := false; isStyleLoaded := false; error := "";
     mapPresent := true; surface := m; alerts := []; requests := [] |}.

(** The component before the parent has created the map: [map] is null. *)
Definition initial_without_map : state :=
  {| routes := []; routeName := ""; routeType := "major"; clickedPoints := [];
     isDrawing := false; isStyleLoaded := false; error := "";
     mapPresent := false; surface := empty_map; alerts := []; requests := [] |}.

Definition setRoutes (v : list Route.t) (s : state) : state :=
  {| routes := v; routeName := routeName s; routeType := routeType s;
     clickedPoints := clickedPoints s; isDrawing := isDrawing s;
     isStyleLoaded := isStyleLoaded s; error := error s;
     mapPresent := mapPresent s;
     surface := surface s; alerts := alerts s; requests := requests s |}.

Definition setRouteName (v : string) (s : state) : state :=
  {| routes := routes s; routeName := v; routeType := routeType s;
     clickedPoints := clickedPoints s; isDrawing := isDrawing s;
     isStyleLoaded := isStyleLoaded s; error := error s;
     mapPresent := mapPresent s;
     surface := surface s; alerts := alerts s; requests := requests s |}.

Definition setRouteType (v : string) (s : state) : state :=
  {| routes := routes s; routeName := routeName s; routeType := v;
     clickedPoints := clickedPoints s; isDrawing := isDrawing s;
     isStyleLoaded := isStyleLoaded s; error := error s;
     mapPresent := mapPresent s;
     surface := surface s; alerts := alerts s; requests := requests s |}.

Definition setClickedPoints (v : list (@point N)) (s : state) : state :=
  {| routes := routes s; routeName := routeName s; routeType := routeType s;
     clickedPoints := v; isDrawing := isDrawing s;
     isStyleLoaded := isStyleLoaded s; error := error s;
     mapPresent := mapPresent s;
     surface := surface s; alerts := alerts s; requests := requests s |}.

Definition setIsDrawing (v : bool) (s : state) : state :=
  {| routes := routes s; routeName := routeName s; routeType := routeType s;
     clickedPoints := clickedPoints s; isDrawing := v;
     isStyleLoaded := isStyleLoaded s; error := error s;
     mapPresent := mapPresent s;
     surface := surface s; alerts := alerts s; requests := requests s |}.

Definition setIsStyleLoaded (v : bool) (s : state) : state :=
  {| routes := routes s; routeName := routeName s; routeType := routeType s;
     clickedPoints := clickedPoints s; isDrawing := isDrawing s;
     isStyleLoaded := v; error := error s;
     mapPresent := mapPresent s;
     surface := surface s; alerts := alerts s; requests := requests s |}.

Definition setError (v : string) (s : state) : state :=
  {| routes := routes s; routeName := routeName s; routeType := routeType s;
     clickedPoints := clickedPoints s; isDrawing := isDrawing s;
     isStyleLoaded := isStyleLoaded s; error := v;
     mapPresent := mapPresent s;
     surface := surface s; alerts := alerts s; requests := requests s |}.

Definition onMap (f : map_surface N -> map_surface N) (s : state) : state :=
  {| routes := routes s; routeName := routeName s; routeType := routeType s;
     clickedPoints := clickedPoints s; isDrawing := isDrawing s;
     isStyleLoaded := isStyleLoaded s; error := error s;
     mapPresent := mapPresent s;
     surface := f (surface s); alerts := alerts s; requests := requests s |}.

Definition alert (msg : string) (s : state) : state :=
  {| routes := routes s; routeName := routeName s; routeType := routeType s;
     clickedPoints := clickedPoints s; isDrawing := isDrawing s;
     isStyleLoaded := isStyleLoaded s; error := error s;
     mapPresent := mapPresent s;
     surface := surface s; alerts := alerts s ++ [msg]; requests := requests s |}.

Definition send (r : request) (s : state) : state :=
  {| routes := routes s; routeName := routeName s; routeType := routeType s;
     clickedPoints := clickedPoints s; isDrawing := isDrawing s;
     isStyleLoaded := isStyleLoaded s; error := error s;
     mapPresent := mapPresent s;
     surface := surface s; alerts := alerts s; requests := requests s ++ [r] |}.

Definition handleStyleLoad (s : state) : state := setIsStyleLoaded true s.

Definition handleClick (lngLat : @point N) (s : state) : state :=
  if isDrawing s then setClickedPoints (clickedPoints s ++ [(fst lngLat, snd lngLat)]) s
  else s.

(** [loadRoutes]; [got] is what [axios.get] settles to. *)
Definition loadRoutes (got : get_outcome) (s : state) : state :=
  let s := send GET_routes s in
  match got with
  | GetOk data => setRoutes data s
  | GetFailed => setError "Failed to load routes" s
  end.

(** [handleSaveRoute]; [iso] is [new Date().toISOString()], [posted] and
    [got] are what [axios.post] and the reload's [axios.get] settle to. The
    handler is followed to its end with no other event in between. (A save
    that passes validation has two clicked points, and clicks come from the
    map: the map is there, and [mapPresent] is not consulted.) *)
Definition handleSaveRoute (iso : string) (posted : post_outcome) (got : get_outcome)
    (s : state) : state :=
  if negb (truthy (routeName s)) || (List.length (clickedPoints s) <? 2)%nat then
    setError validation_message s
  else
    let data :=
      {| name := routeName s;
         type := routeType s;
         coordinates := serialize_points (clickedPoints s);
         createdAt := iso |} in
    let s := send (POST_routes data) s in
    match posted with
    | PostFailed message =>
        setError (match message with
                  | Some m => if truthy m then m
                              else "Failed to save route. Please try again."
                  | None => "Failed to save route. Please try again."
                  end) s
    | PostOk =>
        let s := onMap (eraseLayerAndSource temp_route_line) s in
        let s := setRouteName "" s in
        let s := setClickedPoints [] s in
        let s := setIsDrawing false s in
        let s := setError "" s in
        let s := alert "Route saved successfully!" s in
        loadRoutes got s
    end.

(** [handleDeleteRoute]; [deleted] and [got] are what [axios.delete] and the
    reload's [axios.get] settle to. The routes listed come from the mount's
    [loadRoutes], which does not wait for the map: the button can be pressed
    while [map] is still null. *)
Definition handleDeleteRoute (id : Z) (deleted : delete_outcome) (got : get_outcome)
    (s : state) : state :=
  let s := send (DELETE_route id) s in
  match deleted with
  | DeleteFailed => setError "Failed to delete route" s
  | DeleteOk =>
      if mapPresent s then
        let s := onMap (eraseLayerAndSource ("route-" ++ string_of_Z id)%string) s in
        let s := loadRoutes got s in
        setError "" s
      else
        (* [map.getLayer] on null throws, and the [catch] takes over *)
        setError "Failed to delete route" s
  end.

Definition toggleDrawing (s : state) : state :=
  let s' := setIsDrawing (negb (isDrawing s)) s in
  if negb (isDrawing s) then setClickedPoints [] s' else s'.

End Component.
End RouteManagerRemote.

(* ================================================================= *)
(** ** Buildings *)

(** The record of a building: [{id, location, coordinates, width, height,
    color, rotation, type}]. Ids are doubles that hold integers: 1, 2, ...
    as the component assigns them, or the ids a stored catalog came with. *)
Module Building.
Record t {N : Type} : Type := {
  id : Z;
  location : @point N;
  coordinates : list (list (@point N));
  width : N;
  height : N;
  color : string;
  rotation : N;
  type : string
}.
Arguments t N : clear implicits.
End Building.

Definition buildingTypes : list string :=
  [ "Residential Building"; "Market/Shopping Area"; "Office Building";
    "Factory/Warehouse"; "Power Plant"; "Transport Hub";
    "Educational Institution"; "Government Office"; "Park";
    "Cinema/Entertainment"; "Gym/Sports Arena"; "Healthcare Facility" ]%string.

Definition buildingAqiLimits : list (string * Z) :=
  [ ("Residential Building", 200); ("Market/Shopping Area", 150);
    ("Office Building", 100); ("Factory/Warehouse", 300);
    ("Power Plant", 400); ("Transport Hub", 150);
    ("Educational Institution", 100); ("Government Office", 150);
    ("Park", 50); ("Cinema/Entertainment", 100);
    ("Gym/Sports Arena", 100); ("Healthcare Facility", 50) ]%string%Z.

(** The names every object inherits from [Object.prototype]: a read of
    [buildingAqiLimits[name]] finds a member there (a function, or for
    [__proto__] the prototype itself) when the table has no entry of that
    name. *)
Definition Object_prototype_keys : list string :=
  [ "constructor"; "hasOwnProperty"; "isPrototypeOf"; "propertyIsEnumerable";
    "toLocaleString"; "toString"; "valueOf"; "__proto__";
    "__defineGetter__"; "__defineSetter__"; "__lookupGetter__";
    "__lookupSetter__" ]%string.

(** What [buildingAqiLimits[buildingType] || 200] is: a number, or an
    inherited member (it is truthy, so the default does not replace it). *)
Inductive limit (N : Type) : Type :=
| NumberLimit (n : N)
| InheritedMember.

Arguments NumberLimit {N} n.
Arguments InheritedMember {N}.

(** What the air-quality lookup hands back to [handleAddBuilding]. *)
Inductive aqi_lookup (N : Type) : Type :=
| LookupRejected                 (* [fetch], or [response.json()], rejects *)
| LookupNotOk                    (* [response.ok] is false *)
| LookupBody (aqi : option N).   (* [data.data?.aqi]: undefined, or a number *)

Arguments LookupRejected {N}.
Arguments LookupNotOk {N}.
Arguments LookupBody {N} aqi.

Module BuildingManager.
Section Component.
Context {N : Type} `{JSNumber N} `{JSRuntime N} `{JSONCodec (list (Building.t N))}.
Local Open Scope num_scope.

Record state : Type := {
  (* state hooks *)
  buildingWidth : N;
  buildingHeight : N;
  buildingColor : string;
  buildingRotation : N;
  buildingType : string;
  buildings : list (Building.t N);
  selectedBuilding : option (Building.t N);
  (* props *)
  clickedLocation : option (@point N);
  surface : option (map_surface N);     (* [map]; it may be null *)
  (* the browser *)
  storage : option string;              (* localStorage.getItem('buildings') *)
  alerts : list string;
  lookups : list (N * N)                (* air-quality requests sent, as (lat, lng) *)
}.

Definition initial (location : option (@point N)) (m : option (map_surface N))
    (stored : option string) : state :=
  {| buildingWidth := num_lit 30; buildingHeight := num_lit 50;
     buildingColor := "#ff0000"; buildingRotation := num_lit 0;
     buildingType := ""; buildings := []; selectedBuilding := None;
     clickedLocation := location; surface := m;
     storage := stored; alerts := []; lookups := [] |}.

Definition setBuildingWidth (v : N) (s : state) : state :=
  {| buildingWidth := v; buildingHeight := buildingHeight s;
     buildingColor := buildingColor s; buildingRotation := buildingRotation s;
     buildingType := buildingType s; buildings := buildings s;
     selectedBuilding := selectedBuilding s; clickedLocation := clickedLocation s;
     surface := surface s; storage := storage s; alerts := alerts s;
     lookups := lookups s |}.

Definition setBuildingHeight (v : N) (s : state) : state :=
  {| buildingWidth := buildingWidth s; buildingHeight := v;
     buildingColor := buildingColor s; buildingRotation := buildingRotation s;
     buildingType := buildingType s; buildings := buildings s;
     selectedBuilding := selectedBuilding s; clickedLocation := clickedLocation s;
     surface := surface s; storage := storage s; alerts := alerts s;
     lookups := lookups s |}.

Definition setBuildingColor (v : string) (s : state) : state :=
  {| buildingWidth := buildingWidth s; buildingHeight := buildingHeight s;
     buildingColor := v; buildingRotation := buildingRotation s;
     buildingType := buildingType s; buildings := buildings s;
     selectedBuilding := selectedBuilding s; clickedLocation := clickedLocation s;
     surface := surface s; storage := storage s; alerts := alerts s;
     lookups := lookups s |}.

Definition setBuildingRotation (v : N) (s : state) : state :=
  {| buildingWidth := buildingWidth s; buildingHeight := buildingHeight s;
     buildingColor := buildingColor s; buildingRotation := v;
     buildingType := buildingType s; buildings := buildings s;
     selectedBuilding := selectedBuilding s; clickedLocation := clickedLocation s;
     surface := surface s; storage := storage s; alerts := alerts s;
     lookups := lookups s |}.

Definition setBuildingType (v : string) (s : state) : state :=
  {| buildingWidth := buildingWidth s; buildingHeight := buildingHeight s;
     buildingColor := buildingColor s; buildingRotation := buildingRotation s;
     buildingType := v; buildings := buildings s;
     selectedBuilding := selectedBuilding s; clickedLocation := clickedLocation s;
     surface := surface s; storage := storage s; alerts := alerts s;
     lookups := lookups s |}.

Definition setBuildings (v : list (Building.t N)) (s : state) : state :=
  {| buildingWidth := buildingWidth s; buildingHeight := buildingHeight s;
     buildingColor := buildingColor s; buildingRotation := buildingRotation s;
     buildingType := buildingType s; buildings := v;
     selectedBuilding := selectedBuilding s; clickedLocation := clickedLocation s;
     surface := surface s; storage := storage s; alerts := alerts s;
     lookups := lookups s |}.

Definition setSelectedBuilding (v : option (Building.t N)) (s : state) : state :=
  {| buildingWidth := buildingWidth s; buildingHeight := buildingHeight s;
     buildingColor := buildingColor s; buildingRotation := buildingRotation s;
     buildingType := buildingType s; buildings := buildings s;
     selectedBuilding := v; clickedLocation := clickedLocation s;
     surface := surface s; storage := storage s; alerts := alerts s;
     lookups := lookups s |}.

(** The parent hands down a new [clickedLocation]. *)
Definition setClickedLocation (v : option (@point N)) (s : state) : state :=
  {| buildingWidth := buildingWidth s; buildingHeight := buildingHeight s;
     buildingColor := buildingColor s; buildingRotation := buildingRotation s;
     buildingType := buildingType s; buildings := buildings s;
     selectedBuilding := selectedBuilding s; clickedLocation := v;
     surface := surface s; storage := storage s; alerts := alerts s;
     lookups := lookups s |}.

Definition setSurface (v : option (map_surface N)) (s : state) : state :=
  {| buildingWidth := buildingWidth s; buildingHeight := buildingHeight s;
     buildingColor := buildingColor s; buildingRotation := buildingRotation s;
     buildingType := buildingType s; buildings := buildings s;
     selectedBuilding := selectedBuilding s; clickedLocation := clickedLocation s;
     surface := v; storage := storage s; alerts := alerts s;
     lookups := lookups s |}.

Definition setItem (v : string) (s : state) : state :=
  {| buildingWidth := buildingWidth s; buildingHeight := buildingHeight s;
     buildingColor := buildingColor s; buildingRotation := buildingRotation s;
     buildingType := buildingType s; buildings := buildings s;
     selectedBuilding := selectedBuilding s; clickedLocation := clickedLocation s;
     surface := surface s; storage := Some v; alerts := alerts s;
     lookups := lookups s |}.

Definition alert (msg : string) (s : state) : state :=
  {| buildingWidth := buildingWidth s; buildingHeight := buildingHeight s;
     buildingColor := buildingColor s; buildingRotation := buildingRotation s;
     buildingType := buildingType s; buildings := buildings s;
     selectedBuilding := selectedBuilding s; clickedLocation := clickedLocation s;
     surface := surface s; storage := storage s; alerts := alerts s ++ [msg];
     lookups := lookups s |}.

Definition fetchAqi (lat lng : N) (s : state) : state :=
  {| buildingWidth := buildingWidth s; buildingHeight := buildingHeight s;
     buildingColor := buildingColor s; buildingRotation := buildingRotation s;
     buildingType := buildingType s; buildings := buildings s;
     selectedBuilding := selectedBuilding s; clickedLocation := clickedLocation s;
     surface := surface s; storage := storage s; alerts := alerts s;
     lookups := lookups s ++ [(lat, lng)] |}.

(** The mount effect:
    [const stored = localStorage.getItem('buildings');
     if (stored) setBuildings(JSON.parse(stored));]. Nothing catches here. *)
Definition loadStored (s : state) : completion state :=
  match storage s with
  | Some stored =>
      if truthy stored then
        match JSON_parse stored with
        | Some parsed => Done (setBuildings parsed s)
        | None => Raised s
        end
      else Done s
  | None => Done s
  end.

(** The polygon [displayBuilding] labels: [building.coordinates[0]]. Every
    building the component draws comes from [getRotatedCoordinates], so the
    ring is there; a missing one is read as the empty ring. *)
Definition ring_of (building : Building.t N) : list (@point N) :=
  nth 0 (Building.coordinates building) [].

(** The [center] of [displayBuilding]. *)
Definition label_center (building : Building.t N) : @point N :=
  ring_center (ring_of building).

Definition newline : string := String (ascii_of_nat 10) EmptyString.

Definition displayBuilding (building : Building.t N) (map : option (map_surface N))
  : option (map_surface N) :=
  match map with
  | None => None
  | Some m =>
      let buildingId := ("building-" ++ string_of_Z (Building.id building))%string in
      let labelId := (buildingId ++ "-label")%string in
      let m := eraseLayerAndSource buildingId m in
      let m := eraseLayerAndSource labelId m in
      let m := addSource buildingId
                 (Polygon (Building.height building) (Building.coordinates building)) m in
      let m := addLayer {| layer_id := buildingId; layer_source := buildingId;
                           layer_paint := FillExtrusion (Building.color building)
                                                        (Building.height building) |} m in
      let center := label_center building in
      let m := addSource labelId
                 (LabelPoint center
                    ("#" ++ string_of_Z (Building.id building) ++ newline
                         ++ Building.type building)%string) m in
      Some (addLayer {| layer_id := labelId; layer_source := labelId;
                        layer_paint := Symbol |} m)
  end.

(** [buildingAqiLimits[buildingType] || 200]: the table's own entry, else
    the member the table inherits under that name, else 200. *)
Definition maxAqiAllowed (buildingType : string) : limit N :=
  match find (fun e => String.eqb (fst e) buildingType) buildingAqiLimits with
  | Some e => NumberLimit (num_or (num_lit (snd e)) (num_lit 200))
  | None =>
      if existsb (String.eqb buildingType) Object_prototype_keys then InheritedMember
      else NumberLimit (num_lit 200)
  end.

(** [aqi > maxAqiAllowed]. Against an inherited member the comparison turns
    the member into a number, which is NaN, and is false. *)
Definition above (aqi : N) (maxAqiAllowed : limit N) : bool :=
  match maxAqiAllowed with
  | NumberLimit n => aqi >? n
  | InheritedMember => false
  end.

(** [buildings.length > 0 ? Math.max(...buildings.map(b => b.id)) + 1 : 1].
    The ids are doubles that hold integers: the largest is found exactly,
    and [+ 1] is the addition of doubles, whose sum is rounded. *)
Definition newId (buildings : list (Building.t N)) : Z :=
  match map Building.id buildings with
  | [] => 1
  | i :: ids => nearest_double (fold_left Z.max ids i + 1)
  end.

(** The building [handleAddBuilding] makes from what its closure holds. *)
Definition newBuilding (render : state) (location : @point N) : Building.t N :=
  let size := buildingWidth render / num_lit 111111 in
  let coordinates := getRotatedCoordinates location size (buildingRotation render) in
  {| Building.id := newId (buildings render);
     Building.location := location;
     Building.coordinates := coordinates;
     Building.width := buildingWidth render;
     Building.height := buildingHeight render;
     Building.color := buildingColor render;
     Building.rotation := buildingRotation render;
     Building.type := buildingType render |}.

(** [handleAddBuilding] from [await fetch(...)] on. [render] is the state the
    handler's closure captured when the button was clicked, [location] its
    [clickedLocation]; [s] is the state when the lookup settles (it is
    [render] with the request logged unless something else happened in
    between). The functional update [setBuildings(prev => ...)] and the other
    setters act on [s]. *)
Definition afterLookup (render : state) (location : @point N) (lookup : aqi_lookup N)
    (s : state) : completion state :=
  match lookup with
  | LookupRejected => Raised s
  | LookupNotOk => Done (alert "Failed to fetch AQI data" s)
  | LookupBody None => Done (alert "Invalid AQI data. Please try again." s)
  | LookupBody (Some aqi) =>
      if above aqi (maxAqiAllowed (buildingType render)) then
        Done (alert ("AQI too high for a " ++ buildingType render ++ ". AQI: "
                       ++ Number_toString aqi)%string s)
      else
        let building := newBuilding render location in
        let updated := buildings s ++ [building] in
        let s := setItem (JSON_stringify updated) (setBuildings updated s) in
        let s := setBuildingType "" s in
        Done (setSurface (displayBuilding building (surface s)) s)
  end.

(** [handleAddBuilding], followed to its end with no other event in between. *)
Definition handleAddBuilding (lookup : aqi_lookup N) (s : state) : completion state :=
  match clickedLocation s with
  | None => Done (alert "Please select a location and building type" s)
  | Some location =>
      if negb (truthy (buildingType s)) then
        Done (alert "Please select a location and building type" s)
      else
        let lat := snd location in
        let lng := fst location in
        afterLookup s location lookup (fetchAqi lat lng s)
  end.

(** [JSON.parse(localStorage.getItem('buildings')) || []]; [None] when the
    parse raises. *)
Definition storedBuildings (s : state) : option (list (Building.t N)) :=
  match storage s with
  | None => Some []
  | Some text => JSON_parse text
  end.

Definition handleDeleteBuilding (buildingId : Z) (s : state) : completion state :=
  try_catch
    (match surface s with
     | None => Raised s
     | Some m =>
         let buildingLayerId := ("building-" ++ string_of_Z buildingId)%string in
         let labelLayerId := (buildingLayerId ++ "-label")%string in
         let m := eraseLayerAndSource buildingLayerId m in
         let m := eraseLayerAndSource labelLayerId m in
         let s := setSurface (Some m) s in
         let s := setBuildings
                    (filter (fun b => negb (Building.id b =? buildingId)%Z) (buildings s)) s in
         let s := setSelectedBuilding None s in
         match storedBuildings s with
         | None => Raised s
         | Some storedBuildings =>
             let updatedBuildings :=
               filter (fun b => negb (Building.id b =? buildingId)%Z) storedBuildings in
             Done (setItem (JSON_stringify updatedBuildings) s)
         end
     end)
    (fun s' => Done (alert "Failed to delete building. Please try again." s')).

(** The record [{...selectedBuilding, width, height, color, rotation, type,
    coordinates}] of [handleUpdateBuilding]. *)
Definition updatedBuilding (s : state) (selected : Building.t N) : Building.t N :=
  let size := buildingWidth s / num_lit 111111 in
  let coordinates :=
    getRotatedCoordinates (Building.location selected) size (buildingRotation s) in
  {| Building.id := Building.id selected;
     Building.location := Building.location selected;
     Building.coordinates := coordinates;
     Building.width := buildingWidth s;
     Building.height := buildingHeight s;
     Building.color := buildingColor s;
     Building.rotation := buildingRotation s;
     Building.type := buildingType s |}.

(** [prev.map(b => (b.id === selectedBuilding.id ? updatedBuilding : b))] *)
Definition replaceById (selected updated : Building.t N) (l : list (Building.t N))
  : list (Building.t N) :=
  map (fun b => if (Building.id b =? Building.id selected)%Z then updated else b) l.

Definition handleUpdateBuilding (s : state) : completion state :=
  match selectedBuilding s with
  | None => Done s
  | Some selected =>
      let updated := updatedBuilding s selected in
      try_catch
        (let s := setBuildings (replaceById selected updated (buildings s)) s in
         let s := setSurface (displayBuilding updated (surface s)) s in
         match storedBuildings s with
         | None => Raised s
         | Some storedBuildings =>
             let s := setItem (JSON_stringify
                                 (replaceById selected updated storedBuildings)) s in
             let s := setSelectedBuilding None s in
             Done (setBuildingType "" s)
         end)
        (fun s' => Done (alert "Failed to update building. Please try again." s'))
  end.

(** [handleSelectBuilding]: the form takes the building's values. (The
    camera move that follows is not modelled.) *)
Definition handleSelectBuilding (building : Building.t N) (s : state) : state :=
  let s := setSelectedBuilding (Some building) s in
  let s := setBuildingWidth (Building.width building) s in
  let s := setBuildingHeight (Building.height building) s in
  let s := setBuildingColor (Building.color building) s in
  let s := setBuildingRotation (num_or (Building.rotation building) (num_lit 0)) s in
  setBuildingType (Building.type building) s.

End Component.
End BuildingManager.

(* ================================================================= *)
(** ** Editing sessions of the building manager *)

(** What can happen to the mounted component, one event at a time. An add is
    two events: the click (validation, then the lookup is sent and the
    handler waits) and the lookup settling (the handler resumes with the
    closure of the click). Other events may come in between. *)
Module BuildingSession.
Import BuildingManager.
Section Session.
Context {N : Type} `{JSNumber N} `{JSRuntime N} `{JSONCodec (list (Building.t N))}.

Inductive event : Type :=
| EditWidth (v : N)
| EditHeight (v : N)
| EditColor (v : string)
| EditRotation (v : N)
| EditType (v : string)
| MapClick (location : @point N)
| SelectRow (i : nat)                             (* click the i-th building of the list *)
| ClickAdd
| LookupSettles (i : nat) (lookup : aqi_lookup N) (* the i-th pending lookup settles *)
| ClickUpdate
| ClickDelete.

Record session : Type := {
  now : @state N;
  pending : list (@state N * @point N)   (* closures of the adds that wait *)
}.

Fixpoint drop_nth {A : Type} (i : nat) (l : list A) : list A :=
  match l, i with
  | [], _ => []
  | _ :: l', O => l'
  | a :: l', S i' => a :: drop_nth i' l'
  end.

Definition step (e : event) (w : session) : session :=
  let s := now w in
  match e with
  | EditWidth v => {| now := setBuildingWidth v s; pending := pending w |}
  | EditHeight v => {| now := setBuildingHeight v s; pending := pending w |}
  | EditColor v => {| now := setBuildingColor v s; pending := pending w |}
  | EditRotation v => {| now := setBuildingRotation v s; pending := pending w |}
  | EditType v => {| now := setBuildingType v s; pending := pending w |}
  | MapClick location =>
      {| now := setClickedLocation (Some location) s; pending := pending w |}
  | SelectRow i =>
      match nth_error (buildings s) i with
      | Some building => {| now := handleSelectBuilding building s; pending := pending w |}
      | None => w
      end
  | ClickAdd =>
      match clickedLocation s with
      | None =>
          {| now := alert "Please select a location and building type" s;
             pending := pending w |}
      | Some location =>
          if negb (truthy (buildingType s)) then
            {| now := alert "Please select a location and building type" s;
               pending := pending w |}
          else
            {| now := fetchAqi (snd location) (fst location) s;
               pending := pending w ++ [(s, location)] |}
      end
  | LookupSettles i lookup =>
      match nth_error (pending w) i with
      | Some (render, location) =>
          {| now := final (afterLookup render location lookup s);
             pending := drop_nth i (pending w) |}
      | None => w
      end
  | ClickUpdate => {| now := final (handleUpdateBuilding s); pending := pending w |}
  | ClickDelete =>
      match selectedBuilding s with
      | Some selected =>
          {| now := final (handleDeleteBuilding (Building.id selected) s);
             pending := pending w |}
      | None => w
      end
  end.

Definition run (events : list event) (w : session) : session :=
  fold_left (fun w e => step e w) events w.

Definition start (s : @state N) : session := {| now := s; pending := [] |}.

End Session.
End BuildingSession.

(* ================================================================= *)
(** ** Properties of catalogs *)

(** The building invariant: [coordinates] is what [getRotatedCoordinates]
    gives for the record's own [location], [width] and [rotation]. *)
Definition coordinates_derived {N : Type} `{JSNumber N} (b : Building.t N) : Prop :=
  Building.coordinates b =
  getRotatedCoordinates (Building.location b)
                        (num_div (Building.width b) (num_lit 111111))
                        (Building.rotation b).

Definition catalog_derived {N : Type} `{JSNumber N} (s : @BuildingManager.state N) : Prop :=
  Forall coordinates_derived (BuildingManager.buildings s).

Definition unique_ids {N : Type} (l : list (Building.t N)) : Prop :=
  NoDup (map Building.id l).

(** Ids in the range where doubles count exactly (the safe integers of
    [Number.isSafeInteger]). *)
Definition safe_ids {N : Type} (l : list (Building.t N)) : Prop :=
  forall b, In b l -> (- 2 ^ 53 < Building.id b < 2 ^ 53)%Z.

(** Ids that stay in that range after [n] more adds. *)
Definition ids_leave_room {N : Type} (n : nat) (l : list (Building.t N)) : Prop :=
  (Z.of_nat n < 2 ^ 53)%Z /\
  forall b, In b l -> (- 2 ^ 53 < Building.id b /\ Building.id b + Z.of_nat n < 2 ^ 53)%Z.

Definition same_point (p q : float * float) : Prop :=
  same_number (fst p) (fst q) /\ same_number (snd p) (snd q).

(* ================================================================= *)
(** ** Stand-ins to run examples on *)

(** Examples need a runtime and a codec to run. These are stand-ins, not
    the browser's: the runtimes print and read integers the way JavaScript
    does, and the codec is a store that keeps nothing (it writes ["[]"] and
    reads nothing else). No theorem below
    depends on them; the examples do. *)

Definition Z_ofString (s : string) : Z :=
  match NilZero.int_of_string s with
  | Some i => Z.of_int i
  | None => 0
  end.

Definition IntegerRuntime : JSRuntime Z :=
  {| Number_toString := string_of_Z; Number_ofString := Z_ofString |}.

(** The integer a double holds, when it holds one. *)
Definition Z_of_float (x : float) : option Z :=
  match Prim2SF x with
  | S754_zero _ => Some 0%Z
  | S754_finite s m e =>
      if (0 <=? e)%Z then Some (cond_Zopp s (Z.pos m * 2 ^ e))
      else if (Z.pos m mod 2 ^ (- e) =? 0)%Z then Some (cond_Zopp s (Z.pos m / 2 ^ (- e)))
      else None
  | _ => None
  end.

Definition IntegralRuntime : JSRuntime float :=
  {| Number_toString := fun x => match Z_of_float x with
                                 | Some z => string_of_Z z
                                 | None => "NaN"%string
                                 end;
     Number_ofString := fun s => float_of_Z (Z_ofString s) |}.

Definition blank_codec (A : Type) : JSONCodec (list A) :=
  {| JSON_stringify := fun _ => "[]"%string;
     JSON_parse := fun text => if String.eqb text "[]" then Some [] else None |}.

(* ================================================================= *)
(** ** Conditions and inputs named in the theorems *)

(** When [handleSaveRoute] takes the validation branch. *)
Definition commit_refused (routeName : string) {A : Type} (clickedPoints : list A) : Prop :=
  routeName = EmptyString \/ (List.length clickedPoints < 2)%nat.

Definition commit_allowed (routeName : string) {A : Type} (clickedPoints : list A) : Prop :=
  routeName <> EmptyString /\ (2 <= List.length clickedPoints)%nat.

(** Jaipur, as a map click reports it. *)
Definition jaipur : float * float := (75.7873, 26.9124)%float.

(** A drawing session of the route manager: drawing is on, [name] is typed
    in, [points] were clicked. *)
Definition local_session {N : Type} (name : string) (points : list (N * N))
  : @RouteManagerLocal.state N :=
  RouteManagerLocal.setRouteName name
    (fold_left (fun s p => RouteManagerLocal.handleClick p s) points
       (RouteManagerLocal.toggleDrawing (RouteManagerLocal.initial None empty_map))).

Definition remote_session {N : Type} (name : string) (points : list (N * N))
  : @RouteManagerRemote.state N :=
  RouteManagerRemote.setRouteName name
    (fold_left (fun s p => RouteManagerRemote.handleClick p s) points
       (RouteManagerRemote.toggleDrawing (RouteManagerRemote.initial empty_map))).

(** 2 November 2025, 00:00 UTC, as [Date.now()] and as [toISOString()]. *)
Definition a_clock_reading : Z := 1762041600000.

Definition an_iso_date : string := "2025-11-02T00:00:00.000Z".

(** A route saved earlier, with a small id. *)
Definition an_old_route : Route.t :=
  {| Route.id := 5; Route.name := "Old Rd"; Route.type := "minor";
     Route.coordinates := ["70,20"; "71,21"]%string;
     Route.createdAt := "2025-01-01T00:00:00.000Z" |}.

(** The building manager as mounted on an empty map with an empty store,
    after a click on Jaipur and the choice of "Park" in the form. *)
Definition park_at_jaipur : @BuildingManager.state float :=
  BuildingManager.setBuildingType "Park"
    (BuildingManager.initial (H := Doubles) (Some jaipur) (Some empty_map) None).

(** A session on doubles: a park is added at Jaipur under an index of 40,
    then selected, and the form is set to width 40 and rotation 45. *)
Definition park_session_events
  : list (@BuildingSession.event float) :=
  [ BuildingSession.ClickAdd;
    BuildingSession.LookupSettles 0 (LookupBody (Some 40%float));
    BuildingSession.SelectRow 0;
    BuildingSession.EditWidth 40%float;
    BuildingSession.EditRotation 45%float ].

Definition park_selected : @BuildingManager.state float :=
  BuildingSession.now
    (BuildingSession.run (H := Doubles) (H0 := IntegralRuntime)
       (H1 := blank_codec (Building.t float))
       park_session_events (BuildingSession.start park_at_jaipur)).

(** The park that session adds. *)
Definition the_park : Building.t float :=
  BuildingManager.newBuilding (H := Doubles) park_at_jaipur jaipur.





(* ================================================================= *)
(** ** Names and graphics on the map *)

(** The names the components give to what they put on the map:
    [`route-${route.id}`], [`building-${building.id}`] and
    [`${buildingId}-label`]. *)
Definition route_source (id : Z) : string := ("route-" ++ string_of_Z id)%string.

Definition building_source (id : Z) : string := ("building-" ++ string_of_Z id)%string.

Definition building_label (id : Z) : string := (building_source id ++ "-label")%string.

(** What the map holds under a name: the data of the sources of that name,
    and the paint of the layers of that name, oldest first. *)
Definition sources_named {N : Type} (id : string) (m : map_surface N) : list (geojson N) :=
  map snd (filter (fun e => String.eqb (fst e) id) (sources m)).

Definition layers_named {N : Type} (id : string) (m : map_surface N) : list (paint N) :=
  map layer_paint (filter (fun l => String.eqb (layer_id l) id) (layers m)).

(** A name is on the map when it has a source and a layer. *)
Definition on_map {N : Type} (id : string) (m : map_surface N) : bool :=
  getSource id m && getLayer id m.

(** [[buildingId, labelId].forEach(id => { if (map.getLayer(id))
    map.removeLayer(id); if (map.getSource(id)) map.removeSource(id); })],
    the opening of [displayBuilding] and of [handleDeleteBuilding]. *)
Definition eraseBuilding {N : Type} (id : Z) (m : map_surface N) : map_surface N :=
  eraseLayerAndSource (building_label id) (eraseLayerAndSource (building_source id) m).

(** The two sources [displayBuilding] registers for a building. *)
Definition polygon_of {N : Type} (b : Building.t N) : geojson N :=
  Polygon (Building.height b) (Building.coordinates b).

Definition label_of {N : Type} `{JSNumber N} (b : Building.t N) : geojson N :=
  LabelPoint (BuildingManager.label_center b)
             ("#" ++ string_of_Z (Building.id b) ++ BuildingManager.newline
                  ++ Building.type b)%string.

(** All the map holds for the building of a given id. *)
Definition building_graphics {N : Type} (id : Z) (m : map_surface N)
  : list (geojson N) * list (paint N) * list (geojson N) * list (paint N) :=
  (sources_named (building_source id) m, layers_named (building_source id) m,
   sources_named (building_label id) m, layers_named (building_label id) m).

(** The source and the paint [drawRouteOnMap] registers for a route. *)
Definition route_line {N : Type} `{JSRuntime N} (route : Route.t) : geojson N :=
  LineString (map (fun coordStr => map Number_ofString (split_comma coordStr))
                  (Route.coordinates route)).

Definition route_paint {N : Type} (route : Route.t) : paint N :=
  let roadType := find (fun t => String.eqb (value t) (Route.type route)) roadTypes in
  Line (match roadType with Some t => color t | None => "#000000"%string end)
       (match roadType with Some t => width t | None => 5%Z end).

(* ================================================================= *)
(** ** What the buttons show *)

(** [disabled={!clickedLocation || !buildingType}] of the Add button. *)
Definition addButtonDisabled {N : Type} (s : @BuildingManager.state N) : bool :=
  negb (match BuildingManager.clickedLocation s with Some _ => true | None => false end)
  || negb (truthy (BuildingManager.buildingType s)).

(** [{selectedBuilding && (...)}]: the Update and Delete buttons are there. *)
Definition selectionButtonsShown {N : Type} (s : @BuildingManager.state N) : bool :=
  match BuildingManager.selectedBuilding s with Some _ => true | None => false end.

(** [{isDrawing && clickedPoints.length >= 2 && (...)}]: the Save button is
    there. *)
Definition saveButtonShown {N : Type} (s : @RouteManagerLocal.state N) : bool :=
  RouteManagerLocal.isDrawing s
  && (2 <=? List.length (RouteManagerLocal.clickedPoints s))%nat.

(* ================================================================= *)
(** ** Properties of states and sessions *)

(** Every building of the catalog has its polygon and its label on the map,
    when there is a map. *)
Definition catalog_drawn {N : Type} (s : @BuildingManager.state N) : Prop :=
  forall (m : map_surface N) (b : Building.t N),
    BuildingManager.surface s = Some m -> In b (BuildingManager.buildings s) ->
    on_map (building_source (Building.id b)) m = true /\
    on_map (building_label (Building.id b)) m = true.

(** The selected building, when there is one, has an entry in the catalog
    with its id and its anchor. *)
Definition selection_in_catalog {N : Type} (s : @BuildingManager.state N) : Prop :=
  forall selected : Building.t N,
    BuildingManager.selectedBuilding s = Some selected ->
    exists b : Building.t N,
      In b (BuildingManager.buildings s) /\ Building.id b = Building.id selected /\
      Building.location b = Building.location selected.

(** The add button is never clicked while a lookup is pending. *)
Fixpoint one_add_in_flight {N : Type} `{JSNumber N} `{JSRuntime N}
    `{JSONCodec (list (Building.t N))}
    (events : list (@BuildingSession.event N)) (w : @BuildingSession.session N) : bool :=
  match events with
  | [] => true
  | e :: rest =>
      match e, BuildingSession.pending w with
      | BuildingSession.ClickAdd, _ :: _ => false
      | _, _ => one_add_in_flight rest (BuildingSession.step e w)
      end
  end.

(** What holds, with [n] events to go, while at most one add waits for its
    lookup: ids are unique and leave room for [n] more adds, and every id of
    the catalog was already there when the waiting add read the catalog,
    which left that room too. *)
Definition flight_invariant {N : Type} (n : nat) (w : @BuildingSession.session N) : Prop :=
  unique_ids (BuildingManager.buildings (BuildingSession.now w)) /\
  (List.length (BuildingSession.pending w) <= 1)%nat /\
  ids_leave_room n (BuildingManager.buildings (BuildingSession.now w)) /\
  forall render location,
    In (render, location) (BuildingSession.pending w) ->
    incl (map Building.id (BuildingManager.buildings (BuildingSession.now w)))
         (map Building.id (BuildingManager.buildings render)) /\
    ids_leave_room n (BuildingManager.buildings render).

(** A number the runtime prints and reads back: [Number(`${x}`)] is [x], and
    the text holds no comma. *)
Definition reads_back {N : Type} `{JSRuntime N} (x : N) : Prop :=
  Number_ofString (Number_toString x) = x /\
  split_comma (Number_toString x) = [Number_toString x].

(* ================================================================= *)
(** ** A store that keeps what it is given *)

(** A codec for route lists to run the examples about reloading on: one
    field per line, after a header line. A stand-in too (it is not JSON); it
    reads back what it wrote as long as no field holds a line break. *)
Fixpoint split_lines (s : string) : list string :=
  match s with
  | EmptyString => [EmptyString]
  | String c rest =>
      if Ascii.eqb c (ascii_of_nat 10) then EmptyString :: split_lines rest
      else match split_lines rest with
           | [] => [String c EmptyString]
           | word :: words => String c word :: words
           end
  end.

Definition route_lines (route : Route.t) : list string :=
  [ string_of_Z (Route.id route); Route.name route; Route.type route;
    Route.createdAt route;
    string_of_Z (Z.of_nat (List.length (Route.coordinates route))) ]
  ++ Route.coordinates route.

Fixpoint read_routes (fuel : nat) (lines : list string) : option (list Route.t) :=
  match fuel with
  | O => None
  | S fuel =>
      match lines with
      | [] => Some []
      | id :: name :: type :: createdAt :: count :: rest =>
          let n := Z.to_nat (Z_ofString count) in
          if (n <=? List.length rest)%nat then
            match read_routes fuel (skipn n rest) with
            | Some routes =>
                Some ({| Route.id := Z_ofString id; Route.name := name;
                         Route.type := type; Route.coordinates := firstn n rest;
                         Route.createdAt := createdAt |} :: routes)
            | None => None
            end
          else None
      | _ => None
      end
  end.

Definition line_codec : JSONCodec (list Route.t) :=
  {| JSON_stringify := fun routes =>
       String.concat (String (ascii_of_nat 10) EmptyString)
                     ("routes"%string :: List.concat (map route_lines routes));
     JSON_parse := fun text =>
       match split_lines text with
       | header :: lines =>
           if String.eqb header "routes" then read_routes (S (List.length lines)) lines
           else None
       | [] => None
       end |}.

(* ================================================================= *)
(** ** More inputs named in the theorems *)

(** The route the session "Main St" through (72, 19) and (73, 18) commits
    at [a_clock_reading]. *)
Definition main_street : Route.t :=
  {| Route.id := a_clock_reading; Route.name := "Main St"; Route.type := "major";
     Route.coordinates := ["72,19"; "73,18"]%string; Route.createdAt := an_iso_date |}.

(** The building manager after the first park is added at Jaipur under an
    index of 40. *)
Definition park_added : @BuildingManager.state float :=
  final (BuildingManager.handleAddBuilding (H := Doubles) (H0 := IntegralRuntime)
           (H1 := blank_codec (Building.t float))
           (LookupBody (Some 40%float)) park_at_jaipur).

(** A session in which the form is edited while the first lookup is pending,
    a second park is added once the first lookup has settled, and the second
    park is then selected and deleted. *)
Definition two_parks_events : list (@BuildingSession.event float) :=
  [ BuildingSession.ClickAdd;
    BuildingSession.EditWidth 40%float;
    BuildingSession.LookupSettles 0 (LookupBody (Some 40%float));
    BuildingSession.EditType "Park";
    BuildingSession.ClickAdd;
    BuildingSession.LookupSettles 0 (LookupBody (Some 45%float));
    BuildingSession.SelectRow 1;
    BuildingSession.ClickDelete ].

(* ################################################################# *)
(** * Part II: the proofs *)

(* ================================================================= *)
(** ** Facts about doubles

    The facts of IEEE-754 arithmetic the geometry at rotation 0 rests on,
    proved from the specification of the primitive operations. *)

Section Doubles64.
Local Open Scope float_scope.

Lemma is_zero_spec x : is_zero x = SF_is_zero (Prim2SF x).
Proof.
  unfold is_zero. rewrite eqb_spec.
  change (Prim2SF zero) with (S754_zero false).
  destruct (Prim2SF x) as [s|s| |s m e]; try destruct s; reflexivity.
Qed.

Lemma is_finite_spec x : is_finite x = true -> SF_is_finite (Prim2SF x) = true.
Proof.
  unfold is_finite, is_nan, is_infinity.
  rewrite !eqb_spec, abs_spec.
  change (Prim2SF infinity) with (S754_infinity false).
  destruct (Prim2SF x) as [s|s| |s m e]; cbn [SF_is_finite]; auto.
  all: destruct s; cbv; auto.
Qed.

(** Multiplying by 1 is exact: the product of the mantissa by 2^52 is shifted
    back by 52 places and nothing is rounded away. *)
Lemma digits2_pos_shift52 m :
  Z.pos (digits2_pos (4503599627370496 * m)) = (Z.pos (digits2_pos m) + 52)%Z.
Proof.
  cbn [Pos.mul digits2_pos]. rewrite !Pos2Z.inj_succ. lia.
Qed.

Lemma iter_shr_52 m :
  @SpecFloat.iter_pos shr_record shr_1 52%positive {| shr_m := Z.pos (4503599627370496 * m); shr_r := false; shr_s := false |}
  = {| shr_m := Z.pos m; shr_r := false; shr_s := false |}.
Proof. reflexivity. Qed.

Lemma SFmul_one_r x :
  valid_binary (Prim2SF x) = true ->
  SF64mul (Prim2SF x) (S754_finite false 4503599627370496 (-52)) = Prim2SF x.
Proof.
  destruct (Prim2SF x) as [s|s| |s m e]; cbn [valid_binary SpecFloat.valid_binary];
    try (intros _; try destruct s; reflexivity).
  unfold bounded, canonical_mantissa. intros Hb.
  apply andb_prop in Hb. destruct Hb as [Hc He].
  apply Z.eqb_eq in Hc.
  unfold SF64mul, SFmul, binary_round_aux, shr_fexp.
  rewrite Pos.mul_comm.
  cbn [Zdigits2]. rewrite digits2_pos_shift52.
  replace (Z.pos (digits2_pos m) + 52 + (e + -52))%Z with (Z.pos (digits2_pos m) + e)%Z by lia.
  rewrite Hc.
  replace (e - (e + -52))%Z with 52%Z by lia.
  cbn [shr shr_record_of_loc]. rewrite iter_shr_52.
  cbn [shr_m loc_of_shr_record round_nearest_even Zdigits2].
  replace (e + -52 + 52)%Z with e by lia.
  rewrite Hc, Z.sub_diag. cbn [shr shr_m].
  rewrite He. rewrite xorb_false_r. reflexivity.
Qed.

Lemma mul_one_r x : x * one = x.
Proof.
  apply Prim2SF_inj. rewrite mul_spec.
  change (Prim2SF one) with (S754_finite false 4503599627370496 (-52)).
  apply SFmul_one_r, Prim2SF_valid.
Qed.


Lemma same_number_spec x y : SF_same (Prim2SF x) (Prim2SF y) -> same_number x y.
Proof.
  intros [H|[H1 H2]]; [left; now apply Prim2SF_inj | right].
  now rewrite !is_zero_spec.
Qed.

Lemma same_number_refl x : same_number x x.
Proof. now left. Qed.

Lemma mul_zero_r x : SF_is_finite (Prim2SF x) = true -> is_zero (x * zero) = true.
Proof.
  intros H.
  rewrite is_zero_spec, mul_spec.
  change (Prim2SF zero) with (S754_zero false).
  destruct (Prim2SF x); try discriminate H; reflexivity.
Qed.

Lemma sub_zero_r a z : is_zero z = true -> same_number (a - z) a.
Proof.
  rewrite is_zero_spec. intros Hz.
  apply same_number_spec. rewrite sub_spec.
  destruct (Prim2SF z) as [sz| | |]; try discriminate Hz.
  destruct (Prim2SF a) as [s|s| |s m e]; unfold SF_same; cbn;
    try (now left); destruct s, sz; cbn; auto.
Qed.

Lemma add_zero_add c z y :
  is_zero z = true -> same_number (c + z + y) (c + y).
Proof.
  rewrite is_zero_spec. intros Hz.
  apply same_number_spec. rewrite !add_spec.
  destruct (Prim2SF z) as [sz| | |]; try discriminate Hz.
  destruct (Prim2SF c) as [s|s| |s m e];
    cbv beta iota delta [SF64add SFadd]; try (now left).
  destruct (Prim2SF y) as [sy|sy| |sy my ey]; unfold SF_same;
    destruct s, sz; try destruct sy; cbn; auto.
Qed.

Lemma compare_cont_Eq_antisym m m' :
  Pos.compare_cont Eq m' m = CompOpp (Pos.compare_cont Eq m m').
Proof. rewrite Pos.compare_cont_antisym. reflexivity. Qed.

Lemma SFcompare_Lt_antisym a b :
  SFcompare a b = Some Lt -> SFcompare b a = Some Gt.
Proof.
  destruct a as [s|s| |s m e], b as [s'|s'| |s' m' e']; cbn;
    try discriminate; try (destruct s; try destruct s'; cbn; congruence);
    try (destruct s'; cbn; congruence).
  destruct s, s'; try congruence;
    rewrite (Z.compare_antisym e e'); destruct (e ?= e')%Z eqn:E; cbn; try congruence;
    rewrite (compare_cont_Eq_antisym m m');
    destruct (Pos.compare_cont Eq m m'); cbn; congruence.
Qed.

Lemma leb_not_ltb a c : (a <=? c) = true -> (c <? a) = false.
Proof.
  rewrite leb_spec, ltb_spec. unfold SFleb, SFltb.
  destruct (SFcompare (Prim2SF c) (Prim2SF a)) as [[| |]|] eqn:E; auto.
  apply SFcompare_Lt_antisym in E. rewrite E. discriminate.
Qed.

Lemma binary_round_aux_opp s m e l :
  binary_round_aux prec emax (negb s) m e l = SFopp (binary_round_aux prec emax s m e l).
Proof.
  unfold binary_round_aux.
  destruct (shr_fexp prec emax m e l) as [mrs e1].
  destruct (shr_fexp prec emax _ e1 loc_Exact) as [mrs' e2].
  destruct (shr_m mrs'); cbn; auto.
  match goal with |- context [Z.leb ?a ?b] => destruct (Z.leb a b) end; reflexivity.
Qed.

Lemma div_opp_l x y : (- x) / y = - (x / y).
Proof.
  apply Prim2SF_inj. rewrite opp_spec, !div_spec, opp_spec.
  destruct (Prim2SF x) as [s|s| |s m e], (Prim2SF y) as [s'|s'| |s' m' e'];
    cbn; try reflexivity; try (now rewrite negb_xorb_l).
  destruct (SFdiv_core_binary prec emax (Z.pos m) e (Z.pos m') e') as [[mz ez] lz].
  rewrite <- binary_round_aux_opp, negb_xorb_l. reflexivity.
Qed.

Lemma SF_is_finite_opp x : SF_is_finite (Prim2SF (- x)) = SF_is_finite (Prim2SF x).
Proof. rewrite opp_spec. now destruct (Prim2SF x). Qed.

Lemma mul_zero_r_opp x :
  SF_is_finite (Prim2SF x) = true -> is_zero (- x * zero) = true.
Proof.
  intros H. rewrite <- SF_is_finite_opp in H.
  rewrite is_zero_spec, mul_spec.
  change (Prim2SF zero) with (S754_zero false).
  destruct (Prim2SF (- x)); try discriminate H; reflexivity.
Qed.

End Doubles64.

(* ================================================================= *)
(** ** Division cannot overflow

    Dividing a finite double by 111111, and by 2, gives a finite double.
    The proof follows the quotient through the rounding of the
    specification: its mantissa has too few digits to reach the largest
    exponent. *)

Section Magnitude.
Local Open Scope Z_scope.

Lemma digits2_pos_size (p : positive) : digits2_pos p = Pos.size p.
Proof. induction p; cbn; congruence. Qed.

Lemma digits_upper (p : positive) : Z.pos p < 2 ^ Z.pos (digits2_pos p).
Proof.
  rewrite digits2_pos_size.
  pose proof (Pos.size_gt p) as H.
  apply Pos2Z.pos_lt_pos in H. rewrite Pos2Z.inj_pow in H. exact H.
Qed.

Lemma digits_lower (p : positive) : 2 ^ (Z.pos (digits2_pos p) - 1) <= Z.pos p.
Proof.
  rewrite digits2_pos_size.
  pose proof (Pos.size_le p) as H.
  apply Pos2Z.pos_le_pos in H. rewrite Pos2Z.inj_pow in H.
  replace (Z.pos (Pos.size p)) with (Z.succ (Z.pos (Pos.size p) - 1)) in H by lia.
  rewrite Z.pow_succ_r in H by lia. lia.
Qed.

(** A non-negative integer below [2 ^ k] has at most [k] binary digits. *)
Lemma Zdigits2_le (n k : Z) : 0 <= n -> 0 <= k -> n < 2 ^ k -> Zdigits2 n <= k.
Proof.
  intros Hn Hk Hlt. destruct n as [|p|p]; cbn [Zdigits2]; try lia.
  pose proof (digits_lower p) as Hl.
  destruct (Z_le_gt_dec (Z.pos (digits2_pos p)) k) as [Hle|Hgt]; [exact Hle|].
  exfalso.
  assert (2 ^ k <= 2 ^ (Z.pos (digits2_pos p) - 1)) by (apply Z.pow_le_mono_r; lia).
  lia.
Qed.

Lemma Zdigits2_nonneg (n : Z) : 0 <= Zdigits2 n.
Proof. destruct n; cbn; lia. Qed.

Lemma Zdigits2_upper (n : Z) : 0 <= n -> n < 2 ^ Zdigits2 n.
Proof.
  intros Hn. destruct n as [|p|p]; cbn [Zdigits2]; try lia.
  apply digits_upper.
Qed.

(** One step of the right shift halves the mantissa. *)
Lemma shr_1_m (mrs : shr_record) :
  0 <= shr_m mrs -> shr_m (shr_1 mrs) = shr_m mrs / 2.
Proof.
  destruct mrs as [m r s]. cbn [shr_m]. intros Hm. unfold shr_1.
  destruct m as [|p|p]; [reflexivity | | lia].
  destruct p as [p|p|]; cbn [shr_m].
  - apply Z.div_unique with (r := 1); lia.
  - apply Z.div_unique with (r := 0); lia.
  - reflexivity.
Qed.

Lemma iter_shr_m (n : positive) (mrs : shr_record) :
  0 <= shr_m mrs ->
  shr_m (SpecFloat.iter_pos shr_1 n mrs) = shr_m mrs / 2 ^ Z.pos n.
Proof.
  revert mrs. induction n as [n IH|n IH|]; intros mrs Hm; cbn [SpecFloat.iter_pos].
  - assert (H1 : 0 <= shr_m (shr_1 mrs))
      by (rewrite shr_1_m by assumption; apply Z.div_pos; lia).
    assert (H2 : 0 <= shr_m (SpecFloat.iter_pos shr_1 n (shr_1 mrs)))
      by (rewrite IH by assumption; apply Z.div_pos; lia).
    rewrite IH, IH, shr_1_m by assumption.
    rewrite !Z.div_div by lia.
    f_equal. rewrite Pos2Z.inj_xI. rewrite <- !Z.pow_add_r by lia.
    rewrite <- Z.pow_succ_r by lia. f_equal. lia.
  - assert (H2 : 0 <= shr_m (SpecFloat.iter_pos shr_1 n mrs))
      by (rewrite IH by assumption; apply Z.div_pos; lia).
    rewrite IH, IH by assumption.
    rewrite !Z.div_div by lia.
    f_equal. rewrite Pos2Z.inj_xO. rewrite <- !Z.pow_add_r by lia. f_equal. lia.
  - rewrite shr_1_m by assumption. reflexivity.
Qed.


Lemma Zdigits2_succ (m : Z) : 0 <= m -> Zdigits2 (m + 1) <= Zdigits2 m + 1.
Proof.
  intros Hm. pose proof (Zdigits2_upper m Hm) as Hu.
  pose proof (Zdigits2_nonneg m) as Hd.
  apply Zdigits2_le; try lia.
  rewrite Z.pow_add_r by lia. change (2 ^ 1) with 2. lia.
Qed.

Lemma Zdigits2_div_pow (m n : Z) :
  0 <= m -> 0 < n -> Zdigits2 (m / 2 ^ n) <= Z.max (Zdigits2 m - n) 0.
Proof.
  intros Hm Hn. pose proof (Zdigits2_upper m Hm) as Hu.
  pose proof (Zdigits2_nonneg m) as Hd.
  assert (Hp : 0 < 2 ^ n) by (apply Z.pow_pos_nonneg; lia).
  apply Zdigits2_le; [apply Z.div_pos; lia | lia |].
  apply Z.div_lt_upper_bound; [exact Hp|].
  destruct (Z_le_gt_dec n (Zdigits2 m)) as [Hle|Hgt].
  - rewrite Z.max_l by lia. rewrite <- Z.pow_add_r by lia.
    replace (n + (Zdigits2 m - n)) with (Zdigits2 m) by lia. exact Hu.
  - rewrite Z.max_r by lia. rewrite Z.pow_0_r, Z.mul_1_r.
    assert (2 ^ Zdigits2 m <= 2 ^ n) by (apply Z.pow_le_mono_r; lia). lia.
Qed.

Lemma round_nearest_even_bounds (m : Z) (l : location) :
  round_nearest_even m l = m \/ round_nearest_even m l = m + 1.
Proof.
  destruct l as [|[| |]]; cbn; auto. destruct (Z.even m); auto.
Qed.

Lemma shr_record_of_loc_m (m : Z) (l : location) : shr_m (shr_record_of_loc m l) = m.
Proof. destruct l as [|[| |]]; reflexivity. Qed.

(** What a right shift by [n] leaves: the exponent grows by [n] and the
    mantissa is divided by [2 ^ n], when [n] is positive; nothing moves
    otherwise. *)
Lemma shr_spec (mrs : shr_record) (e n : Z) :
  0 <= shr_m mrs ->
  (0 < n /\ shr_m (fst (shr mrs e n)) = shr_m mrs / 2 ^ n /\ snd (shr mrs e n) = e + n) \/
  (n <= 0 /\ shr_m (fst (shr mrs e n)) = shr_m mrs /\ snd (shr mrs e n) = e).
Proof.
  intros Hm. unfold shr. destruct n as [|p|p].
  - right. cbn. repeat split; lia.
  - left. cbn [fst snd]. rewrite iter_shr_m by assumption. repeat split; lia.
  - right. cbn. repeat split; lia.
Qed.

(** Rounding a non-negative mantissa whose value is below [2 ^ 1023] cannot
    overflow: the result is a zero or a finite number. *)
Lemma binary_round_aux_finite (s : bool) (m e : Z) (l : location) :
  0 <= m -> Zdigits2 m + e <= 1023 -> e <= 971 ->
  SF_is_finite (binary_round_aux prec emax s m e l) = true.
Proof.
  intros Hm Hd He.
  unfold binary_round_aux, shr_fexp.
  set (n1 := fexp prec emax (Zdigits2 m + e) - e).
  assert (Hm0 : 0 <= shr_m (shr_record_of_loc m l)) by (rewrite shr_record_of_loc_m; lia).
  pose proof (shr_spec (shr_record_of_loc m l) e n1 Hm0) as H1.
  destruct (shr (shr_record_of_loc m l) e n1) as [mrs1 e1]. cbn [fst snd] in H1.
  rewrite shr_record_of_loc_m in H1.
  set (m2 := round_nearest_even (shr_m mrs1) (loc_of_shr_record mrs1)).
  assert (Hfexp : forall k, fexp prec emax k = Z.max (k - 53) (-1074)) by reflexivity.
  assert (Hm1 : 0 <= shr_m mrs1 /\ Zdigits2 (shr_m mrs1) + e1 <= 1023 /\ e1 <= 971).
  { destruct H1 as [[Hn [Hs Hes]] | [Hn [Hs Hes]]]; rewrite Hs, Hes.
    - pose proof (Zdigits2_div_pow m n1 Hm Hn) as Hdd.
      split; [apply Z.div_pos; [lia | apply Z.pow_pos_nonneg; lia]|].
      unfold n1 in *. rewrite Hfexp in *. lia.
    - lia. }
  destruct Hm1 as [Hm1 [Hd1 He1]].
  assert (Hm2 : 0 <= m2 /\ Zdigits2 m2 + e1 <= 1024).
  { unfold m2.
    destruct (round_nearest_even_bounds (shr_m mrs1) (loc_of_shr_record mrs1)) as [E|E];
      rewrite E.
    - lia.
    - pose proof (Zdigits2_succ (shr_m mrs1) Hm1). lia. }
  destruct Hm2 as [Hm2 Hd2].
  set (n2 := fexp prec emax (Zdigits2 m2 + e1) - e1).
  assert (Hm20 : 0 <= shr_m (shr_record_of_loc m2 loc_Exact)) by (cbn; lia).
  pose proof (shr_spec (shr_record_of_loc m2 loc_Exact) e1 n2 Hm20) as H2.
  destruct (shr (shr_record_of_loc m2 loc_Exact) e1 n2) as [mrs2 e2]. cbn [fst snd] in H2.
  rewrite shr_record_of_loc_m in H2.
  assert (Hfin : 0 <= shr_m mrs2 /\ e2 <= 971).
  { destruct H2 as [[Hn [Hs Hes]] | [Hn [Hs Hes]]]; rewrite Hs, Hes.
    - split; [apply Z.div_pos; [lia | apply Z.pow_pos_nonneg; lia]|].
      unfold n2 in *. rewrite Hfexp in *. lia.
    - lia. }
  destruct Hfin as [Hm3 He3].
  destruct (shr_m mrs2) as [|p|p]; [reflexivity | | lia].
  replace (e2 <=? emax - prec) with true; [reflexivity|].
  symmetry. apply Z.leb_le. change (emax - prec) with 971. exact He3.
Qed.


(** The quotient the division computes before rounding. *)
Lemma SFdiv_core_bounds (mx my : positive) (ex ey : Z) :
  let d := Z.pos (digits2_pos mx) + ex - (Z.pos (digits2_pos my) + ey) in
  let '(q, e', _) := SFdiv_core_binary prec emax (Z.pos mx) ex (Z.pos my) ey in
  0 <= q /\ Zdigits2 q + e' <= Z.max (d + 1) e' /\ e' <= fexp prec emax d.
Proof.
  cbv zeta. unfold SFdiv_core_binary. cbn [Zdigits2].
  set (d := Z.pos (digits2_pos mx) + ex - (Z.pos (digits2_pos my) + ey)).
  set (e' := Z.min (fexp prec emax d) (ex - ey)).
  set (s := ex - ey - e').
  assert (Hs : 0 <= s) by (unfold s, e'; lia).
  set (m' := match s with
             | 0 => Z.pos mx
             | Z.pos _ => Z.shiftl (Z.pos mx) s
             | Z.neg _ => 0
             end).
  assert (Hm' : m' = Z.pos mx * 2 ^ s).
  { unfold m'. destruct s as [|p|p]; [cbn; lia | | lia].
    apply Z.shiftl_mul_pow2. lia. }
  pose proof (Z.div_eucl_eq m' (Z.pos my) ltac:(lia)) as Heq.
  pose proof (Z.mod_pos_bound m' (Z.pos my) ltac:(lia)) as Hr.
  unfold Z.modulo in Hr.
  destruct (Z.div_eucl m' (Z.pos my)) as [q r].
  pose proof (digits_upper mx) as Hux.
  pose proof (digits_lower my) as Hly.
  assert (Hp : 0 < 2 ^ s) by (apply Z.pow_pos_nonneg; lia).
  assert (Hq : 0 <= q) by nia.
  split; [exact Hq|]. split; [|unfold e'; lia].
  set (K := Z.pos (digits2_pos mx) + s - Z.pos (digits2_pos my) + 1).
  assert (HK : K + e' = d + 1) by (unfold K, s, d; lia).
  assert (Hm'u : m' < 2 ^ (Z.pos (digits2_pos mx) + s)).
  { rewrite Hm', Z.pow_add_r by lia. nia. }
  destruct (Z_le_gt_dec 0 K) as [HK0 | HK0].
  - assert (Hqu : q < 2 ^ K).
    { assert (Hsplit : 2 ^ (Z.pos (digits2_pos mx) + s)
                       = 2 ^ K * 2 ^ (Z.pos (digits2_pos my) - 1)).
      { rewrite <- Z.pow_add_r by lia. f_equal. unfold K. lia. }
      assert (HpK : 0 < 2 ^ K) by (apply Z.pow_pos_nonneg; lia).
      nia. }
    pose proof (Zdigits2_le q K Hq HK0 Hqu). lia.
  - assert (Hq0 : q = 0).
    { assert (2 ^ (Z.pos (digits2_pos mx) + s) <= 2 ^ (Z.pos (digits2_pos my) - 1))
        by (apply Z.pow_le_mono_r; unfold K in HK0; lia).
      nia. }
    rewrite Hq0. cbn [Zdigits2]. lia.
Qed.

(** Dividing a finite number by a finite number of magnitude 2 or more
    gives a finite number: the quotient cannot overflow. *)
Lemma SFdiv_finite (x : spec_float) (sy : bool) (my : positive) (ey : Z) :
  valid_binary x = true -> SF_is_finite x = true ->
  2 <= Z.pos (digits2_pos my) + ey ->
  SF_is_finite (SF64div x (S754_finite sy my ey)) = true.
Proof.
  intros Hv Hf Hy. destruct x as [sx|sx| |sx mx ex]; try discriminate Hf.
  - reflexivity.
  - unfold SF64div, SFdiv.
    pose proof (SFdiv_core_bounds mx my ex ey) as Hc. cbv zeta in Hc.
    destruct (SFdiv_core_binary prec emax (Z.pos mx) ex (Z.pos my) ey) as [[q e'] l].
    destruct Hc as [Hq [Hd He]].
    cbn [SpecFloat.valid_binary] in Hv. unfold bounded, canonical_mantissa in Hv.
    apply andb_prop in Hv. destruct Hv as [Hc He'].
    apply Z.eqb_eq in Hc. apply Z.leb_le in He'.
    change (emax - prec) with 971 in He'.
    assert (Hfexp : forall k, fexp prec emax k = Z.max (k - 53) (-1074)) by reflexivity.
    rewrite Hfexp in Hc, He.
    apply binary_round_aux_finite; lia.
Qed.

End Magnitude.

Section FiniteHalfSide.
Local Open Scope float_scope.

Lemma div_finite (x y : float) (sy : bool) (my : positive) (ey : Z) :
  Prim2SF y = S754_finite sy my ey ->
  (2 <= Z.pos (digits2_pos my) + ey)%Z ->
  SF_is_finite (Prim2SF x) = true ->
  SF_is_finite (Prim2SF (x / y)) = true.
Proof.
  intros Hy Hbig Hx. rewrite div_spec, Hy.
  apply SFdiv_finite; [apply Prim2SF_valid | exact Hx | exact Hbig].
Qed.

(** The half side of the square of a building of finite width is finite. *)
Lemma half_side_finite (width : float) :
  is_finite width = true ->
  SF_is_finite (Prim2SF (width / 111111 / 2)) = true.
Proof.
  intros Hw. apply is_finite_spec in Hw.
  apply (div_finite _ 2 false 4503599627370496 (-51)); [reflexivity | cbn; lia |].
  apply (div_finite _ 111111 false 7635489779613696 (-36)); [reflexivity | cbn; lia |].
  exact Hw.
Qed.

End FiniteHalfSide.

(* ================================================================= *)
(** ** The geometry builder at rotation 0 *)

Lemma series_conforming : conforming series_cos series_sin.
Proof. split; reflexivity. Qed.

Section RotationZero.
Local Open Scope float_scope.
Variables cos sin : float -> float.
Hypothesis engine : conforming cos sin.

Lemma rad_of_zero : 0 * float_PI / 180 = 0.
Proof. reflexivity. Qed.

(** At rotation 0 the builder multiplies by [cos 0 = 1] and [sin 0 = 0]. *)
Lemma getRotatedCoordinates_zero (c : float * float) (size : float) :
  getRotatedCoordinates (H := Binary64 cos sin) c size 0 =
  [[ (fst c + - size / 2 * 1 - - size / 2 * 0, snd c + - size / 2 * 0 + - size / 2 * 1);
     (fst c + size / 2 * 1 - - size / 2 * 0, snd c + size / 2 * 0 + - size / 2 * 1);
     (fst c + size / 2 * 1 - size / 2 * 0, snd c + size / 2 * 0 + size / 2 * 1);
     (fst c + - size / 2 * 1 - size / 2 * 0, snd c + - size / 2 * 0 + size / 2 * 1) ]].
Proof.
  destruct engine as [Hcos Hsin].
  unfold getRotatedCoordinates.
  cbn [map num_mul num_div num_add num_sub num_neg num_lit Math_PI Math_cos Math_sin
       Binary64 fst snd].
  change (float_of_Z 180) with 180. change (float_of_Z 2) with 2.
  rewrite rad_of_zero, Hcos, Hsin. reflexivity.
Qed.

(** C6. For every anchor [c] and every width that is a finite double
    (neither NaN nor an infinity), positive or not,
    [getRotatedCoordinates(c, width / 111111, 0)] is one ring
    of exactly four corners, with no fifth point closing it, and the corners
    are, in this order, [c + (-h, -h)], [c + (h, -h)], [c + (h, h)] and
    [c + (-h, h)] for [h = (width / 111111) / 2]: the axis-aligned square
    around [c] with side [width / 111111]. The sums are the doubles the code
    computes; "are" is equality of numbers ([same_number]). *)
Theorem rotation_zero_is_axis_aligned_square (c : float * float) (width : float) :
  is_finite width = true ->
  let s := width / 111111 in
  exists p0 p1 p2 p3,
    getRotatedCoordinates (H := Binary64 cos sin) c s 0 = [[p0; p1; p2; p3]] /\
    same_point p0 (fst c + - s / 2, snd c + - s / 2) /\
    same_point p1 (fst c + s / 2, snd c + - s / 2) /\
    same_point p2 (fst c + s / 2, snd c + s / 2) /\
    same_point p3 (fst c + - s / 2, snd c + s / 2).
Proof.
  intros Hwidth s. pose proof (half_side_finite width Hwidth) as Hfinite.
  fold s in Hfinite.
  rewrite getRotatedCoordinates_zero.
  do 4 eexists. split; [reflexivity|].
  change 1 with one. change 0 with zero.
  rewrite !mul_one_r.
  assert (Hz : is_zero (s / 2 * zero) = true) by now apply mul_zero_r.
  assert (Hz' : is_zero (- s / 2 * zero) = true)
    by (rewrite div_opp_l; now apply mul_zero_r_opp).
  repeat split; cbn [fst snd];
    (apply sub_zero_r || apply add_zero_add); assumption.
Qed.

End RotationZero.

(** The width has to be finite: an infinite one has no square. *)
Example infinite_width_has_no_square :
  getRotatedCoordinates (H := Doubles) jaipur (infinity / 111111)%float 0%float
  = [[ (nan, nan); (nan, nan); (nan, nan); (nan, nan) ]].
Proof. vm_compute. reflexivity. Qed.

(** The square of Jaipur's default building: anchor (75.7873, 26.9124),
    width 30. *)
Lemma rotation_zero_square_witness :
  let s := (30 / 111111)%float in
  exists p0 p1 p2 p3,
    getRotatedCoordinates (H := Doubles) (75.7873, 26.9124)%float s 0%float
      = [[p0; p1; p2; p3]] /\
    same_point p0 (75.7873 + - s / 2, 26.9124 + - s / 2)%float /\
    same_point p1 (75.7873 + s / 2, 26.9124 + - s / 2)%float /\
    same_point p2 (75.7873 + s / 2, 26.9124 + s / 2)%float /\
    same_point p3 (75.7873 + - s / 2, 26.9124 + s / 2)%float.
Proof.
  apply (rotation_zero_is_axis_aligned_square series_cos series_sin series_conforming
           (75.7873, 26.9124)%float 30%float).
  reflexivity.
Defined.

(* ================================================================= *)
(** ** The label anchor of a building at rotation 0 *)

(** Two doubles that [=?] tells apart are different. *)
Lemma eqb_false_neq (x y : float) :
  PrimFloat.eqb y y = true -> PrimFloat.eqb x y = false -> x <> y.
Proof. intros Hy Hxy E. rewrite E in Hxy. congruence. Qed.

Section AnyEngine.
Variables cos sin : float -> float.
Hypothesis engine : conforming cos sin.

#[local] Instance engine64 : JSNumber float := Binary64 cos sin.

(** The centre [displayBuilding] computes for the default building (width
    30, rotation 0) anchored at Jaipur, whatever the engine's [Math.cos] and
    [Math.sin] are away from 0: the longitude is the anchor's, the latitude
    is the double just below the anchor's. *)
Lemma jaipur_center :
  BuildingManager.label_center
    (BuildingManager.newBuilding (BuildingManager.initial (Some jaipur) None None) jaipur)
  = (75.7873, 26.912399999999998)%float.
Proof.
  unfold BuildingManager.label_center, BuildingManager.ring_of,
    BuildingManager.newBuilding.
  cbn [Building.coordinates BuildingManager.buildingWidth
       BuildingManager.buildingRotation BuildingManager.initial].
  change (@num_lit float engine64 0) with 0%float.
  unfold engine64. rewrite (getRotatedCoordinates_zero cos sin engine).
  vm_compute. reflexivity.
Qed.

End AnyEngine.

(** C8, the claim refuted on the code: the default building (width 30,
    rotation 0) anchored at Jaipur, [75.7873, 26.9124]. The centre
    [displayBuilding] computes for its ring is [75.7873, 26.912399999999998]:
    the four latitudes do not add up to four times the anchor's in double
    arithmetic. *)
Lemma centroid_off_anchor :
  let building :=
    BuildingManager.newBuilding (H := Doubles)
      (BuildingManager.initial (H := Doubles) (Some jaipur) None None) jaipur in
  Building.rotation building = 0%float /\
  Building.location building = jaipur /\
  BuildingManager.label_center (H := Doubles) building <> Building.location building.
Proof.
  cbv zeta. split; [reflexivity|]. split; [reflexivity|].
  change (BuildingManager.label_center (H := Doubles))
    with (BuildingManager.label_center (H := engine64 series_cos series_sin)).
  change (BuildingManager.newBuilding (H := Doubles))
    with (BuildingManager.newBuilding (H := engine64 series_cos series_sin)).
  change (BuildingManager.initial (H := Doubles))
    with (BuildingManager.initial (H := engine64 series_cos series_sin)).
  rewrite (jaipur_center series_cos series_sin series_conforming).
  cbn [Building.location BuildingManager.newBuilding].
  intros E. apply (f_equal snd) in E. cbn [snd jaipur] in E.
  revert E. apply eqb_false_neq; reflexivity.
Qed.

(* ================================================================= *)
(** ** Rounding, in units of the last place of the smallest doubles

    Every finite double is an integer number of units of [2 ^ -1074]. What
    follows bounds, in these units, the error of an addition and of a
    division by 4, from the specification of the operations: the sum of two
    doubles is off the exact sum by at most [2 ^ -52] of it (additions are
    exact where the result is subnormal), and four times a quotient by 4 is
    off the dividend by at most [2 ^ -52] of it, or by 4 units. *)

Section Rounding.
Local Open Scope Z_scope.

Lemma fexp64 (k : Z) : fexp prec emax k = Z.max (k - 53) (-1074).
Proof. reflexivity. Qed.

Lemma Zdigits2_lower (n : Z) : 0 < n -> 2 ^ (Zdigits2 n - 1) <= n.
Proof.
  intros Hn. destruct n as [|p|p]; try lia. cbn [Zdigits2]. apply digits_lower.
Qed.

Lemma shr_nonpos (mrs : shr_record) (e n : Z) : n <= 0 -> shr mrs e n = (mrs, e).
Proof. intros Hn. unfold shr. destruct n; [reflexivity | lia | reflexivity]. Qed.

Lemma loc_of_shr_record_of_loc (m : Z) (l : location) :
  loc_of_shr_record (shr_record_of_loc m l) = l.
Proof. destruct l as [|[| |]]; reflexivity. Qed.

Lemma cond_Zopp_mul (s : bool) (a b : Z) : cond_Zopp s (a * b) = cond_Zopp s a * b.
Proof. destruct s; cbn; lia. Qed.

(** The second shift of the rounding: a mantissa of at most 53 digits stays,
    and [2 ^ 53], which a round-up can produce, becomes [2 ^ 52] one
    exponent higher. Either way the value stays. *)
Lemma shr_fexp_exact (m e : Z) :
  0 <= m <= 2 ^ 53 -> -1074 <= e ->
  0 <= shr_m (fst (shr_fexp prec emax m e loc_Exact)) /\
  shr_m (fst (shr_fexp prec emax m e loc_Exact))
  * 2 ^ (snd (shr_fexp prec emax m e loc_Exact) + 1074)
  = m * 2 ^ (e + 1074).
Proof.
  intros Hm He. unfold shr_fexp.
  destruct (Z_lt_le_dec m (2 ^ 53)) as [Hlt | Hge].
  - pose proof (Zdigits2_le m 53 ltac:(lia) ltac:(lia) Hlt) as Hd.
    rewrite shr_nonpos by (rewrite fexp64; lia).
    cbn [fst snd shr_record_of_loc shr_m]. lia.
  - assert (E : m = 9007199254740992) by (change (2 ^ 53) with 9007199254740992 in *; lia).
    subst m. change (Zdigits2 9007199254740992) with 54.
    replace (fexp prec emax (54 + e) - e) with 1 by (rewrite fexp64; lia).
    cbn [shr shr_record_of_loc SpecFloat.iter_pos shr_1 fst snd shr_m].
    split; [lia|].
    replace (e + 1 + 1074) with (Z.succ (e + 1074)) by lia.
    rewrite Z.pow_succ_r by lia. lia.
Qed.

(** What rounding does to the value, in units of [2 ^ -1074]: the mantissa
    loses its last [w] digits and is then kept or increased by one; when
    digits are lost, 53 digits are kept. *)
Lemma binary_round_aux_units (s : bool) (m e : Z) (l : location) :
  0 <= m -> -1074 <= e ->
  SF_is_finite (binary_round_aux prec emax s m e l) = true ->
  exists w m2 : Z,
    0 <= w /\
    SF_units (binary_round_aux prec emax s m e l)
    = cond_Zopp s (m2 * 2 ^ (e + w + 1074)) /\
    (m2 = m / 2 ^ w \/ m2 = m / 2 ^ w + 1) /\
    (w = 0 \/ 2 ^ 52 <= m / 2 ^ w) /\
    (w = 0 -> l = loc_Exact -> m2 = m).
Proof.
  intros Hm He.
  unfold binary_round_aux.
  assert (Hfirst : exists w : Z,
             0 <= w /\
             shr_m (fst (shr_fexp prec emax m e l)) = m / 2 ^ w /\
             snd (shr_fexp prec emax m e l) = e + w /\
             (w = 0 \/ (2 ^ 52 <= m / 2 ^ w /\ m / 2 ^ w < 2 ^ 53)) /\
             (w = 0 -> m < 2 ^ 53 /\ loc_of_shr_record (fst (shr_fexp prec emax m e l)) = l)).
  { unfold shr_fexp.
    set (n1 := fexp prec emax (Zdigits2 m + e) - e).
    destruct (Z_lt_le_dec 0 n1) as [Hpos | Hnonpos].
    - exists n1.
      assert (Hm0 : 0 <= shr_m (shr_record_of_loc m l))
        by (rewrite shr_record_of_loc_m; lia).
      destruct (shr_spec (shr_record_of_loc m l) e n1 Hm0)
        as [[_ [Hs Hes]] | [Hn _]]; [|lia].
      rewrite shr_record_of_loc_m in Hs.
      split; [lia|]. split; [exact Hs|]. split; [exact Hes|].
      split; [|lia]. right.
      unfold n1 in *. rewrite fexp64 in *.
      assert (Hd : 53 < Zdigits2 m) by lia.
      assert (Hmpos : 0 < m) by (destruct m; cbn in Hd; lia).
      pose proof (Zdigits2_lower m Hmpos) as Hlo.
      pose proof (Zdigits2_upper m Hm) as Hup.
      replace (Z.max (Zdigits2 m + e - 53) (-1074) - e) with (Zdigits2 m - 53) in * by lia.
      assert (Hp : 0 < 2 ^ (Zdigits2 m - 53)) by (apply Z.pow_pos_nonneg; lia).
      split.
      + apply Z.div_le_lower_bound; [exact Hp|].
        rewrite <- Z.pow_add_r by lia.
        replace (Zdigits2 m - 53 + 52) with (Zdigits2 m - 1) by lia. exact Hlo.
      + apply Z.div_lt_upper_bound; [exact Hp|].
        rewrite <- Z.pow_add_r by lia.
        replace (Zdigits2 m - 53 + 53) with (Zdigits2 m) by lia. exact Hup.
    - exists 0. rewrite shr_nonpos by exact Hnonpos.
      cbn [fst snd]. rewrite shr_record_of_loc_m, loc_of_shr_record_of_loc.
      split; [lia|]. split; [now rewrite Z.pow_0_r, Z.div_1_r|].
      split; [lia|]. split; [now left|]. intros _. split; [|reflexivity].
      unfold n1 in Hnonpos. rewrite fexp64 in Hnonpos.
      pose proof (Zdigits2_upper m Hm) as Hup.
      assert (2 ^ Zdigits2 m <= 2 ^ 53)
        by (apply Z.pow_le_mono_r; lia).
      lia. }
  destruct Hfirst as [w [Hw [Hm1 [He1 [Hnormal Hexact]]]]].
  destruct (shr_fexp prec emax m e l) as [mrs1 e1]. cbn [fst snd] in *.
  set (m2 := round_nearest_even (shr_m mrs1) (loc_of_shr_record mrs1)).
  assert (Hm1pos : 0 <= m / 2 ^ w)
    by (apply Z.div_pos; [lia | apply Z.pow_pos_nonneg; lia]).
  assert (Hm2 : (m2 = m / 2 ^ w \/ m2 = m / 2 ^ w + 1) /\ 0 <= m2 <= 2 ^ 53).
  { unfold m2.
    destruct (round_nearest_even_bounds (shr_m mrs1) (loc_of_shr_record mrs1)) as [E|E];
      rewrite E, Hm1.
    - split; [now left|]. destruct Hnormal as [-> | Hn]; [|lia].
      destruct (Hexact eq_refl) as [Hlt _].
      rewrite Z.pow_0_r, Z.div_1_r in *. lia.
    - split; [now right|]. destruct Hnormal as [-> | Hn]; [|lia].
      destruct (Hexact eq_refl) as [Hlt _].
      rewrite Z.pow_0_r, Z.div_1_r in *. lia. }
  destruct Hm2 as [Hm2 Hm2b].
  pose proof (shr_fexp_exact m2 e1 Hm2b ltac:(lia)) as [Hm3 Hval].
  destruct (shr_fexp prec emax m2 e1 loc_Exact) as [mrs2 e2]. cbn [fst snd] in *.
  intros Hfin.
  exists w, m2. split; [exact Hw|]. split; [|split; [exact Hm2|split]].
  - rewrite <- He1, <- Hval.
    destruct (shr_m mrs2) as [|p|p]; [destruct s; reflexivity | | lia].
    destruct (e2 <=? emax - prec); [reflexivity | discriminate Hfin].
  - destruct Hnormal as [E | [Hn _]]; [now left | now right].
  - intros Hw0 Hl. subst w. destruct (Hexact eq_refl) as [_ Hloc].
    unfold m2. rewrite Hloc, Hl. cbn [round_nearest_even].
    rewrite Hm1, Z.pow_0_r, Z.div_1_r. reflexivity.
Qed.

End Rounding.

Section Adding.
Local Open Scope Z_scope.

Lemma iter_xO (m d : positive) : Z.pos (Pos.iter xO m d) = Z.pos m * 2 ^ Z.pos d.
Proof.
  rewrite <- Z.shiftl_mul_pow2 by lia.
  cbn [Z.shiftl].
  apply (Pos.iter_swap_gen _ _ Z.pos xO (Z.mul 2)). reflexivity.
Qed.

(** Aligning a mantissa to a lower exponent keeps the value. *)
Lemma shl_align_spec (mx : positive) (ex ex' : Z) :
  snd (shl_align mx ex ex') = Z.min ex ex' /\
  Z.pos (fst (shl_align mx ex ex')) = Z.pos mx * 2 ^ (ex - Z.min ex ex').
Proof.
  unfold shl_align. destruct (ex' - ex) as [|d|d] eqn:E; cbn [fst snd].
  - replace (Z.min ex ex') with ex by lia. rewrite Z.sub_diag. split; lia.
  - replace (Z.min ex ex') with ex by lia. rewrite Z.sub_diag. split; lia.
  - replace (Z.min ex ex') with ex' by lia. split; [reflexivity|].
    rewrite iter_xO. f_equal. f_equal. lia.
Qed.

Lemma valid_finite (s : bool) (m : positive) (e : Z) :
  valid_binary (S754_finite s m e) = true ->
  -1074 <= e <= 971 /\ Z.pos (digits2_pos m) <= 53.
Proof.
  cbn [valid_binary SpecFloat.valid_binary]. unfold bounded, canonical_mantissa.
  intros Hb. apply andb_prop in Hb. destruct Hb as [Hc He].
  apply Z.eqb_eq in Hc. apply Z.leb_le in He.
  change (emax - prec) with 971 in He. rewrite fexp64 in Hc. lia.
Qed.

(** Rounding an integer number of units: the result is off by at most its
    last place, which is at most [2 ^ -52] of the value. *)
Lemma binary_round_units (s : bool) (p : positive) (e : Z) :
  -1074 <= e ->
  SF_is_finite (binary_round prec emax s p e) = true ->
  exists r : Z,
    SF_units (binary_round prec emax s p e) = cond_Zopp s r /\
    Z.abs (r - Z.pos p * 2 ^ (e + 1074)) * 2 ^ 52 <= Z.pos p * 2 ^ (e + 1074).
Proof.
  intros He. unfold binary_round.
  pose proof (shl_align_spec p e (fexp prec emax (Z.pos (digits2_pos p) + e)))
    as [He' Hm'].
  destruct (shl_align p e (fexp prec emax (Z.pos (digits2_pos p) + e))) as [mz ez].
  cbn [fst snd] in *.
  assert (Hez : -1074 <= ez) by (rewrite He', fexp64; lia).
  intros Hfin.
  destruct (binary_round_aux_units s (Z.pos mz) ez loc_Exact ltac:(lia) Hez Hfin)
    as [w [m2 [Hw [Hu [Hm2 [Hnormal Hexact]]]]]].
  exists (m2 * 2 ^ (ez + w + 1074)). split; [exact Hu|].
  assert (HV : Z.pos p * 2 ^ (e + 1074) = Z.pos mz * 2 ^ (ez + 1074)).
  { rewrite Hm', <- Z.mul_assoc, <- Z.pow_add_r by lia. f_equal. f_equal. lia. }
  rewrite HV.
  destruct (Z.eq_dec w 0) as [-> | Hw0].
  - rewrite (Hexact eq_refl eq_refl). rewrite Z.add_0_r, Z.sub_diag.
    change (Z.abs 0 * 2 ^ 52) with 0.
    apply Z.mul_nonneg_nonneg; [lia | apply Z.pow_nonneg; lia].
  - destruct Hnormal as [E | Hn]; [contradiction|].
    replace (ez + w + 1074) with (w + (ez + 1074)) by lia.
    rewrite Z.pow_add_r by lia.
    set (W := 2 ^ w) in *. set (G := 2 ^ (ez + 1074)).
    assert (HW : 0 < W) by (apply Z.pow_pos_nonneg; lia).
    assert (HG : 0 < G) by (apply Z.pow_pos_nonneg; lia).
    pose proof (Z.mul_div_le (Z.pos mz) W HW) as Hlo.
    pose proof (Z.mul_succ_div_gt (Z.pos mz) W HW) as Hhi.
    set (m1 := Z.pos mz / W) in *.
    assert (Hd : Z.abs (m2 * W - Z.pos mz) <= W) by (destruct Hm2; subst m2; lia).
    replace (m2 * (W * G) - Z.pos mz * G) with ((m2 * W - Z.pos mz) * G) by ring.
    rewrite Z.abs_mul, (Z.abs_eq G) by lia.
    assert (H1 : Z.abs (m2 * W - Z.pos mz) * G <= W * G)
      by (apply Z.mul_le_mono_nonneg_r; lia).
    assert (H2 : 2 ^ 52 * (W * G) <= Z.pos mz * G).
    { rewrite Z.mul_assoc. apply Z.mul_le_mono_nonneg_r; [lia|].
      transitivity (m1 * W); [apply Z.mul_le_mono_nonneg_r; lia | lia]. }
    lia.
Qed.

Lemma binary_normalize_units (M e : Z) (sz : bool) :
  -1074 <= e ->
  SF_is_finite (binary_normalize prec emax M e sz) = true ->
  Z.abs (SF_units (binary_normalize prec emax M e sz) - M * 2 ^ (e + 1074)) * 2 ^ 52
  <= Z.abs (M * 2 ^ (e + 1074)).
Proof.
  intros He. unfold binary_normalize. destruct M as [|p|p].
  - intros _. cbn. lia.
  - intros Hfin. destruct (binary_round_units false p e He Hfin) as [r [-> Hr]].
    cbn [cond_Zopp]. lia.
  - intros Hfin. destruct (binary_round_units true p e He Hfin) as [r [-> Hr]].
    cbn [cond_Zopp].
    replace (- r - Z.neg p * 2 ^ (e + 1074)) with (- (r - Z.pos p * 2 ^ (e + 1074))) by lia.
    rewrite Z.abs_opp.
    replace (Z.neg p * 2 ^ (e + 1074)) with (- (Z.pos p * 2 ^ (e + 1074))) by lia.
    rewrite Z.abs_opp. lia.
Qed.

(** A sum that is finite has finite terms. *)
Lemma SFadd_finite (x y : spec_float) :
  SF_is_finite (SFadd prec emax x y) = true ->
  SF_is_finite x = true /\ SF_is_finite y = true.
Proof.
  destruct x as [sx|sx| |sx mx ex], y as [sy|sy| |sy my ey];
    try (intros _; split; reflexivity);
    try (cbn; intros Hf; discriminate Hf);
    try (destruct sx, sy; cbn; intros Hf; discriminate Hf).
Qed.

(** The sum of two doubles, when it is finite, is off the exact sum by at
    most [2 ^ -52] of it. *)
Lemma SFadd_units (x y : spec_float) :
  valid_binary x = true -> valid_binary y = true ->
  SF_is_finite (SFadd prec emax x y) = true ->
  Z.abs (SF_units (SFadd prec emax x y) - (SF_units x + SF_units y)) * 2 ^ 52
  <= Z.abs (SF_units x + SF_units y).
Proof.
  intros Hx Hy Hfin.
  destruct (SFadd_finite x y Hfin) as [Hfx Hfy].
  destruct x as [sx|sx| |sx mx ex]; try discriminate Hfx;
    destruct y as [sy|sy| |sy my ey]; try discriminate Hfy.
  - destruct sx, sy; cbn; lia.
  - cbn [SFadd SF_units]. rewrite Z.add_0_l, Z.sub_diag. cbn. lia.
  - cbn [SFadd SF_units]. rewrite Z.add_0_r, Z.sub_diag. cbn. lia.
  - destruct (valid_finite sx mx ex Hx) as [Hex _].
    destruct (valid_finite sy my ey Hy) as [Hey _].
    cbn [SFadd] in *. cbn [SF_units].
    set (ez := Z.min ex ey) in *.
    pose proof (shl_align_spec mx ex ez) as [_ Hmx].
    pose proof (shl_align_spec my ey ez) as [_ Hmy].
    replace (Z.min ex ez) with ez in Hmx by lia.
    replace (Z.min ey ez) with ez in Hmy by lia.
    set (M := cond_Zopp sx (Z.pos (fst (shl_align mx ex ez)))
              + cond_Zopp sy (Z.pos (fst (shl_align my ey ez)))) in *.
    assert (HM : cond_Zopp sx (Z.pos mx * 2 ^ (ex + 1074))
                 + cond_Zopp sy (Z.pos my * 2 ^ (ey + 1074))
                 = M * 2 ^ (ez + 1074)).
    { unfold M. rewrite Hmx, Hmy, Z.mul_add_distr_r, <- !cond_Zopp_mul.
      rewrite <- !Z.mul_assoc, <- !Z.pow_add_r by lia.
      replace (ex - ez + (ez + 1074)) with (ex + 1074) by lia.
      replace (ey - ez + (ez + 1074)) with (ey + 1074) by lia. reflexivity. }
    rewrite HM. apply binary_normalize_units; [lia | exact Hfin].
Qed.

End Adding.

Section DividingByFour.
Local Open Scope Z_scope.


(** The quotient by 4 before rounding: it is the integer part of the exact
    quotient at an exponent that is not below the least one. *)
Lemma SFdiv_core_by_four (mx : positive) (ex : Z) :
  -1074 <= ex -> Z.pos (digits2_pos mx) <= 53 ->
  let '(q, e', _) := SFdiv_core_binary prec emax (Z.pos mx) ex 4503599627370496 (-50) in
  0 <= q /\ -1074 <= e' /\
  q * 2 ^ (e' + 1076) <= Z.pos mx * 2 ^ (ex + 1074) < (q + 1) * 2 ^ (e' + 1076) /\
  (e' = -1074 \/ 2 ^ (e' + 1128) <= Z.pos mx * 2 ^ (ex + 1074)).
Proof.
  intros Hex Hdx. unfold SFdiv_core_binary. cbn [Zdigits2].
  change (Z.pos (digits2_pos 4503599627370496)) with 53.
  set (d1 := Z.pos (digits2_pos mx)) in *.
  rewrite fexp64.
  set (e' := Z.min (Z.max (d1 + ex - (53 + -50) - 53) (-1074)) (ex - -50)).
  assert (He' : e' = Z.max (d1 + ex - 56) (-1074)) by (unfold e'; lia).
  set (s := ex - -50 - e').
  assert (Hs : 0 <= s) by (unfold s; lia).
  set (m' := match s with
             | 0 => Z.pos mx
             | Z.pos _ => Z.shiftl (Z.pos mx) s
             | Z.neg _ => 0
             end).
  assert (Hm' : m' = Z.pos mx * 2 ^ s).
  { unfold m'. destruct s as [|p|p]; [cbn; lia | | lia].
    apply Z.shiftl_mul_pow2. lia. }
  pose proof (Z.div_eucl_eq m' 4503599627370496 ltac:(lia)) as Heq.
  pose proof (Z.mod_pos_bound m' 4503599627370496 ltac:(lia)) as Hr.
  unfold Z.modulo in Hr.
  destruct (Z.div_eucl m' 4503599627370496) as [q r].
  assert (Hp : 0 < 2 ^ s) by (apply Z.pow_pos_nonneg; lia).
  assert (Hq : 0 <= q) by nia.
  split; [exact Hq|]. split; [lia|].
  set (U := Z.pos mx * 2 ^ (ex + 1074)).
  set (Q := 2 ^ (e' + 1076)).
  assert (HQ : 0 < Q) by (apply Z.pow_pos_nonneg; lia).
  split.
  - destruct (Z_le_gt_dec 0 (e' + 1024)) as [Ht | Ht].
    + set (T := 2 ^ (e' + 1024)).
      assert (HT : 0 < T) by (apply Z.pow_pos_nonneg; lia).
      assert (HU : U = m' * T).
      { unfold U, T. rewrite Hm', <- Z.mul_assoc, <- Z.pow_add_r by lia.
        f_equal. f_equal. unfold s. lia. }
      assert (HQT : Q = 4503599627370496 * T).
      { unfold Q, T. change 4503599627370496 with (2 ^ 52).
        rewrite <- Z.pow_add_r by lia. f_equal. lia. }
      rewrite HU, HQT. nia.
    + set (T := 2 ^ (- (e' + 1024))).
      assert (HT : 0 < T) by (apply Z.pow_pos_nonneg; lia).
      assert (HU : m' = U * T).
      { unfold U, T. rewrite Hm', <- Z.mul_assoc, <- Z.pow_add_r by lia.
        f_equal. f_equal. unfold s. lia. }
      assert (HQT : 4503599627370496 = Q * T).
      { unfold Q, T. change 4503599627370496 with (2 ^ 52).
        rewrite <- Z.pow_add_r by lia. f_equal. lia. }
      rewrite HU, HQT in Heq. rewrite HQT in Hr. nia.
  - destruct (Z.eq_dec e' (-1074)) as [E | E]; [now left | right].
    assert (He'' : e' = d1 + ex - 56) by lia.
    pose proof (digits_lower mx) as Hlo. fold d1 in Hlo.
    assert (Hd1 : 1 <= d1) by (unfold d1; lia).
    transitivity (2 ^ (d1 - 1) * 2 ^ (ex + 1074)).
    + rewrite <- Z.pow_add_r by lia. apply Z.pow_le_mono_r; lia.
    + apply Z.mul_le_mono_nonneg_r; [apply Z.pow_nonneg; lia | exact Hlo].
Qed.

(** A quotient by 4 that is finite comes from a finite number. *)
Lemma SFdiv_four_finite (x : spec_float) :
  SF_is_finite (SFdiv prec emax x SF_four) = true -> SF_is_finite x = true.
Proof. destruct x; cbn; auto. Qed.

(** Dividing by 4, in units of [2 ^ -1074]: four times the quotient is off
    the dividend by at most [2 ^ -52] of it, or by 4 units where the
    quotient is subnormal. *)
Lemma SFdiv_four_units (x : spec_float) :
  valid_binary x = true ->
  SF_is_finite (SFdiv prec emax x SF_four) = true ->
  Z.abs (4 * SF_units (SFdiv prec emax x SF_four) - SF_units x) * 2 ^ 52
  <= Z.abs (SF_units x) + 2 ^ 54.
Proof.
  intros Hx Hfin. pose proof (SFdiv_four_finite x Hfin) as Hfx.
  destruct x as [sx|sx| |sx mx ex]; try discriminate Hfx.
  - cbn. lia.
  - destruct (valid_finite sx mx ex Hx) as [Hex Hdx].
    unfold SF_four, SFdiv in *.
    pose proof (SFdiv_core_by_four mx ex ltac:(lia) Hdx) as Hcore.
    destruct (SFdiv_core_binary prec emax (Z.pos mx) ex 4503599627370496 (-50))
      as [[q e'] l].
    destruct Hcore as [Hq [He' [[Hlo Hhi] Hmag]]].
    destruct (binary_round_aux_units (xorb sx false) q e' l Hq He' Hfin)
      as [w [m2 [Hw [Hu [Hm2 [Hnormal _]]]]]].
    rewrite Hu, xorb_false_r. cbn [SF_units].
    set (U := Z.pos mx * 2 ^ (ex + 1074)) in *.
    assert (HU : 0 <= U)
      by (apply Z.mul_nonneg_nonneg; [lia | apply Z.pow_nonneg; lia]).
    set (W := 2 ^ w). set (Q := 2 ^ (e' + 1076)) in *.
    assert (HW : 0 < W) by (apply Z.pow_pos_nonneg; lia).
    assert (HQ : 0 < Q) by (apply Z.pow_pos_nonneg; lia).
    assert (HK : 4 * 2 ^ (e' + w + 1074) = W * Q).
    { unfold W, Q. change 4 with (2 ^ 2).
      rewrite <- !Z.pow_add_r by lia. f_equal. lia. }
    pose proof (Z.mul_div_le q W HW) as Hqlo.
    pose proof (Z.mul_succ_div_gt q W HW) as Hqhi.
    fold W in Hm2, Hnormal.
    set (m1 := q / W) in *.
    assert (H1 : m1 * (W * Q) <= U) by nia.
    assert (H2 : U < (m1 + 1) * (W * Q)) by nia.
    assert (Hr : 4 * (m2 * 2 ^ (e' + w + 1074)) = m2 * (W * Q)) by (rewrite <- HK; ring).
    assert (Hd : Z.abs (m2 * (W * Q) - U) <= W * Q) by (destruct Hm2; subst m2; lia).
    assert (Hb : W * Q * 2 ^ 52 <= U + 2 ^ 54).
    { destruct (Z.eq_dec w 0) as [Hw0 | Hw0].
      - assert (W = 1) by (unfold W; rewrite Hw0; reflexivity).
        destruct Hmag as [E | Hmag].
        + assert (Q = 4) by (unfold Q; rewrite E; reflexivity). lia.
        + assert (Q * 2 ^ 52 = 2 ^ (e' + 1128)).
          { unfold Q. rewrite <- Z.pow_add_r by lia. f_equal. lia. }
          nia.
      - destruct Hnormal as [E | Hn]; [contradiction|].
        assert (2 ^ 52 * (W * Q) <= m1 * (W * Q))
          by (apply Z.mul_le_mono_nonneg_r; nia).
        lia. }
    assert (Hgoal : Z.abs (4 * (m2 * 2 ^ (e' + w + 1074)) - U) * 2 ^ 52 <= U + 2 ^ 54)
      by (rewrite Hr; lia).
    destruct sx; cbn [cond_Zopp]; lia.
Qed.

End DividingByFour.

Section MeanOfFour.
Local Open Scope Z_scope.

Lemma abs_triangle (y t : Z) : Z.abs y <= Z.abs t + Z.abs (y - t).
Proof. lia. Qed.

Lemma abs_telescope (C A S4 S3 S2 S1 X0 X1 X2 X3 E0 E1 E2 E3 : Z) :
  E0 + E1 + E2 + E3 = 4 * A ->
  4 * Z.abs (C - A)
  <= Z.abs (4 * C - S4) + Z.abs (S4 - (S3 + X3)) + Z.abs (S3 - (S2 + X2))
     + Z.abs (S2 - (S1 + X1)) + Z.abs (S1 - X0)
     + Z.abs (X0 - E0) + Z.abs (X1 - E1) + Z.abs (X2 - E2) + Z.abs (X3 - E3).
Proof.
  intros Hsum.
  replace (4 * Z.abs (C - A)) with (Z.abs (4 * C - 4 * A)) by lia.
  replace (4 * C - 4 * A)
    with ((4 * C - S4) + (S4 - (S3 + X3)) + (S3 - (S2 + X2)) + (S2 - (S1 + X1))
          + (S1 - X0) + (X0 - E0) + (X1 - E1) + (X2 - E2) + (X3 - E3)) by lia.
  repeat (etransitivity; [apply Z.abs_triangle|]; apply Z.add_le_mono_r).
  reflexivity.
Qed.

Lemma mean_of_four_lp
    (B c d e1 e2 e3 e4 x0 x1 x2 x3 t2 t3 t4 s1 s2 s3 s4 ax0 ax1 ax2 ax3 : Z) :
  0 <= x0 -> 0 <= x1 -> 0 <= x2 -> 0 <= x3 ->
  0 <= e1 -> 0 <= e2 -> 0 <= e3 -> 0 <= e4 -> 0 <= d ->
  x0 * 2 ^ 52 <= B -> x1 * 2 ^ 52 <= B -> x2 * 2 ^ 52 <= B -> x3 * 2 ^ 52 <= B ->
  ax0 <= B + x0 -> ax1 <= B + x1 -> ax2 <= B + x2 -> ax3 <= B + x3 ->
  e1 * 2 ^ 52 <= ax0 -> s1 <= ax0 + e1 ->
  t2 <= s1 + ax1 -> e2 * 2 ^ 52 <= t2 -> s2 <= t2 + e2 ->
  t3 <= s2 + ax2 -> e3 * 2 ^ 52 <= t3 -> s3 <= t3 + e3 ->
  t4 <= s3 + ax3 -> e4 * 2 ^ 52 <= t4 -> s4 <= t4 + e4 ->
  d * 2 ^ 52 <= s4 + 2 ^ 54 ->
  4 * c <= d + e4 + e3 + e2 + e1 + x0 + x1 + x2 + x3 ->
  2 ^ 49 * c <= B + 2 ^ 49.
Proof.
  change (2 ^ 52) with 4503599627370496. change (2 ^ 54) with 18014398509481984.
  change (2 ^ 49) with 562949953421312.
  intros. lia.
Qed.

Lemma mean_of_four_bound (A H E0 E1 E2 E3 X0 X1 X2 X3 S1 S2 S3 S4 C : Z) :
  E0 + E1 + E2 + E3 = 4 * A ->
  Z.abs E0 <= Z.abs A + Z.abs H -> Z.abs E1 <= Z.abs A + Z.abs H ->
  Z.abs E2 <= Z.abs A + Z.abs H -> Z.abs E3 <= Z.abs A + Z.abs H ->
  Z.abs (X0 - E0) * 2 ^ 52 <= Z.abs E0 ->
  Z.abs (X1 - E1) * 2 ^ 52 <= Z.abs E1 ->
  Z.abs (X2 - E2) * 2 ^ 52 <= Z.abs E2 ->
  Z.abs (X3 - E3) * 2 ^ 52 <= Z.abs E3 ->
  Z.abs (S1 - (0 + X0)) * 2 ^ 52 <= Z.abs (0 + X0) ->
  Z.abs (S2 - (S1 + X1)) * 2 ^ 52 <= Z.abs (S1 + X1) ->
  Z.abs (S3 - (S2 + X2)) * 2 ^ 52 <= Z.abs (S2 + X2) ->
  Z.abs (S4 - (S3 + X3)) * 2 ^ 52 <= Z.abs (S3 + X3) ->
  Z.abs (4 * C - S4) * 2 ^ 52 <= Z.abs S4 + 2 ^ 54 ->
  2 ^ 49 * Z.abs (C - A) <= Z.abs A + Z.abs H + 2 ^ 49.
Proof.
  intros Hsum B0 B1 B2 B3 R0 R1 R2 R3 A1 A2 A3 A4 D.
  rewrite Z.add_0_l in A1.
  apply (mean_of_four_lp (Z.abs A + Z.abs H) (Z.abs (C - A))
           (Z.abs (4 * C - S4)) (Z.abs (S1 - X0)) (Z.abs (S2 - (S1 + X1)))
           (Z.abs (S3 - (S2 + X2))) (Z.abs (S4 - (S3 + X3)))
           (Z.abs (X0 - E0)) (Z.abs (X1 - E1)) (Z.abs (X2 - E2)) (Z.abs (X3 - E3))
           (Z.abs (S1 + X1)) (Z.abs (S2 + X2)) (Z.abs (S3 + X3))
           (Z.abs S1) (Z.abs S2) (Z.abs S3) (Z.abs S4)
           (Z.abs X0) (Z.abs X1) (Z.abs X2) (Z.abs X3));
    try apply Z.abs_nonneg;
    try (etransitivity; [eassumption | assumption]);
    try assumption;
    try (etransitivity; [apply abs_triangle | apply Z.add_le_mono_r; assumption]);
    try apply abs_triangle;
    try apply Z.abs_triangle.
  now apply abs_telescope.
Qed.

End MeanOfFour.

Section NearTheAnchor.
Local Open Scope float_scope.

Lemma SFcompare_refl (s : bool) (m : positive) (e : Z) :
  SFcompare (S754_finite s m e) (S754_finite s m e) = Some Eq.
Proof.
  cbn. rewrite Z.compare_refl, Pos.compare_cont_refl. now destruct s.
Qed.

Lemma is_finite_SF (x : float) : is_finite x = SF_is_finite (Prim2SF x).
Proof.
  unfold is_finite, is_nan, is_infinity.
  rewrite !eqb_spec, abs_spec.
  change (Prim2SF infinity) with (S754_infinity false).
  destruct (Prim2SF x) as [s|s| |s m e]; cbn [SF_is_finite SFabs].
  - now destruct s.
  - now destruct s.
  - reflexivity.
  - unfold SFeqb. rewrite SFcompare_refl. reflexivity.
Qed.

Lemma add_units (x y : float) :
  is_finite (x + y) = true ->
  is_finite x = true /\ is_finite y = true /\
  (Z.abs (units (x + y) - (units x + units y)) * 2 ^ 52
   <= Z.abs (units x + units y))%Z.
Proof.
  rewrite !is_finite_SF. unfold units. rewrite add_spec. intros Hf.
  destruct (SFadd_finite _ _ Hf) as [Hx Hy].
  split; [exact Hx|]. split; [exact Hy|].
  apply SFadd_units; [apply Prim2SF_valid | apply Prim2SF_valid | exact Hf].
Qed.

Lemma div_four_units (x : float) :
  is_finite (x / 4) = true ->
  is_finite x = true /\
  (Z.abs (4 * units (x / 4) - units x) * 2 ^ 52 <= Z.abs (units x) + 2 ^ 54)%Z.
Proof.
  rewrite !is_finite_SF. unfold units. rewrite div_spec.
  change (Prim2SF 4) with SF_four. intros Hf.
  split; [now apply SFdiv_four_finite|].
  apply SFdiv_four_units; [apply Prim2SF_valid | exact Hf].
Qed.

Lemma units_opp (x : float) : units (- x) = (- units x)%Z.
Proof.
  unfold units. rewrite opp_spec.
  destruct (Prim2SF x) as [s|s| |s m e]; cbn; try reflexivity.
  destruct s; cbn; lia.
Qed.

Lemma units_same (x y : float) :
  same_number x y -> units x = units y /\ is_finite x = is_finite y.
Proof.
  intros [-> | [Hx Hy]]; [split; reflexivity|].
  rewrite is_zero_spec in Hx, Hy. rewrite !is_finite_SF. unfold units.
  destruct (Prim2SF x), (Prim2SF y); try discriminate; split; reflexivity.
Qed.

(** The mean of four doubles that are a centre moved by offsets which cancel
    out and have one magnitude. *)
Lemma mean_of_four_near (c h g0 g1 g2 g3 x0 x1 x2 x3 : float) :
  same_number x0 (c + g0) -> same_number x1 (c + g1) ->
  same_number x2 (c + g2) -> same_number x3 (c + g3) ->
  (units g0 + units g1 + units g2 + units g3 = 0)%Z ->
  Z.abs (units g0) = Z.abs (units h) -> Z.abs (units g1) = Z.abs (units h) ->
  Z.abs (units g2) = Z.abs (units h) -> Z.abs (units g3) = Z.abs (units h) ->
  is_finite ((0 + x0 + x1 + x2 + x3) / 4) = true ->
  is_finite c = true /\ near ((0 + x0 + x1 + x2 + x3) / 4) c h.
Proof.
  intros E0 E1 E2 E3 Hsum G0 G1 G2 G3 Hfin.
  destruct (div_four_units _ Hfin) as [F4 D].
  destruct (add_units _ _ F4) as [F3 [Fx3 A4]].
  destruct (add_units _ _ F3) as [F2 [Fx2 A3]].
  destruct (add_units _ _ F2) as [F1 [Fx1 A2]].
  destruct (add_units _ _ F1) as [_ [Fx0 A1]].
  destruct (units_same _ _ E0) as [U0 I0].
  destruct (units_same _ _ E1) as [U1 I1].
  destruct (units_same _ _ E2) as [U2 I2].
  destruct (units_same _ _ E3) as [U3 I3].
  rewrite I0 in Fx0. rewrite I1 in Fx1. rewrite I2 in Fx2. rewrite I3 in Fx3.
  destruct (add_units _ _ Fx0) as [Fc [_ R0]].
  destruct (add_units _ _ Fx1) as [_ [_ R1]].
  destruct (add_units _ _ Fx2) as [_ [_ R2]].
  destruct (add_units _ _ Fx3) as [_ [_ R3]].
  split; [exact Fc|].
  rewrite <- U0 in R0. rewrite <- U1 in R1. rewrite <- U2 in R2. rewrite <- U3 in R3.
  change (units 0) with 0%Z in A1.
  unfold near.
  apply (mean_of_four_bound (units c) (units h)
           (units c + units g0) (units c + units g1)
           (units c + units g2) (units c + units g3)
           (units x0) (units x1) (units x2) (units x3)
           (units (0 + x0)) (units (0 + x0 + x1)) (units (0 + x0 + x1 + x2))
           (units (0 + x0 + x1 + x2 + x3)));
    try assumption.
  - clear - Hsum. lia.
  - rewrite <- G0. apply Z.abs_triangle.
  - rewrite <- G1. apply Z.abs_triangle.
  - rewrite <- G2. apply Z.abs_triangle.
  - rewrite <- G3. apply Z.abs_triangle.
Qed.

End NearTheAnchor.

(* ================================================================= *)
(** ** The label anchor at rotation 0, on doubles *)

Section CentreAtRotationZero.
Local Open Scope float_scope.
Variables cos sin : float -> float.
Hypothesis engine : conforming cos sin.

Lemma ring_center_four (p0 p1 p2 p3 : float * float) :
  ring_center (H := Binary64 cos sin) [p0; p1; p2; p3]
  = ((0 + fst p0 + fst p1 + fst p2 + fst p3) / 4,
     (0 + snd p0 + snd p1 + snd p2 + snd p3) / 4).
Proof. reflexivity. Qed.

(** C8, as amended. For every building created with rotation 0 and a finite
    width, on IEEE-754 doubles and for any engine with [Math.cos(0) = 1] and
    [Math.sin(0) = 0]: the building keeps its anchor, its ring has 4
    corners, and when the centre [displayBuilding] computes is finite
    (nothing overflowed), the anchor and the half side
    [(width / 111111) / 2] are finite and each coordinate of the centre is
    within [2 ^ -49 * (|anchor coordinate| + |half side|) + 2 ^ -1074] of
    the anchor's. The centre need not be the anchor
    ([centroid_off_anchor]): each of the four corner sums, each of the
    three additions of the mean and the division can round. ([units] counts
    in multiples of [2 ^ -1074], in which every finite double is an
    integer.) *)
Theorem centroid_is_near_anchor
    (render : @BuildingManager.state float) (location : float * float) :
  BuildingManager.buildingRotation render = 0 ->
  is_finite (BuildingManager.buildingWidth render) = true ->
  let building := BuildingManager.newBuilding (H := Binary64 cos sin) render location in
  let centre := BuildingManager.label_center (H := Binary64 cos sin) building in
  let h := BuildingManager.buildingWidth render / 111111 / 2 in
  is_finite (fst centre) = true -> is_finite (snd centre) = true ->
  Building.location building = location /\
  List.length (BuildingManager.ring_of building) = 4%nat /\
  is_finite (fst location) = true /\ is_finite (snd location) = true /\
  is_finite h = true /\
  near (fst centre) (fst location) h /\ near (snd centre) (snd location) h.
Proof.
  intros Hrot Hwidth building centre h.
  pose proof (half_side_finite _ Hwidth) as Hfinite. fold h in Hfinite.
  assert (Fh : is_finite h = true) by (now rewrite is_finite_SF).
  subst centre building.
  unfold BuildingManager.label_center, BuildingManager.ring_of,
    BuildingManager.newBuilding.
  cbn [Building.coordinates Building.location].
  rewrite Hrot.
  cbn [num_div num_lit Binary64].
  change (float_of_Z 111111) with 111111.
  rewrite (getRotatedCoordinates_zero cos sin engine).
  cbn [nth List.length]. rewrite ring_center_four. cbn [fst snd].
  rewrite !div_opp_l. fold h.
  change 1 with one. change 0 with zero.
  rewrite !mul_one_r.
  assert (Hz : is_zero (h * zero) = true) by now apply mul_zero_r.
  assert (Hz' : is_zero (- h * zero) = true) by now apply mul_zero_r_opp.
  intros Hfx Hfy.
  destruct (mean_of_four_near (fst location) h (- h) h h (- h) _ _ _ _
              (sub_zero_r _ _ Hz') (sub_zero_r _ _ Hz') (sub_zero_r _ _ Hz)
              (sub_zero_r _ _ Hz)) as [Fx Nx];
    [rewrite !units_opp; lia | rewrite units_opp; lia | reflexivity | reflexivity
     | rewrite units_opp; lia | exact Hfx |].
  destruct (mean_of_four_near (snd location) h (- h) (- h) h h _ _ _ _
              (add_zero_add _ _ _ Hz') (add_zero_add _ _ _ Hz) (add_zero_add _ _ _ Hz)
              (add_zero_add _ _ _ Hz')) as [Fy Ny];
    [rewrite !units_opp; lia | rewrite units_opp; lia | rewrite units_opp; lia
     | reflexivity | reflexivity | exact Hfy |].
  repeat split; assumption.
Qed.

End CentreAtRotationZero.

(** The default building anchored at Jaipur. *)
Lemma centroid_near_witness :
  let building :=
    BuildingManager.newBuilding (H := Doubles)
      (BuildingManager.initial (H := Doubles) (Some jaipur) None None) jaipur in
  let centre := BuildingManager.label_center (H := Doubles) building in
  let h := (30 / 111111 / 2)%float in
  Building.location building = jaipur /\
  List.length (BuildingManager.ring_of building) = 4%nat /\
  is_finite (fst jaipur) = true /\ is_finite (snd jaipur) = true /\
  is_finite h = true /\
  near (fst centre) (fst jaipur) h /\ near (snd centre) (snd jaipur) h.
Proof.
  apply (centroid_is_near_anchor series_cos series_sin series_conforming
           (BuildingManager.initial (H := Doubles) (Some jaipur) None None) jaipur);
    reflexivity.
Defined.

(** The proviso is needed: an anchor at [2 ^ 1023] is finite, and the sum of
    the four corners is not. *)
Example centroid_can_overflow :
  BuildingManager.label_center (H := Doubles)
    (BuildingManager.newBuilding (H := Doubles)
       (BuildingManager.initial (H := Doubles) (Some (0x1p1023, 26.9124)%float) None None)
       (0x1p1023, 26.9124)%float)
  = (infinity, 26.912399999999998)%float.
Proof. vm_compute. reflexivity. Qed.

(** The error is relative to the half side as well as to the anchor: an
    anchor far smaller than the half side is lost in the corner sums. *)
Example small_anchor_is_lost :
  BuildingManager.label_center (H := Doubles)
    (BuildingManager.newBuilding (H := Doubles)
       (BuildingManager.initial (H := Doubles) (Some (1e-21, 1e-5)%float) None None)
       (1e-21, 1e-5)%float)
  = (0, 9.9999999999999991e-06)%float.
Proof. vm_compute. reflexivity. Qed.

(* ================================================================= *)
(** ** Committing a route *)

Lemma truthy_empty (s : string) : truthy s = false <-> s = EmptyString.
Proof.
  unfold truthy. rewrite negb_false_iff. apply String.eqb_eq.
Qed.

Lemma truthy_nonempty (s : string) : truthy s = true <-> s <> EmptyString.
Proof.
  unfold truthy. rewrite negb_true_iff. apply String.eqb_neq.
Qed.

Lemma refused_guard (routeName : string) {A : Type} (clickedPoints : list A) :
  commit_refused routeName clickedPoints ->
  negb (truthy routeName) || (List.length clickedPoints <? 2)%nat = true.
Proof.
  intros [Hn | Hl].
  - apply truthy_empty in Hn. rewrite Hn. reflexivity.
  - apply Nat.ltb_lt in Hl. rewrite Hl. apply orb_true_r.
Qed.

Lemma allowed_guard (routeName : string) {A : Type} (clickedPoints : list A) :
  commit_allowed routeName clickedPoints ->
  negb (truthy routeName) || (List.length clickedPoints <? 2)%nat = false.
Proof.
  intros [Hn Hl].
  apply truthy_nonempty in Hn. rewrite Hn.
  apply Nat.ltb_ge in Hl. rewrite Hl. reflexivity.
Qed.

Lemma validation_message_shown : validation_message <> EmptyString.
Proof. discriminate. Qed.

Section SerializedPoints.
Context {N : Type} `{JSRuntime N}.

Lemma serialize_points_length (points : list (@point N)) :
  List.length (serialize_points points) = List.length points.
Proof. unfold serialize_points. apply length_map. Qed.

Lemma serialize_points_nth (points : list (@point N)) (i : nat) (p : @point N) :
  nth_error points i = Some p ->
  nth_error (serialize_points points) i
  = Some (Number_toString (fst p) ++ "," ++ Number_toString (snd p))%string.
Proof.
  intros Hp. unfold serialize_points, point in *.
  rewrite nth_error_map, Hp. reflexivity.
Qed.

End SerializedPoints.

Section LocalCommit.
Import RouteManagerLocal.
Context {N : Type} `{JSRuntime N} `{JSONCodec (list Route.t)}.

Lemma local_commit_refused (now : Z) (iso : string) (s : @state N) :
  commit_refused (routeName s) (clickedPoints s) ->
  handleSaveRoute now iso s = setError validation_message s.
Proof.
  intros Hr. unfold handleSaveRoute. now rewrite refused_guard.
Qed.

Lemma local_commit_allowed (now : Z) (iso : string) (s : @state N) :
  commit_allowed (routeName s) (clickedPoints s) ->
  let newRoute :=
    {| Route.id := now; Route.name := routeName s; Route.type := routeType s;
       Route.coordinates := serialize_points (clickedPoints s);
       Route.createdAt := iso |} in
  let s' := handleSaveRoute now iso s in
  routes s' = routes s ++ [newRoute] /\
  storage s' = Some (JSON_stringify (routes s ++ [newRoute])) /\
  clickedPoints s' = [] /\ isDrawing s' = false /\
  routeName s' = EmptyString /\ error s' = EmptyString /\
  alerts s' = alerts s ++ ["Route saved successfully!"%string].
Proof.
  intros Ha. cbv zeta. unfold handleSaveRoute. rewrite allowed_guard by assumption.
  repeat split.
Qed.

End LocalCommit.

Section RemoteCommit.
Import RouteManagerRemote.
Context {N : Type} `{JSRuntime N}.

Lemma remote_commit_refused (iso : string) (posted : post_outcome) (got : get_outcome)
    (s : @state N) :
  commit_refused (routeName s) (clickedPoints s) ->
  handleSaveRoute iso posted got s = setError validation_message s.
Proof.
  intros Hr. unfold handleSaveRoute. now rewrite refused_guard.
Qed.

Lemma remote_commit_allowed (iso : string) (posted : post_outcome) (got : get_outcome)
    (s : @state N) :
  commit_allowed (routeName s) (clickedPoints s) ->
  let data :=
    {| name := routeName s; type := routeType s;
       coordinates := serialize_points (clickedPoints s); createdAt := iso |} in
  let s' := handleSaveRoute iso posted got s in
  requests s' = requests s ++ POST_routes data ::
                  match posted with PostOk => [GET_routes] | PostFailed _ => [] end /\
  routes s' = match posted, got with
              | PostOk, GetOk stored => stored
              | _, _ => routes s
              end.
Proof.
  intros Ha. cbv zeta. unfold handleSaveRoute. rewrite allowed_guard by assumption.
  destruct posted as [|message]; [destruct got|]; cbn;
    rewrite <- ?app_assoc; split; reflexivity.
Qed.

End RemoteCommit.

(** C1. When [handleSaveRoute] is called with an empty route name or with
    fewer than 2 captured points, in either variant of the route manager, the
    catalog, the persistent store (the storage key; the requests sent to the
    service) and the map are left as they were, drawing mode stays as it was
    (so it stays on when it was on), the point buffer is unchanged, and the
    error shown becomes the validation message, which is not empty. *)
Theorem failed_commit_changes_nothing
    (N : Type) (RT : JSRuntime N) (CD : JSONCodec (list Route.t))
    (now : Z) (iso : string) (s : @RouteManagerLocal.state N)
    (posted : RouteManagerRemote.post_outcome) (got : RouteManagerRemote.get_outcome)
    (r : @RouteManagerRemote.state N) :
  commit_refused (RouteManagerLocal.routeName s) (RouteManagerLocal.clickedPoints s) ->
  commit_refused (RouteManagerRemote.routeName r) (RouteManagerRemote.clickedPoints r) ->
  let s' := RouteManagerLocal.handleSaveRoute now iso s in
  let r' := RouteManagerRemote.handleSaveRoute iso posted got r in
  (RouteManagerLocal.routes s' = RouteManagerLocal.routes s /\
   RouteManagerLocal.storage s' = RouteManagerLocal.storage s /\
   RouteManagerLocal.surface s' = RouteManagerLocal.surface s /\
   RouteManagerLocal.isDrawing s' = RouteManagerLocal.isDrawing s /\
   RouteManagerLocal.clickedPoints s' = RouteManagerLocal.clickedPoints s /\
   RouteManagerLocal.error s' = validation_message) /\
  (RouteManagerRemote.routes r' = RouteManagerRemote.routes r /\
   RouteManagerRemote.requests r' = RouteManagerRemote.requests r /\
   RouteManagerRemote.surface r' = RouteManagerRemote.surface r /\
   RouteManagerRemote.isDrawing r' = RouteManagerRemote.isDrawing r /\
   RouteManagerRemote.clickedPoints r' = RouteManagerRemote.clickedPoints r /\
   RouteManagerRemote.error r' = validation_message) /\
  validation_message <> EmptyString.
Proof.
  intros Hs Hr s' r'. subst s' r'.
  rewrite local_commit_refused, remote_commit_refused by assumption.
  repeat split. apply validation_message_shown.
Qed.

Section RouteExamples.
#[local] Existing Instance IntegerRuntime.
#[local] Existing Instance blank_codec.

(** A session with a name and one point, in both variants. *)
Lemma failed_commit_witness :
  let s := local_session "Main St" [(72, 19)%Z] in
  let r := remote_session "Main St" [(72, 19)%Z] in
  let s' := RouteManagerLocal.handleSaveRoute a_clock_reading an_iso_date s in
  let r' := RouteManagerRemote.handleSaveRoute an_iso_date RouteManagerRemote.PostOk
              RouteManagerRemote.GetFailed r in
  (RouteManagerLocal.isDrawing s = true /\
   RouteManagerLocal.isDrawing s' = true /\
   RouteManagerLocal.clickedPoints s' = [(72, 19)%Z] /\
   RouteManagerLocal.routes s' = [] /\
   RouteManagerLocal.error s' = validation_message) /\
  (RouteManagerRemote.isDrawing r' = true /\
   RouteManagerRemote.requests r' = [] /\
   RouteManagerRemote.error r' = validation_message).
Proof.
  cbv zeta.
  pose proof (failed_commit_changes_nothing Z IntegerRuntime (blank_codec Route.t)
                a_clock_reading an_iso_date (local_session "Main St" [(72, 19)%Z])
                RouteManagerRemote.PostOk RouteManagerRemote.GetFailed
                (remote_session "Main St" [(72, 19)%Z])) as W.
  cbv zeta in W.
  destruct W as [[L1 [L2 [L3 [L4 [L5 L6]]]]] [[R1 [R2 [R3 [R4 [R5 R6]]]]] _]].
  - right. cbn. lia.
  - right. cbn. lia.
  - split.
    + rewrite L4, L5, L1, L6. repeat split.
    + rewrite R4, R2, R6. repeat split.
Defined.

End RouteExamples.

(** C5, the claim as stated fails in the remote variant: the component adds
    no entry to its catalog. "Main St" through two points: when the [POST]
    fails the catalog is as it was; when the [POST] succeeds and the reload
    fails, the service holds the route and the catalog is still as it was;
    when both succeed the catalog is the list the service returns, whatever
    it holds (here, nothing). *)
Lemma remote_commit_adds_no_entry :
  let r := remote_session (N := Z) "Main St" [(72, 19)%Z; (73, 18)%Z] in
  let commit := RouteManagerRemote.handleSaveRoute (H := IntegerRuntime) an_iso_date in
  commit_allowed (RouteManagerRemote.routeName r) (RouteManagerRemote.clickedPoints r) /\
  RouteManagerRemote.routes r = [] /\
  RouteManagerRemote.routes
    (commit (RouteManagerRemote.PostFailed None) RouteManagerRemote.GetFailed r) = [] /\
  RouteManagerRemote.routes
    (commit RouteManagerRemote.PostOk RouteManagerRemote.GetFailed r) = [] /\
  RouteManagerRemote.routes
    (commit RouteManagerRemote.PostOk (RouteManagerRemote.GetOk []) r) = [] /\
  RouteManagerRemote.routes
    (commit RouteManagerRemote.PostOk (RouteManagerRemote.GetOk [an_old_route]) r)
  = [an_old_route].
Proof. cbv zeta. split; [split; [discriminate | cbn; lia] | repeat split]. Qed.

(** C5, as amended. Committing a route with a non-empty name and at least 2
    captured points. In the local-storage variant the catalog gains exactly
    one entry, at its end, and the store holds the new catalog; the entry's
    [coordinates] has the length of the point buffer and its i-th element is
    the string ["lng,lat"] of the i-th captured point. The remote variant
    serializes the points the same way and sends exactly one [POST], whose
    body carries that same sequence; it adds no entry itself: its catalog
    afterwards is the list the reload returns when the [POST] and the reload
    both succeed, and is unchanged otherwise. *)
Theorem commit_serializes_points
    (N : Type) (RT : JSRuntime N) (CD : JSONCodec (list Route.t))
    (now : Z) (iso : string) (s : @RouteManagerLocal.state N)
    (posted : RouteManagerRemote.post_outcome) (got : RouteManagerRemote.get_outcome)
    (r : @RouteManagerRemote.state N) :
  commit_allowed (RouteManagerLocal.routeName s) (RouteManagerLocal.clickedPoints s) ->
  commit_allowed (RouteManagerRemote.routeName r) (RouteManagerRemote.clickedPoints r) ->
  let s' := RouteManagerLocal.handleSaveRoute now iso s in
  let r' := RouteManagerRemote.handleSaveRoute iso posted got r in
  (exists newRoute : Route.t,
      RouteManagerLocal.routes s' = RouteManagerLocal.routes s ++ [newRoute] /\
      RouteManagerLocal.storage s'
        = Some (JSON_stringify (RouteManagerLocal.routes s ++ [newRoute])) /\
      List.length (Route.coordinates newRoute)
        = List.length (RouteManagerLocal.clickedPoints s) /\
      forall (i : nat) (p : @point N),
        nth_error (RouteManagerLocal.clickedPoints s) i = Some p ->
        nth_error (Route.coordinates newRoute) i
        = Some (Number_toString (fst p) ++ "," ++ Number_toString (snd p))%string) /\
  (exists data : RouteManagerRemote.routeData,
      RouteManagerRemote.requests r'
        = RouteManagerRemote.requests r ++
          RouteManagerRemote.POST_routes data ::
            match posted with
            | RouteManagerRemote.PostOk => [RouteManagerRemote.GET_routes]
            | RouteManagerRemote.PostFailed _ => []
            end /\
      List.length (RouteManagerRemote.coordinates data)
        = List.length (RouteManagerRemote.clickedPoints r) /\
      (forall (i : nat) (p : @point N),
          nth_error (RouteManagerRemote.clickedPoints r) i = Some p ->
          nth_error (RouteManagerRemote.coordinates data) i
          = Some (Number_toString (fst p) ++ "," ++ Number_toString (snd p))%string) /\
      RouteManagerRemote.routes r'
        = match posted, got with
          | RouteManagerRemote.PostOk, RouteManagerRemote.GetOk stored => stored
          | _, _ => RouteManagerRemote.routes r
          end).
Proof.
  intros Hs Hr s' r'. subst s' r'. split.
  - destruct (local_commit_allowed now iso s Hs) as [Hroutes [Hstore _]].
    eexists. split; [exact Hroutes|]. split; [exact Hstore|].
    cbn [Route.coordinates]. split.
    + apply serialize_points_length.
    + intros i p. apply serialize_points_nth.
  - destruct (remote_commit_allowed iso posted got r Hr) as [Hreq Hroutes].
    eexists. split; [exact Hreq|].
    cbn [RouteManagerRemote.coordinates]. split; [|split].
    + apply serialize_points_length.
    + intros i p. apply serialize_points_nth.
    + exact Hroutes.
Qed.

Section CommitExample.
#[local] Existing Instance IntegerRuntime.
#[local] Existing Instance blank_codec.

(** "Main St" through two points, in both variants; the service answers the
    reload with the route it stored. *)
Lemma commit_serializes_points_witness :
  let s := local_session "Main St" [(72, 19)%Z; (73, 18)%Z] in
  let r := remote_session "Main St" [(72, 19)%Z; (73, 18)%Z] in
  let s' := RouteManagerLocal.handleSaveRoute a_clock_reading an_iso_date s in
  let r' := RouteManagerRemote.handleSaveRoute an_iso_date RouteManagerRemote.PostOk
              (RouteManagerRemote.GetOk [main_street]) r in
  (exists newRoute : Route.t,
      RouteManagerLocal.routes s' = RouteManagerLocal.routes s ++ [newRoute] /\
      RouteManagerLocal.storage s'
        = Some (JSON_stringify (RouteManagerLocal.routes s ++ [newRoute])) /\
      List.length (Route.coordinates newRoute)
        = List.length (RouteManagerLocal.clickedPoints s) /\
      forall (i : nat) (p : @point Z),
        nth_error (RouteManagerLocal.clickedPoints s) i = Some p ->
        nth_error (Route.coordinates newRoute) i
        = Some (Number_toString (fst p) ++ "," ++ Number_toString (snd p))%string) /\
  (exists data : RouteManagerRemote.routeData,
      RouteManagerRemote.requests r'
        = RouteManagerRemote.requests r ++
          [RouteManagerRemote.POST_routes data; RouteManagerRemote.GET_routes] /\
      List.length (RouteManagerRemote.coordinates data)
        = List.length (RouteManagerRemote.clickedPoints r) /\
      (forall (i : nat) (p : @point Z),
          nth_error (RouteManagerRemote.clickedPoints r) i = Some p ->
          nth_error (RouteManagerRemote.coordinates data) i
          = Some (Number_toString (fst p) ++ "," ++ Number_toString (snd p))%string) /\
      RouteManagerRemote.routes r' = [main_street]).
Proof.
  apply (commit_serializes_points Z IntegerRuntime (blank_codec Route.t)
           a_clock_reading an_iso_date
           (local_session "Main St" [(72, 19)%Z; (73, 18)%Z])
           RouteManagerRemote.PostOk (RouteManagerRemote.GetOk [main_street])
           (remote_session "Main St" [(72, 19)%Z; (73, 18)%Z])).
  - split; [discriminate | cbn; lia].
  - split; [discriminate | cbn; lia].
Defined.

(** What the catalog entry of that commit holds. *)
Example main_street_coordinates :
  map Route.coordinates
      (RouteManagerLocal.routes
         (RouteManagerLocal.handleSaveRoute a_clock_reading an_iso_date
            (local_session "Main St" [(72, 19)%Z; (73, 18)%Z])))
  = [["72,19"; "73,18"]]%string.
Proof. reflexivity. Qed.

End CommitExample.

(* ================================================================= *)
(** ** The drawing session *)

Section LocalDrawing.
Import RouteManagerLocal.
Context {N : Type}.

Lemma local_clicks_while_drawing (points : list (@point N)) (s : @state N) :
  isDrawing s = true ->
  let s' := fold_left (fun st p => handleClick p st) points s in
  isDrawing s' = true /\ clickedPoints s' = clickedPoints s ++ points /\
  routes s' = routes s /\ storage s' = storage s.
Proof.
  revert s. induction points as [|p points IH]; intros s Hd; cbn [fold_left].
  - rewrite app_nil_r. auto.
  - assert (Hstep : handleClick p s = setClickedPoints (clickedPoints s ++ [p]) s).
    { unfold handleClick. rewrite Hd. now destruct p. }
    rewrite Hstep.
    destruct (IH (setClickedPoints (clickedPoints s ++ [p]) s) Hd) as [H1 [H2 [H3 H4]]].
    cbn [clickedPoints setClickedPoints routes storage] in H2, H3, H4.
    rewrite <- app_assoc in H2. auto.
Qed.

Lemma local_click_while_idle (p : @point N) (s : @state N) :
  isDrawing s = false -> handleClick p s = s.
Proof. intros Hd. unfold handleClick. now rewrite Hd. Qed.

End LocalDrawing.

Section RemoteDrawing.
Import RouteManagerRemote.
Context {N : Type}.

Lemma remote_clicks_while_drawing (points : list (@point N)) (s : @state N) :
  isDrawing s = true ->
  let s' := fold_left (fun st p => handleClick p st) points s in
  isDrawing s' = true /\ clickedPoints s' = clickedPoints s ++ points /\
  routes s' = routes s /\ requests s' = requests s.
Proof.
  revert s. induction points as [|p points IH]; intros s Hd; cbn [fold_left].
  - rewrite app_nil_r. auto.
  - assert (Hstep : handleClick p s = setClickedPoints (clickedPoints s ++ [p]) s).
    { unfold handleClick. rewrite Hd. now destruct p. }
    rewrite Hstep.
    destruct (IH (setClickedPoints (clickedPoints s ++ [p]) s) Hd) as [H1 [H2 [H3 H4]]].
    cbn [clickedPoints setClickedPoints routes requests] in H2, H3, H4.
    rewrite <- app_assoc in H2. auto.
Qed.

Lemma remote_click_while_idle (p : @point N) (s : @state N) :
  isDrawing s = false -> handleClick p s = s.
Proof. intros Hd. unfold handleClick. now rewrite Hd. Qed.

End RemoteDrawing.

(** C7, the claim refuted on the code: start drawing, click three points,
    cancel. The mode is idle again and the catalog is as it was, but the
    point buffer still holds the three points: it is not empty. *)
Lemma cancel_keeps_the_points :
  let start := RouteManagerLocal.toggleDrawing
                 (RouteManagerLocal.initial (N := Z) None empty_map) in
  let drawn := RouteManagerLocal.handleClick (74, 17)%Z
                 (RouteManagerLocal.handleClick (73, 18)%Z
                    (RouteManagerLocal.handleClick (72, 19)%Z start)) in
  let cancelled := RouteManagerLocal.toggleDrawing drawn in
  RouteManagerLocal.isDrawing start = true /\
  RouteManagerLocal.isDrawing cancelled = false /\
  RouteManagerLocal.routes cancelled = [] /\
  RouteManagerLocal.clickedPoints cancelled = [(72, 19); (73, 18); (74, 17)]%Z /\
  RouteManagerLocal.clickedPoints cancelled <> [].
Proof. cbv zeta. repeat split. discriminate. Qed.

(** C7, as amended. From an idle session: start drawing, capture any points,
    cancel. The mode is idle again and the catalog and the store are
    unchanged; the buffer is not emptied by the cancel, it still holds the
    captured points; clicks are ignored while idle; the next start empties
    the buffer. The same in both variants. *)
Theorem cancel_returns_to_idle
    (N : Type) (points : list (@point N))
    (s : @RouteManagerLocal.state N) (r : @RouteManagerRemote.state N) :
  RouteManagerLocal.isDrawing s = false ->
  RouteManagerRemote.isDrawing r = false ->
  let s1 := fold_left (fun st p => RouteManagerLocal.handleClick p st) points
              (RouteManagerLocal.toggleDrawing s) in
  let s2 := RouteManagerLocal.toggleDrawing s1 in
  let r1 := fold_left (fun st p => RouteManagerRemote.handleClick p st) points
              (RouteManagerRemote.toggleDrawing r) in
  let r2 := RouteManagerRemote.toggleDrawing r1 in
  (RouteManagerLocal.isDrawing s2 = false /\
   RouteManagerLocal.routes s2 = RouteManagerLocal.routes s /\
   RouteManagerLocal.storage s2 = RouteManagerLocal.storage s /\
   RouteManagerLocal.clickedPoints s2 = points /\
   (forall p, RouteManagerLocal.handleClick p s2 = s2) /\
   RouteManagerLocal.clickedPoints (RouteManagerLocal.toggleDrawing s2) = []) /\
  (RouteManagerRemote.isDrawing r2 = false /\
   RouteManagerRemote.routes r2 = RouteManagerRemote.routes r /\
   RouteManagerRemote.requests r2 = RouteManagerRemote.requests r /\
   RouteManagerRemote.clickedPoints r2 = points /\
   (forall p, RouteManagerRemote.handleClick p r2 = r2) /\
   RouteManagerRemote.clickedPoints (RouteManagerRemote.toggleDrawing r2) = []).
Proof.
  intros Hs Hr s1 s2 r1 r2. split.
  - assert (Hstart : RouteManagerLocal.isDrawing (RouteManagerLocal.toggleDrawing s) = true)
      by (unfold RouteManagerLocal.toggleDrawing; rewrite Hs; reflexivity).
    destruct (local_clicks_while_drawing points _ Hstart) as [H1 [H2 [H3 H4]]].
    fold s1 in H1, H2, H3, H4.
    assert (Hidle : RouteManagerLocal.isDrawing s2 = false)
      by (unfold s2, RouteManagerLocal.toggleDrawing; rewrite H1; reflexivity).
    assert (Hs2 : s2 = RouteManagerLocal.setIsDrawing false s1)
      by (unfold s2, RouteManagerLocal.toggleDrawing; rewrite H1; reflexivity).
    repeat split.
    + exact Hidle.
    + rewrite Hs2. cbn. rewrite H3.
      unfold RouteManagerLocal.toggleDrawing. rewrite Hs. reflexivity.
    + rewrite Hs2. cbn. rewrite H4.
      unfold RouteManagerLocal.toggleDrawing. rewrite Hs. reflexivity.
    + rewrite Hs2. cbn. rewrite H2.
      unfold RouteManagerLocal.toggleDrawing. rewrite Hs. reflexivity.
    + intros p. now apply local_click_while_idle.
    + unfold RouteManagerLocal.toggleDrawing at 1. rewrite Hidle. reflexivity.
  - assert (Hstart : RouteManagerRemote.isDrawing (RouteManagerRemote.toggleDrawing r) = true)
      by (unfold RouteManagerRemote.toggleDrawing; rewrite Hr; reflexivity).
    destruct (remote_clicks_while_drawing points _ Hstart) as [H1 [H2 [H3 H4]]].
    fold r1 in H1, H2, H3, H4.
    assert (Hidle : RouteManagerRemote.isDrawing r2 = false)
      by (unfold r2, RouteManagerRemote.toggleDrawing; rewrite H1; reflexivity).
    assert (Hr2 : r2 = RouteManagerRemote.setIsDrawing false r1)
      by (unfold r2, RouteManagerRemote.toggleDrawing; rewrite H1; reflexivity).
    repeat split.
    + exact Hidle.
    + rewrite Hr2. cbn. rewrite H3.
      unfold RouteManagerRemote.toggleDrawing. rewrite Hr. reflexivity.
    + rewrite Hr2. cbn. rewrite H4.
      unfold RouteManagerRemote.toggleDrawing. rewrite Hr. reflexivity.
    + rewrite Hr2. cbn. rewrite H2.
      unfold RouteManagerRemote.toggleDrawing. rewrite Hr. reflexivity.
    + intros p. now apply remote_click_while_idle.
    + unfold RouteManagerRemote.toggleDrawing at 1. rewrite Hidle. reflexivity.
Qed.

(** Three points drawn and cancelled, from the freshly mounted component. *)
Lemma cancel_returns_to_idle_witness :
  let points := [(72, 19); (73, 18); (74, 17)]%Z in
  let s := RouteManagerLocal.initial (N := Z) None empty_map in
  let r := RouteManagerRemote.initial (N := Z) empty_map in
  let s2 := RouteManagerLocal.toggleDrawing
              (fold_left (fun st p => RouteManagerLocal.handleClick p st) points
                 (RouteManagerLocal.toggleDrawing s)) in
  let r2 := RouteManagerRemote.toggleDrawing
              (fold_left (fun st p => RouteManagerRemote.handleClick p st) points
                 (RouteManagerRemote.toggleDrawing r)) in
  (RouteManagerLocal.isDrawing s2 = false /\
   RouteManagerLocal.routes s2 = RouteManagerLocal.routes s /\
   RouteManagerLocal.storage s2 = RouteManagerLocal.storage s /\
   RouteManagerLocal.clickedPoints s2 = points /\
   (forall p, RouteManagerLocal.handleClick p s2 = s2) /\
   RouteManagerLocal.clickedPoints (RouteManagerLocal.toggleDrawing s2) = []) /\
  (RouteManagerRemote.isDrawing r2 = false /\
   RouteManagerRemote.routes r2 = RouteManagerRemote.routes r /\
   RouteManagerRemote.requests r2 = RouteManagerRemote.requests r /\
   RouteManagerRemote.clickedPoints r2 = points /\
   (forall p, RouteManagerRemote.handleClick p r2 = r2) /\
   RouteManagerRemote.clickedPoints (RouteManagerRemote.toggleDrawing r2) = []).
Proof.
  apply (cancel_returns_to_idle Z [(72, 19); (73, 18); (74, 17)]%Z
           (RouteManagerLocal.initial None empty_map)
           (RouteManagerRemote.initial empty_map)); reflexivity.
Defined.

(* ================================================================= *)
(** ** Loading the stored routes *)

(** C10. [loadRoutes] of the local-storage variant never ends in an
    exception, whatever the storage key holds; and when the key is absent,
    or holds the empty string, or holds a text on which [JSON.parse] raises,
    the catalog becomes the empty sequence and nothing else changes: no
    error is shown and no alert is raised. *)
Theorem loadRoutes_never_throws
    (N : Type) (RT : JSRuntime N) (CD : JSONCodec (list Route.t))
    (s : @RouteManagerLocal.state N) :
  exists s' : @RouteManagerLocal.state N,
    RouteManagerLocal.loadRoutes s = Done s' /\
    ((RouteManagerLocal.storage s = None \/
      exists saved : string,
        RouteManagerLocal.storage s = Some saved /\
        (saved = EmptyString \/ JSON_parse saved = None)) ->
     s' = RouteManagerLocal.setRoutes [] s /\
     RouteManagerLocal.routes s' = [] /\
     RouteManagerLocal.error s' = RouteManagerLocal.error s /\
     RouteManagerLocal.alerts s' = RouteManagerLocal.alerts s).
Proof.
  unfold RouteManagerLocal.loadRoutes.
  destruct (RouteManagerLocal.storage s) as [saved|] eqn:Hst.
  - destruct (truthy saved) eqn:Ht.
    + destruct (JSON_parse saved) as [parsed|] eqn:Hp; cbn [try_catch].
      * eexists. split; [reflexivity|].
        intros [Habs | [saved' [Hsaved [Hempty | Hparse]]]].
        -- discriminate Habs.
        -- injection Hsaved as <-. apply truthy_nonempty in Ht. contradiction.
        -- injection Hsaved as <-. congruence.
      * eexists. split; [reflexivity|]. intros _. repeat split.
    + eexists. split; [reflexivity|]. intros _. repeat split.
  - eexists. split; [reflexivity|]. intros _. repeat split.
Qed.

Section LoadExample.
#[local] Existing Instance IntegerRuntime.
#[local] Existing Instance blank_codec.

(** A store that holds text that is not JSON: the catalog comes up empty. *)
Example corrupt_store_loads_empty :
  RouteManagerLocal.loadRoutes
    (RouteManagerLocal.setRoutes [an_old_route]
       (RouteManagerLocal.initial (N := Z) (Some "{oops"%string) empty_map))
  = Done (RouteManagerLocal.initial (Some "{oops"%string) empty_map).
Proof. reflexivity. Qed.

End LoadExample.

(* ================================================================= *)
(** ** Identifiers *)

Lemma fold_max_bounds (ids : list Z) (i : Z) :
  (i <= fold_left Z.max ids i)%Z /\
  (forall j, In j ids -> (j <= fold_left Z.max ids i)%Z) /\
  In (fold_left Z.max ids i) (i :: ids).
Proof.
  revert i. induction ids as [|k ids IH]; intros i; cbn [fold_left].
  - split; [lia|]. split; [intros j []|]. now left.
  - destruct (IH (Z.max i k)) as [H1 [H2 H3]]. split; [lia|]. split.
    + intros j [<- | Hj]; [lia | now apply H2].
    + destruct H3 as [H3 | H3].
      * rewrite <- H3.
        destruct (Z.max_spec i k) as [[_ E] | [_ E]]; rewrite E; cbn; auto.
      * cbn. auto.
Qed.

(** Up to [2 ^ 53] in magnitude an integer is a double. *)
Lemma nearest_double_small (z : Z) : (Z.abs z <= 2 ^ 53)%Z -> nearest_double z = z.
Proof.
  intros Hz. unfold nearest_double.
  destruct (Z.eq_dec (Z.abs z) (2 ^ 53)) as [E | E].
  - rewrite E. destruct z as [|p|p]; [discriminate E | |];
      cbn [Z.abs] in E; injection E as ->; reflexivity.
  - assert (Hlog : (Z.log2 (Z.abs z) < 53)%Z).
    { destruct (Z.eq_dec (Z.abs z) 0) as [E0 | E0]; [rewrite E0; reflexivity|].
      apply Z.log2_lt_pow2; lia. }
    replace (Z.log2 (Z.abs z) - 52 <=? 0)%Z with true; [reflexivity|].
    symmetry. apply Z.leb_le. lia.
Qed.

(** The sum is rounded where doubles stop counting by ones: after
    [2 ^ 53] comes [2 ^ 53 + 2], and [2 ^ 53 + 1] is rounded to [2 ^ 53]. *)
Example nearest_double_rounds :
  map nearest_double [42; 2 ^ 53; 2 ^ 53 + 1; 2 ^ 53 + 2; 2 ^ 53 + 3; - (2 ^ 53) - 1]%Z
  = [42; 2 ^ 53; 2 ^ 53; 2 ^ 53 + 2; 2 ^ 53 + 4; - (2 ^ 53)]%Z.
Proof. reflexivity. Qed.

(** It is the addition of doubles: [x + 1] computed by the primitive
    addition, at small and at large integers [x]. *)
Example nearest_double_is_the_sum_of_doubles :
  map (fun x => Z_of_float (float_of_Z x + 1)%float)
      [41; -7; 2 ^ 53 - 1; 2 ^ 53; 2 ^ 53 + 2; 2 ^ 54 + 4; 2 ^ 60; - (2 ^ 53) - 2]%Z
  = map (fun x => Some (nearest_double (x + 1)))
      [41; -7; 2 ^ 53 - 1; 2 ^ 53; 2 ^ 53 + 2; 2 ^ 54 + 4; 2 ^ 60; - (2 ^ 53) - 2]%Z.
Proof. vm_compute. reflexivity. Qed.

Section BuildingIds.
Import BuildingManager.
Context {N : Type}.

Lemma newId_empty : newId (N := N) [] = 1%Z.
Proof. reflexivity. Qed.

(** On a non-empty catalog [newId] is the double nearest to the largest id
    plus one. *)
Lemma newId_is_nearest (l : list (Building.t N)) :
  l <> [] ->
  exists top : Building.t N,
    In top l /\ newId l = nearest_double (Building.id top + 1) /\
    forall b, In b l -> (Building.id b <= Building.id top)%Z.
Proof.
  intros Hne. destruct l as [|b0 l]; [contradiction|].
  unfold newId. cbn [map].
  destruct (fold_max_bounds (map Building.id l) (Building.id b0)) as [H1 [H2 H3]].
  assert (Hin : In (fold_left Z.max (map Building.id l) (Building.id b0))
                   (map Building.id (b0 :: l))) by exact H3.
  apply in_map_iff in Hin. destruct Hin as [top [Htop Hin]].
  exists top. split; [exact Hin|]. split; [now rewrite Htop|].
  intros b [<- | Hb]; rewrite Htop.
  - exact H1.
  - apply H2. now apply in_map.
Qed.

(** With safe ids it is the largest id plus one. *)
Lemma newId_is_max_plus_one (l : list (Building.t N)) :
  safe_ids l -> l <> [] ->
  exists top : Building.t N,
    In top l /\ newId l = (Building.id top + 1)%Z /\
    forall b, In b l -> (Building.id b <= Building.id top)%Z.
Proof.
  intros Hsafe Hne.
  destruct (newId_is_nearest l Hne) as [top [Hin [E Hmax]]].
  exists top. split; [exact Hin|]. split; [|exact Hmax].
  rewrite E. apply nearest_double_small.
  specialize (Hsafe top Hin). lia.
Qed.

Lemma newId_above (l : list (Building.t N)) (b : Building.t N) :
  safe_ids l -> In b l -> (Building.id b < newId l)%Z.
Proof.
  intros Hsafe Hb.
  destruct (newId_is_max_plus_one l Hsafe) as [top [_ [E Hmax]]].
  - intros ->. contradiction.
  - specialize (Hmax b Hb). lia.
Qed.

Lemma unique_ids_snoc (l : list (Building.t N)) (b : Building.t N) :
  unique_ids l -> (forall b', In b' l -> Building.id b' <> Building.id b) ->
  unique_ids (l ++ [b]).
Proof.
  unfold unique_ids. intros Hl Hfresh.
  rewrite map_app. cbn [map].
  apply NoDup_app; [exact Hl | repeat constructor; intros [] |].
  intros i Hi [<- | []].
  apply in_map_iff in Hi. destruct Hi as [b' [E Hb']].
  now apply (Hfresh b' Hb').
Qed.

End BuildingIds.

(* ================================================================= *)
(** ** Adding a building *)

Section TableLookup.
Import BuildingManager.
Context {N : Type} `{JSNumber N}.

(** A type that names a member every object inherits is not a key of the
    table itself, so the lookup yields the inherited member. *)
Lemma inherited_key_limit (buildingType : string) :
  In buildingType Object_prototype_keys -> maxAqiAllowed buildingType = InheritedMember.
Proof.
  unfold Object_prototype_keys. cbn [In].
  intros Hin.
  repeat (destruct Hin as [<- | Hin]; [reflexivity|]).
  destruct Hin.
Qed.

(** Whatever the type, a ceiling that is a number comes from the table or is
    the default 200. *)
Lemma number_limit_cases (buildingType : string) (n : N) :
  maxAqiAllowed buildingType = NumberLimit n ->
  (exists e, In e buildingAqiLimits /\ fst e = buildingType /\
             n = num_or (num_lit (snd e)) (num_lit 200)) \/
  n = num_lit 200.
Proof.
  unfold maxAqiAllowed.
  destruct (find _ buildingAqiLimits) as [e|] eqn:F.
  - intros [= <-]. left. exists e. apply find_some in F. destruct F as [Hin He].
    apply String.eqb_eq in He. auto.
  - destruct (existsb _ _); [discriminate|]. intros [= <-]. right. reflexivity.
Qed.

End TableLookup.

Section AddingABuilding.
Import BuildingManager.
Context {N : Type} `{JSNumber N} `{JSRuntime N} `{JSONCodec (list (Building.t N))}.

(** The lookup's answer lets the add through. *)
Lemma afterLookup_accepted (render : @state N) (location : @point N) (aqi : N)
    (s : @state N) :
  above aqi (maxAqiAllowed (buildingType render)) = false ->
  exists s' : @state N,
    afterLookup render location (LookupBody (Some aqi)) s = Done s' /\
    buildings s' = buildings s ++ [newBuilding render location] /\
    storage s' = Some (JSON_stringify (buildings s ++ [newBuilding render location])) /\
    surface s' = displayBuilding (newBuilding render location) (surface s) /\
    buildingType s' = EmptyString /\
    alerts s' = alerts s /\ lookups s' = lookups s /\
    selectedBuilding s' = selectedBuilding s.
Proof.
  intros Hok. unfold afterLookup. rewrite Hok.
  eexists. split; [reflexivity|]. repeat split.
Qed.

(** The lookup's answer stops the add: one alert, and nothing else changes. *)
Lemma afterLookup_blocked (render : @state N) (location : @point N)
    (lookup : aqi_lookup N) (s : @state N) :
  lookup = LookupNotOk \/ lookup = LookupBody None \/
  (exists aqi, lookup = LookupBody (Some aqi) /\
               above aqi (maxAqiAllowed (buildingType render)) = true) ->
  exists reason : string,
    afterLookup render location lookup s = Done (alert reason s) /\
    reason <> EmptyString.
Proof.
  intros [-> | [-> | [aqi [-> Hhigh]]]]; unfold afterLookup.
  - eexists. split; [reflexivity | discriminate].
  - eexists. split; [reflexivity | discriminate].
  - rewrite Hhigh. eexists. split; [reflexivity | discriminate].
Qed.

(** The lookup is rejected: the handler ends in an exception, having shown
    nothing and changed nothing. *)
Lemma afterLookup_rejected (render : @state N) (location : @point N) (s : @state N) :
  afterLookup render location LookupRejected s = Raised s.
Proof. reflexivity. Qed.

(** An add that passes validation sends the lookup and goes on with it. *)
Lemma handleAddBuilding_validated (lookup : aqi_lookup N) (s : @state N)
    (location : @point N) :
  clickedLocation s = Some location -> buildingType s <> EmptyString ->
  handleAddBuilding lookup s
  = afterLookup s location lookup (fetchAqi (snd location) (fst location) s).
Proof.
  intros Hloc Htype. unfold handleAddBuilding. rewrite Hloc.
  apply truthy_nonempty in Htype. now rewrite Htype.
Qed.

Lemma handleAddBuilding_not_validated (lookup : aqi_lookup N) (s : @state N) :
  clickedLocation s = None \/ buildingType s = EmptyString ->
  handleAddBuilding lookup s
  = Done (alert "Please select a location and building type" s).
Proof.
  intros Hbad. unfold handleAddBuilding.
  destruct (clickedLocation s) as [location|]; [|reflexivity].
  destruct Hbad as [Hbad | Hbad]; [discriminate|].
  apply truthy_empty in Hbad. now rewrite Hbad.
Qed.

End AddingABuilding.

(** C4, the claim refuted on the code: the route catalog. With a route of
    id 5 in the catalog, a commit at clock reading 1762041600000 gives the
    new route the id 1762041600000, not 6; and on an empty catalog the first
    id is the clock reading too, not a fixed one. *)
Lemma route_id_is_the_clock_reading :
  let s := RouteManagerLocal.setRoutes [an_old_route]
             (local_session "Main St" [(72, 19)%Z; (73, 18)%Z]) in
  let e := local_session "Main St" [(72, 19)%Z; (73, 18)%Z] in
  let commit := RouteManagerLocal.handleSaveRoute
                  (H := IntegerRuntime) (H0 := blank_codec Route.t) in
  map Route.id (RouteManagerLocal.routes (commit a_clock_reading an_iso_date s))
    = [5; 1762041600000]%Z /\
  (1762041600000 <> 5 + 1)%Z /\
  map Route.id (RouteManagerLocal.routes (commit a_clock_reading an_iso_date e))
    = [1762041600000]%Z /\
  map Route.id (RouteManagerLocal.routes (commit (a_clock_reading + 1)%Z an_iso_date e))
    = [1762041600001]%Z.
Proof. cbv zeta. repeat split. discriminate. Qed.

(** C4, as amended. In the building catalog a successful add appends one
    building whose id is 1 when the catalog the handler read is empty, and
    otherwise the largest id of that catalog plus 1, provided the ids of
    that catalog are safe integers (below [2 ^ 53] in magnitude, where
    doubles count exactly); the id is then above every id of that catalog,
    so when the catalog did not change while the lookup was pending, unique
    ids stay unique. (Beyond [2 ^ 53] the sum is rounded and can repeat the
    largest id: [id_repeats_beyond_safe_integers].) In the route catalog of
    the local-storage variant a successful commit appends one route whose id
    is the clock reading [Date.now()]. *)
Theorem building_ids_are_max_plus_one
    (N : Type) (NUM : JSNumber N) (RT : JSRuntime N)
    (CB : JSONCodec (list (Building.t N))) (CR : JSONCodec (list Route.t))
    (render : @BuildingManager.state N) (location : @point N) (aqi : N)
    (s : @BuildingManager.state N)
    (now : Z) (iso : string) (rs : @RouteManagerLocal.state N) :
  BuildingManager.above aqi
    (BuildingManager.maxAqiAllowed (BuildingManager.buildingType render)) = false ->
  commit_allowed (RouteManagerLocal.routeName rs) (RouteManagerLocal.clickedPoints rs) ->
  safe_ids (BuildingManager.buildings render) ->
  let s' := final (BuildingManager.afterLookup render location
                     (LookupBody (Some aqi)) s) in
  let rs' := RouteManagerLocal.handleSaveRoute now iso rs in
  (exists b : Building.t N,
      BuildingManager.buildings s' = BuildingManager.buildings s ++ [b] /\
      (BuildingManager.buildings render = [] -> Building.id b = 1%Z) /\
      (BuildingManager.buildings render <> [] ->
       exists top : Building.t N,
         In top (BuildingManager.buildings render) /\
         (forall b', In b' (BuildingManager.buildings render) ->
                     (Building.id b' <= Building.id top)%Z) /\
         Building.id b = (Building.id top + 1)%Z) /\
      (forall b', In b' (BuildingManager.buildings render) ->
                  (Building.id b' < Building.id b)%Z) /\
      (BuildingManager.buildings s = BuildingManager.buildings render ->
       unique_ids (BuildingManager.buildings s) ->
       unique_ids (BuildingManager.buildings s'))) /\
  (exists newRoute : Route.t,
      RouteManagerLocal.routes rs' = RouteManagerLocal.routes rs ++ [newRoute] /\
      Route.id newRoute = now).
Proof.
  intros Hok Hcommit Hsafe s' rs'. split.
  - destruct (afterLookup_accepted render location aqi s Hok)
      as [s1 [Hdone [Hb _]]].
    subst s'. rewrite Hdone. cbn [final].
    exists (BuildingManager.newBuilding render location).
    split; [exact Hb|].
    cbn [Building.id BuildingManager.newBuilding].
    split; [intros ->; reflexivity|]. split.
    + intros Hne.
      destruct (newId_is_max_plus_one _ Hsafe Hne) as [top [Hin [E Hmax]]].
      exists top. auto.
    + split; [intros b' Hb'; now apply newId_above|].
      intros Hsame Huniq. rewrite Hb. apply unique_ids_snoc; [exact Huniq|].
      intros b' Hb'. rewrite Hsame in Hb'.
      apply (newId_above _ _ Hsafe) in Hb'.
      cbn [Building.id BuildingManager.newBuilding]. lia.
  - destruct (local_commit_allowed now iso rs Hcommit) as [Hroutes _].
    subst rs'. eexists. split; [exact Hroutes | reflexivity].
Qed.

Section IdExample.
#[local] Existing Instance Doubles.
#[local] Existing Instance IntegralRuntime.
#[local] Existing Instance blank_codec.

(** A second park at Jaipur under an air-quality index of 40, the first
    park having the id 1, and a route through two points. *)
Lemma building_ids_witness :
  let render := BuildingManager.setBuildingType "Park" park_added in
  let s := BuildingManager.fetchAqi 26.9124%float 75.7873%float render in
  let rs := local_session "Main St" [(72, 19); (73, 18)]%float in
  let s' := final (BuildingManager.afterLookup render jaipur
                     (LookupBody (Some 40%float)) s) in
  let rs' := RouteManagerLocal.handleSaveRoute a_clock_reading an_iso_date rs in
  (exists b : Building.t float,
      BuildingManager.buildings s' = BuildingManager.buildings s ++ [b] /\
      (BuildingManager.buildings render = [] -> Building.id b = 1%Z) /\
      (BuildingManager.buildings render <> [] ->
       exists top : Building.t float,
         In top (BuildingManager.buildings render) /\
         (forall b', In b' (BuildingManager.buildings render) ->
                     (Building.id b' <= Building.id top)%Z) /\
         Building.id b = (Building.id top + 1)%Z) /\
      (forall b', In b' (BuildingManager.buildings render) ->
                  (Building.id b' < Building.id b)%Z) /\
      (BuildingManager.buildings s = BuildingManager.buildings render ->
       unique_ids (BuildingManager.buildings s) ->
       unique_ids (BuildingManager.buildings s'))) /\
  (exists newRoute : Route.t,
      RouteManagerLocal.routes rs' = RouteManagerLocal.routes rs ++ [newRoute] /\
      Route.id newRoute = a_clock_reading).
Proof.
  apply (building_ids_are_max_plus_one float Doubles IntegralRuntime
           (blank_codec (Building.t float)) (blank_codec Route.t)
           (BuildingManager.setBuildingType "Park" park_added) jaipur 40%float
           (BuildingManager.fetchAqi 26.9124%float 75.7873%float
              (BuildingManager.setBuildingType "Park" park_added))
           a_clock_reading an_iso_date
           (local_session "Main St" [(72, 19); (73, 18)]%float)).
  - reflexivity.
  - split; [discriminate | cbn; lia].
  - intros b [<- | []]. vm_compute. split; reflexivity.
Defined.

(** Two parks added one after the other get the ids 1 and 2. *)
Example two_parks_ids :
  let first := final (BuildingManager.handleAddBuilding (LookupBody (Some 40%float))
                        park_at_jaipur) in
  let second := final (BuildingManager.handleAddBuilding (LookupBody (Some 40%float))
                         (BuildingManager.setBuildingType "Park" first)) in
  map Building.id (BuildingManager.buildings second) = [1; 2]%Z.
Proof. vm_compute. reflexivity. Qed.

(** The add button clicked twice before the first lookup settles: both
    handlers read the same catalog, and both parks get the id 1. *)
Example double_click_gives_one_id_twice :
  map Building.id
      (BuildingManager.buildings
         (BuildingSession.now
            (BuildingSession.run
               [ BuildingSession.ClickAdd; BuildingSession.ClickAdd;
                 BuildingSession.LookupSettles 0 (LookupBody (Some 40%float));
                 BuildingSession.LookupSettles 0 (LookupBody (Some 40%float)) ]
               (BuildingSession.start park_at_jaipur))))
  = [1; 1]%Z.
Proof. vm_compute. reflexivity. Qed.

(** A catalog read from the store whose one building has the id [2 ^ 53]:
    the add computes [2 ^ 53 + 1], which no double holds, and the new
    building gets the id [2 ^ 53] again. *)
Example id_repeats_beyond_safe_integers :
  let stored :=
    {| Building.id := 2 ^ 53; Building.location := Building.location the_park;
       Building.coordinates := Building.coordinates the_park;
       Building.width := Building.width the_park;
       Building.height := Building.height the_park;
       Building.color := Building.color the_park;
       Building.rotation := Building.rotation the_park;
       Building.type := Building.type the_park |} in
  let s := BuildingManager.setBuildings [stored] park_at_jaipur in
  map Building.id
      (BuildingManager.buildings
         (final (BuildingManager.handleAddBuilding (LookupBody (Some 40%float)) s)))
  = [2 ^ 53; 2 ^ 53]%Z.
Proof. vm_compute. reflexivity. Qed.

End IdExample.

(* ================================================================= *)
(** ** The air-quality gate *)

Section AirQualityGate.
Import BuildingManager.
Local Open Scope float_scope.
Variables cos sin : float -> float.
Context `{JSRuntime float} `{JSONCodec (list (Building.t float))}.

#[local] Instance gate_engine : JSNumber float := Binary64 cos sin.

Lemma park_ceiling : maxAqiAllowed "Park" = NumberLimit 50.
Proof. reflexivity. Qed.

Lemma unlisted_ceiling : maxAqiAllowed "Lighthouse" = NumberLimit 200.
Proof. reflexivity. Qed.

Lemma inherited_ceiling : maxAqiAllowed "constructor" = InheritedMember.
Proof. reflexivity. Qed.

(** X27. What the answers the handler checks for do to an add that passed
    validation, the index being undefined or a number. A response that is
    not ok, a body whose index is undefined, and an index above a numeric
    ceiling each end the add with one alert and leave the catalog, the store
    and the map as they were. An index at or below a numeric ceiling lets
    the add through, and the catalog gains exactly one entry; so does any
    index when the type names a member every object inherits (constructor,
    toString, ...), for then the table lookup yields that member, not a
    number, and no index compares above it. *)
Lemma add_gated_by_air_quality (s : @state float) (location : float * float) :
  clickedLocation s = Some location -> buildingType s <> EmptyString ->
  let sent := fetchAqi (snd location) (fst location) s in
  (forall lookup : aqi_lookup float,
      lookup = LookupNotOk \/ lookup = LookupBody None \/
      (exists aqi ceiling : float,
          lookup = LookupBody (Some aqi) /\
          maxAqiAllowed (buildingType s) = NumberLimit ceiling /\
          (ceiling <? aqi) = true) ->
      exists reason : string,
        handleAddBuilding lookup s = Done (alert reason sent) /\
        reason <> EmptyString /\
        buildings (alert reason sent) = buildings s /\
        storage (alert reason sent) = storage s /\
        surface (alert reason sent) = surface s) /\
  (forall aqi : float,
      (exists ceiling : float,
          maxAqiAllowed (buildingType s) = NumberLimit ceiling /\
          (aqi <=? ceiling) = true) \/
      In (buildingType s) Object_prototype_keys ->
      exists s' : @state float,
        handleAddBuilding (LookupBody (Some aqi)) s = Done s' /\
        buildings s' = buildings s ++ [newBuilding s location] /\
        alerts s' = alerts s).
Proof.
  intros Hloc Htype sent. split.
  - intros lookup Hblocked.
    rewrite (handleAddBuilding_validated lookup s location Hloc Htype). fold sent.
    assert (Hb : lookup = LookupNotOk \/ lookup = LookupBody None \/
                 (exists aqi, lookup = LookupBody (Some aqi) /\
                    above aqi (maxAqiAllowed (buildingType s)) = true)).
    { destruct Hblocked as [E | [E | [aqi [ceiling [E [Hc Hgt]]]]]]; auto.
      right. right. exists aqi. split; [exact E|]. rewrite Hc. exact Hgt. }
    destruct (afterLookup_blocked (H := gate_engine) s location lookup sent Hb)
      as [reason [E Hne]].
    exists reason. rewrite E. repeat split. exact Hne.
  - intros aqi Hpass.
    rewrite (handleAddBuilding_validated _ s location Hloc Htype). fold sent.
    assert (Hok : above aqi (maxAqiAllowed (buildingType s)) = false).
    { destruct Hpass as [[ceiling [Hc Hle]] | Hin].
      - rewrite Hc. cbn [above]. apply leb_not_ltb in Hle. exact Hle.
      - rewrite (inherited_key_limit _ Hin). reflexivity. }
    destruct (afterLookup_accepted (H := gate_engine) s location aqi sent Hok)
      as [s' [E [Hb [_ [_ [_ [Ha _]]]]]]].
    exists s'. auto.
Qed.

End AirQualityGate.

Section NoLookupElsewhere.
Import BuildingManager.
Context {N : Type} `{JSNumber N} `{JSRuntime N} `{JSONCodec (list (Building.t N))}.

(** Update and delete send no air-quality request. *)
Lemma update_and_delete_send_no_lookup (s : @state N) (buildingId : Z) :
  lookups (final (handleUpdateBuilding s)) = lookups s /\
  lookups (final (handleDeleteBuilding buildingId s)) = lookups s.
Proof.
  split.
  - unfold handleUpdateBuilding.
    destruct (selectedBuilding s) as [selected|]; [|reflexivity].
    cbv zeta. destruct (storedBuildings _); reflexivity.
  - unfold handleDeleteBuilding.
    destruct (surface s) as [m|]; [|reflexivity].
    cbv zeta. destruct (storedBuildings _); reflexivity.
Qed.

End NoLookupElsewhere.

Section GateExamples.
#[local] Existing Instance Doubles.
#[local] Existing Instance IntegralRuntime.
#[local] Existing Instance blank_codec.

(** A park where the index is 80 is turned down, with the reason shown. *)
Example park_at_80_is_rejected :
  BuildingManager.handleAddBuilding (LookupBody (Some 80%float)) park_at_jaipur
  = Done (BuildingManager.alert "AQI too high for a Park. AQI: 80"
            (BuildingManager.fetchAqi 26.9124%float 75.7873%float park_at_jaipur)).
Proof. vm_compute. reflexivity. Qed.

(** The same park where the index is 40 is accepted, with id 1. *)
Example park_at_40_is_accepted :
  map Building.id
      (BuildingManager.buildings
         (final (BuildingManager.handleAddBuilding (LookupBody (Some 40%float))
                   park_at_jaipur)))
  = [1%Z].
Proof. vm_compute. reflexivity. Qed.

(** C3, the code at the input on which it misses the claim: the lookup
    fails on the network, so [fetch] rejects. The add is given up and the
    catalog is unchanged, but the handler ends in an exception that nothing
    catches, and no alert is shown: no reason is reported. (When the lookup
    answers, the gate is as claimed: see [add_gated_by_air_quality] and
    [update_and_delete_send_no_lookup].) *)
Lemma rejected_lookup_is_not_reported :
  BuildingManager.handleAddBuilding LookupRejected park_at_jaipur
  = Raised (BuildingManager.fetchAqi 26.9124%float 75.7873%float park_at_jaipur) /\
  BuildingManager.alerts
    (final (BuildingManager.handleAddBuilding LookupRejected park_at_jaipur)) = [] /\
  BuildingManager.buildings
    (final (BuildingManager.handleAddBuilding LookupRejected park_at_jaipur)) = [].
Proof. repeat split. Qed.

End GateExamples.

(* ================================================================= *)
(** ** Updating the selected building *)

Section UpdatingABuilding.
Import BuildingManager.
Context {N : Type} `{JSNumber N} `{JSRuntime N} `{JSONCodec (list (Building.t N))}.

(** The catalog after [handleUpdateBuilding], whether or not the store
    could be rewritten. *)
Lemma handleUpdateBuilding_catalog (s : @state N) (selected : Building.t N) :
  selectedBuilding s = Some selected ->
  buildings (final (handleUpdateBuilding s))
  = replaceById selected (updatedBuilding s selected) (buildings s).
Proof.
  intros Hsel. unfold handleUpdateBuilding. rewrite Hsel. cbv zeta.
  destruct (storedBuildings _); reflexivity.
Qed.

Lemma replaceById_others (selected updated : Building.t N) (l : list (Building.t N)) :
  (forall b, In b l -> Building.id b <> Building.id selected) ->
  replaceById selected updated l = l.
Proof.
  intros Hother. unfold replaceById.
  rewrite <- (map_id l) at 2. apply map_ext_in.
  intros b Hb. apply Hother in Hb.
  apply Z.eqb_neq in Hb. now rewrite Hb.
Qed.

Lemma replaceById_split (selected updated : Building.t N)
    (before after : list (Building.t N)) :
  unique_ids (before ++ selected :: after) ->
  replaceById selected updated (before ++ selected :: after)
  = before ++ updated :: after.
Proof.
  unfold unique_ids. rewrite map_app. cbn [map]. intros Hnd.
  apply NoDup_remove_2 in Hnd.
  unfold replaceById. rewrite map_app. cbn [map]. rewrite Z.eqb_refl.
  fold (replaceById selected updated before).
  fold (replaceById selected updated after).
  rewrite !replaceById_others; [reflexivity | |];
    intros b Hb E; apply Hnd; rewrite <- E; apply in_or_app;
    [right | left]; now apply in_map.
Qed.

End UpdatingABuilding.

Section TwinExample.
#[local] Existing Instance Doubles.
#[local] Existing Instance IntegralRuntime.
#[local] Existing Instance blank_codec.


End TwinExample.


(* ================================================================= *)
(** ** The building invariant along a session *)

Section Invariant.
Import BuildingManager BuildingSession.
Context {N : Type} `{JSNumber N} `{JSRuntime N} `{JSONCodec (list (Building.t N))}.

Lemma newBuilding_derived (render : @state N) (location : @point N) :
  coordinates_derived (newBuilding render location).
Proof. reflexivity. Qed.

Lemma updatedBuilding_derived (s : @state N) (selected : Building.t N) :
  coordinates_derived (updatedBuilding s selected).
Proof. reflexivity. Qed.

Lemma afterLookup_derived (render : @state N) (location : @point N)
    (lookup : aqi_lookup N) (s : @state N) :
  catalog_derived s -> catalog_derived (final (afterLookup render location lookup s)).
Proof.
  intros Hs. unfold afterLookup.
  destruct lookup as [| |[aqi|]]; try exact Hs.
  destruct (BuildingManager.above aqi _); [exact Hs|].
  unfold catalog_derived. cbn.
  apply Forall_app. split; [exact Hs|].
  constructor; [apply newBuilding_derived | constructor].
Qed.

Lemma handleUpdateBuilding_derived (s : @state N) :
  catalog_derived s -> catalog_derived (final (handleUpdateBuilding s)).
Proof.
  intros Hs. unfold catalog_derived.
  destruct (selectedBuilding s) as [selected|] eqn:Hsel.
  - rewrite (handleUpdateBuilding_catalog s selected Hsel).
    unfold replaceById. apply Forall_map.
    apply (Forall_impl _ (P := coordinates_derived)); [|exact Hs].
    intros b Hb. destruct (Building.id b =? Building.id selected)%Z;
      [apply updatedBuilding_derived | exact Hb].
  - unfold handleUpdateBuilding. rewrite Hsel. exact Hs.
Qed.

Lemma handleDeleteBuilding_derived (buildingId : Z) (s : @state N) :
  catalog_derived s -> catalog_derived (final (handleDeleteBuilding buildingId s)).
Proof.
  intros Hs. unfold handleDeleteBuilding.
  destruct (surface s) as [m|]; [|exact Hs].
  cbv zeta.
  assert (Hf : Forall coordinates_derived
                 (filter (fun b => negb (Building.id b =? buildingId)%Z) (buildings s))).
  { apply Forall_forall. intros b Hb. apply filter_In in Hb.
    unfold catalog_derived in Hs. rewrite Forall_forall in Hs. now apply Hs. }
  destruct (storedBuildings _); exact Hf.
Qed.

(** A click on the add button followed at once by its lookup settling is
    [handleAddBuilding] run to its end. *)
Lemma click_then_settle (lookup : aqi_lookup N) (w : session) :
  now (step (LookupSettles (List.length (pending w)) lookup) (step ClickAdd w))
  = final (handleAddBuilding lookup (now w)).
Proof.
  assert (Hnone : nth_error (pending w) (List.length (pending w)) = None)
    by (apply nth_error_None; lia).
  unfold handleAddBuilding. cbn [step].
  destruct (clickedLocation (now w)) as [location|].
  - destruct (negb (truthy (buildingType (now w)))).
    + cbn [pending now]. rewrite Hnone. reflexivity.
    + cbn [pending now]. rewrite nth_error_app2, Nat.sub_diag by lia. reflexivity.
  - cbn [pending now]. rewrite Hnone. reflexivity.
Qed.

Lemma step_derived (e : event) (w : session) :
  catalog_derived (now w) -> catalog_derived (now (step e w)).
Proof.
  intros Hw. destruct e; cbn [step now]; try exact Hw.
  - destruct (nth_error (buildings (now w)) i); exact Hw.
  - destruct (clickedLocation (now w)); [|exact Hw].
    destruct (negb (truthy (buildingType (now w)))); exact Hw.
  - destruct (nth_error (pending w) i) as [[render location]|]; [|exact Hw].
    cbn [now]. now apply afterLookup_derived.
  - now apply handleUpdateBuilding_derived.
  - destruct (selectedBuilding (now w)); [|exact Hw].
    cbn [now]. now apply handleDeleteBuilding_derived.
Qed.

End Invariant.

(** C2. Along any session of the building manager (edits of the form, map
    clicks, selections, adds whose lookups settle in any order, updates,
    deletes), started from a catalog in which every record's [coordinates]
    is [getRotatedCoordinates(location, width / 111111, rotation)] of its own
    fields (the empty catalog is one), every record of the catalog still has
    that property: add and update recompute the coordinates from the
    parameters they store. *)
Theorem coordinates_always_derived
    (N : Type) (NUM : JSNumber N) (RT : JSRuntime N)
    (CB : JSONCodec (list (Building.t N)))
    (events : list BuildingSession.event) (w : BuildingSession.session) :
  Forall coordinates_derived (BuildingManager.buildings (BuildingSession.now w)) ->
  Forall coordinates_derived
         (BuildingManager.buildings (BuildingSession.now (BuildingSession.run events w))).
Proof.
  revert w. unfold BuildingSession.run.
  induction events as [|e events IH]; intros w Hw; cbn [fold_left].
  - exact Hw.
  - apply IH. now apply step_derived.
Qed.

Section BuildingExamples.
#[local] Existing Instance Doubles.
#[local] Existing Instance IntegralRuntime.
#[local] Existing Instance blank_codec.

Example park_selected_catalog :
  BuildingManager.buildings park_selected = [the_park] /\
  BuildingManager.selectedBuilding park_selected = Some the_park /\
  BuildingManager.buildingType park_selected = "Park"%string.
Proof. vm_compute. repeat split. Qed.


(** The same session, ended by the update. *)
Lemma coordinates_derived_witness :
  Forall coordinates_derived
         (BuildingManager.buildings
            (BuildingSession.now
               (BuildingSession.run (park_session_events ++ [BuildingSession.ClickUpdate])
                  (BuildingSession.start park_at_jaipur)))).
Proof.
  apply (coordinates_always_derived float Doubles IntegralRuntime
           (blank_codec (Building.t float))
           (park_session_events ++ [BuildingSession.ClickUpdate])
           (BuildingSession.start park_at_jaipur)).
  constructor.
Defined.

(** After it the park is 40 wide and turned by 45 degrees, with id 1. *)
Example updated_park :
  map (fun b => (Building.id b, Building.width b, Building.rotation b))
      (BuildingManager.buildings
         (BuildingSession.now
            (BuildingSession.run (park_session_events ++ [BuildingSession.ClickUpdate])
               (BuildingSession.start park_at_jaipur))))
  = [(1%Z, 40%float, 45%float)].
Proof. vm_compute. reflexivity. Qed.

End BuildingExamples.

(* ================================================================= *)
(** ** Names on the map

    The names are injective in the id, and a building's name is never a
    label's name. *)

Lemma to_int_nonnil (z : Z) :
  Z.to_int z <> Decimal.Pos Decimal.Nil /\ Z.to_int z <> Decimal.Neg Decimal.Nil.
Proof.
  destruct z as [|p|p]; cbn; split; try discriminate; intros E; injection E as E;
    now apply DecimalPos.Unsigned.to_uint_nonnil in E.
Qed.

Lemma int_of_string_of_Z (z : Z) :
  NilZero.int_of_string (string_of_Z z) = Some (Z.to_int z).
Proof. unfold string_of_Z. apply NilZero.isi; apply to_int_nonnil. Qed.

Lemma string_of_Z_inj (a b : Z) : string_of_Z a = string_of_Z b -> a = b.
Proof.
  intros E. apply (f_equal NilZero.int_of_string) in E.
  rewrite !int_of_string_of_Z in E. injection E as E.
  now apply DecimalZ.to_int_inj.
Qed.

Lemma Z_ofString_of_Z (z : Z) : Z_ofString (string_of_Z z) = z.
Proof.
  unfold Z_ofString. rewrite int_of_string_of_Z. apply DecimalZ.of_to.
Qed.

(** No decimal numeral ends in ["-label"]. *)
Lemma uint_of_label (s : string) :
  NilEmpty.uint_of_string (s ++ "-label") = None.
Proof.
  induction s as [|c s IH]; [reflexivity|].
  cbn [append NilEmpty.uint_of_string]. rewrite IH. now destruct c as [[] [] [] [] [] [] [] []].
Qed.

Lemma int_of_label (s : string) :
  NilZero.int_of_string (s ++ "-label") = None.
Proof.
  destruct s as [|c s]; [reflexivity|].
  cbn [append NilZero.int_of_string].
  destruct (Ascii.eqb c "-").
  - unfold NilZero.uint_of_string. destruct s as [|c' s]; [reflexivity|].
    change (String c' s ++ "-label")%string with (String c' (s ++ "-label")).
    cbv iota. change (String c' (s ++ "-label")) with ((String c' s) ++ "-label")%string.
    now rewrite uint_of_label.
  - unfold NilZero.uint_of_string.
    change (String c (s ++ "-label")) with ((String c s) ++ "-label")%string.
    now rewrite uint_of_label.
Qed.

Lemma route_source_inj (a b : Z) : route_source a = route_source b -> a = b.
Proof. unfold route_source. cbn. intros E. injection E as E. now apply string_of_Z_inj. Qed.

Lemma building_source_inj (a b : Z) : building_source a = building_source b -> a = b.
Proof. unfold building_source. cbn. intros E. injection E as E. now apply string_of_Z_inj. Qed.

Lemma string_length_append (a b : string) :
  String.length (a ++ b) = (String.length a + String.length b)%nat.
Proof. induction a as [|c a IH]; cbn; [reflexivity | now rewrite IH]. Qed.

Lemma append_inj_l (s a b : string) : (a ++ s = b ++ s)%string -> a = b.
Proof.
  revert b. induction a as [|c a IH]; intros b E.
  - destruct b as [|d b]; [reflexivity|]. exfalso.
    apply (f_equal String.length) in E. cbn in E.
    rewrite string_length_append in E. lia.
  - destruct b as [|d b].
    + exfalso. apply (f_equal String.length) in E. cbn in E.
      rewrite string_length_append in E. lia.
    + cbn in E. injection E as -> E. f_equal. now apply IH.
Qed.

Lemma building_label_inj (a b : Z) : building_label a = building_label b -> a = b.
Proof. unfold building_label. intros E. apply append_inj_l in E. now apply building_source_inj. Qed.

Lemma building_source_not_label (a b : Z) : building_source a <> building_label b.
Proof.
  unfold building_label, building_source. cbn. intros E. injection E as E.
  apply (f_equal NilZero.int_of_string) in E.
  rewrite int_of_string_of_Z, int_of_label in E. discriminate.
Qed.

(* ================================================================= *)
(** ** Facts about the map surface *)

Lemma filter_absent {A : Type} (p : A -> bool) (l : list A) :
  existsb p l = false -> filter (fun x => negb (p x)) l = l.
Proof.
  induction l as [|a l IH]; cbn; [reflexivity|].
  intros E. apply orb_false_iff in E. destruct E as [Ea El].
  rewrite Ea. cbn. now rewrite IH.
Qed.

Lemma filter_twice {A : Type} (p : A -> bool) (l : list A) :
  filter p (filter p l) = filter p l.
Proof.
  induction l as [|a l IH]; cbn; [reflexivity|].
  destruct (p a) eqn:E; cbn; rewrite ?E, IH; reflexivity.
Qed.

Lemma filter_swap {A : Type} (p q : A -> bool) (l : list A) :
  filter p (filter q l) = filter q (filter p l).
Proof.
  induction l as [|a l IH]; cbn; [reflexivity|].
  destruct (p a) eqn:Ep, (q a) eqn:Eq; cbn; rewrite ?Ep, ?Eq, IH; reflexivity.
Qed.

Lemma filter_opposite {A : Type} (p : A -> bool) (l : list A) :
  filter p (filter (fun x => negb (p x)) l) = [].
Proof.
  induction l as [|a l IH]; cbn; [reflexivity|].
  destruct (p a) eqn:E; cbn; rewrite ?E, IH; reflexivity.
Qed.

Lemma filter_other {A : Type} (p q : A -> bool) (l : list A) :
  (forall a, p a = true -> q a = false) ->
  filter p (filter (fun x => negb (q x)) l) = filter p l.
Proof.
  intros Hpq. induction l as [|a l IH]; cbn; [reflexivity|].
  destruct (q a) eqn:Eq; cbn.
  - destruct (p a) eqn:Ep; [|exact IH]. apply Hpq in Ep. congruence.
  - now rewrite IH.
Qed.

Section SurfaceFacts.
Context {N : Type}.
Implicit Types (m : map_surface N) (id : string).

Lemma surface_eta m : {| sources := sources m; layers := layers m |} = m.
Proof. now destruct m. Qed.

(** The two guards of the erase idiom change nothing: removing what is not
    there is no change. *)
Lemma eraseLayerAndSource_eq id m :
  eraseLayerAndSource id m = removeSource id (removeLayer id m).
Proof.
  unfold eraseLayerAndSource.
  assert (HL : (if getLayer id m then removeLayer id m else m) = removeLayer id m).
  { destruct (getLayer id m) eqn:E; [reflexivity|].
    unfold removeLayer. unfold getLayer in E.
    rewrite (filter_absent _ _ E). now rewrite surface_eta. }
  rewrite HL.
  destruct (getSource id (removeLayer id m)) eqn:E; [reflexivity|].
  unfold removeSource. unfold getSource in E.
  rewrite (filter_absent _ _ E). now rewrite surface_eta.
Qed.

Lemma erase_sources id m :
  sources (eraseLayerAndSource id m)
  = filter (fun e => negb (String.eqb (fst e) id)) (sources m).
Proof. now rewrite eraseLayerAndSource_eq. Qed.

Lemma erase_layers id m :
  layers (eraseLayerAndSource id m)
  = filter (fun l => negb (String.eqb (layer_id l) id)) (layers m).
Proof. now rewrite eraseLayerAndSource_eq. Qed.

Lemma eraseLayerAndSource_twice id m :
  eraseLayerAndSource id (eraseLayerAndSource id m) = eraseLayerAndSource id m.
Proof.
  rewrite !eraseLayerAndSource_eq. unfold removeSource, removeLayer. cbn.
  now rewrite !filter_twice.
Qed.

Lemma eraseLayerAndSource_swap id id' m :
  eraseLayerAndSource id (eraseLayerAndSource id' m)
  = eraseLayerAndSource id' (eraseLayerAndSource id m).
Proof.
  rewrite !eraseLayerAndSource_eq. unfold removeSource, removeLayer. cbn.
  f_equal; apply filter_swap.
Qed.

Lemma sources_named_erase id id' m :
  sources_named id' (eraseLayerAndSource id m)
  = if String.eqb id' id then [] else sources_named id' m.
Proof.
  unfold sources_named. rewrite erase_sources.
  destruct (String.eqb id' id) eqn:E.
  - apply String.eqb_eq in E. subst id'.
    now rewrite (filter_opposite (fun e => String.eqb (fst e) id)).
  - f_equal. apply filter_other. intros a Ha.
    apply String.eqb_eq in Ha. now rewrite Ha.
Qed.

Lemma layers_named_erase id id' m :
  layers_named id' (eraseLayerAndSource id m)
  = if String.eqb id' id then [] else layers_named id' m.
Proof.
  unfold layers_named. rewrite erase_layers.
  destruct (String.eqb id' id) eqn:E.
  - apply String.eqb_eq in E. subst id'.
    now rewrite (filter_opposite (fun l => String.eqb (layer_id l) id)).
  - f_equal. apply filter_other. intros a Ha.
    apply String.eqb_eq in Ha. now rewrite Ha.
Qed.

Lemma sources_named_addSource id id' (d : geojson N) m :
  sources_named id' (addSource id d m)
  = sources_named id' m ++ (if String.eqb id id' then [d] else []).
Proof.
  unfold sources_named, addSource. cbn [sources].
  rewrite filter_app, map_app. cbn. now destruct (String.eqb id id').
Qed.

Lemma layers_named_addLayer id' (l : layer N) m :
  layers_named id' (addLayer l m)
  = layers_named id' m ++ (if String.eqb (layer_id l) id' then [layer_paint l] else []).
Proof.
  unfold layers_named, addLayer. cbn [layers].
  rewrite filter_app, map_app. cbn. now destruct (String.eqb (layer_id l) id').
Qed.

Lemma sources_named_addLayer id' (l : layer N) m :
  sources_named id' (addLayer l m) = sources_named id' m.
Proof. reflexivity. Qed.

Lemma layers_named_addSource id id' (d : geojson N) m :
  layers_named id' (addSource id d m) = layers_named id' m.
Proof. reflexivity. Qed.

Lemma getSource_named id m :
  getSource id m = negb (Nat.eqb (List.length (sources_named id m)) 0).
Proof.
  unfold getSource, sources_named. rewrite length_map.
  induction (sources m) as [|e l IH]; cbn; [reflexivity|].
  destruct (String.eqb (fst e) id); cbn; [reflexivity | exact IH].
Qed.

Lemma getLayer_named id m :
  getLayer id m = negb (Nat.eqb (List.length (layers_named id m)) 0).
Proof.
  unfold getLayer, layers_named. rewrite length_map.
  induction (layers m) as [|e l IH]; cbn; [reflexivity|].
  destruct (String.eqb (layer_id e) id); cbn; [reflexivity | exact IH].
Qed.

End SurfaceFacts.

(* ================================================================= *)
(** ** Displaying a building *)

Section DisplayingABuilding.
Import BuildingManager.
Context {N : Type} `{JSNumber N}.

Lemma displayBuilding_some (b : Building.t N) (m : map_surface N) :
  displayBuilding b (Some m)
  = Some (addLayer {| layer_id := building_label (Building.id b);
                      layer_source := building_label (Building.id b);
                      layer_paint := Symbol |}
           (addSource (building_label (Building.id b)) (label_of b)
             (addLayer {| layer_id := building_source (Building.id b);
                          layer_source := building_source (Building.id b);
                          layer_paint := FillExtrusion (Building.color b) (Building.height b) |}
               (addSource (building_source (Building.id b)) (polygon_of b)
                 (eraseLayerAndSource (building_label (Building.id b))
                   (eraseLayerAndSource (building_source (Building.id b)) m)))))).
Proof. reflexivity. Qed.

Lemma eqb_source_label (k : Z) :
  String.eqb (building_source k) (building_label k) = false.
Proof. apply String.eqb_neq. apply building_source_not_label. Qed.

Lemma eqb_label_source (k : Z) :
  String.eqb (building_label k) (building_source k) = false.
Proof. apply String.eqb_neq. intros E. symmetry in E. revert E. apply building_source_not_label. Qed.

Lemma displayBuilding_sources_named (b : Building.t N) (m : map_surface N) (name : string) :
  match displayBuilding b (Some m) with
  | Some m' =>
      sources_named name m'
      = if String.eqb name (building_source (Building.id b)) then [polygon_of b]
        else if String.eqb name (building_label (Building.id b)) then [label_of b]
        else sources_named name m
  | None => False
  end.
Proof.
  rewrite displayBuilding_some.
  rewrite sources_named_addLayer, sources_named_addSource, sources_named_addLayer,
    sources_named_addSource, !sources_named_erase.
  rewrite (String.eqb_sym (building_label _) name), (String.eqb_sym (building_source _) name).
  destruct (String.eqb name (building_source (Building.id b))) eqn:E1.
  - apply String.eqb_eq in E1. subst name. rewrite eqb_source_label. reflexivity.
  - destruct (String.eqb name (building_label (Building.id b))); [reflexivity|].
    now rewrite !app_nil_r.
Qed.

Lemma displayBuilding_layers_named (b : Building.t N) (m : map_surface N) (name : string) :
  match displayBuilding b (Some m) with
  | Some m' =>
      layers_named name m'
      = if String.eqb name (building_source (Building.id b))
        then [FillExtrusion (Building.color b) (Building.height b)]
        else if String.eqb name (building_label (Building.id b)) then [Symbol]
        else layers_named name m
  | None => False
  end.
Proof.
  rewrite displayBuilding_some.
  rewrite layers_named_addLayer, layers_named_addSource, layers_named_addLayer,
    layers_named_addSource, !layers_named_erase.
  cbn [layer_id layer_paint].
  rewrite (String.eqb_sym (building_label _) name), (String.eqb_sym (building_source _) name).
  destruct (String.eqb name (building_source (Building.id b))) eqn:E1.
  - apply String.eqb_eq in E1. subst name. rewrite eqb_source_label. reflexivity.
  - destruct (String.eqb name (building_label (Building.id b))); [reflexivity|].
    now rewrite !app_nil_r.
Qed.

End DisplayingABuilding.

Section DisplayFacts.
Import BuildingManager.
Context {N : Type} `{JSNumber N}.

Lemma displayBuilding_erases_first (b : Building.t N) (m : map_surface N) :
  displayBuilding b (Some m)
  = Some (addLayer {| layer_id := building_label (Building.id b);
                      layer_source := building_label (Building.id b);
                      layer_paint := Symbol |}
           (addSource (building_label (Building.id b)) (label_of b)
             (addLayer {| layer_id := building_source (Building.id b);
                          layer_source := building_source (Building.id b);
                          layer_paint := FillExtrusion (Building.color b) (Building.height b) |}
               (addSource (building_source (Building.id b)) (polygon_of b)
                 (eraseBuilding (Building.id b) m))))).
Proof. reflexivity. Qed.

Lemma eraseBuilding_twice (k : Z) (m : map_surface N) :
  eraseBuilding k (eraseBuilding k m) = eraseBuilding k m.
Proof.
  unfold eraseBuilding.
  rewrite (eraseLayerAndSource_swap (building_source k) (building_label k)).
  now rewrite !eraseLayerAndSource_twice.
Qed.

(** Erasing a building's two names undoes what displaying it added. *)
Lemma eraseBuilding_displayed (b : Building.t N) (m m' : map_surface N) :
  displayBuilding b (Some m) = Some m' ->
  eraseBuilding (Building.id b) m' = eraseBuilding (Building.id b) m.
Proof.
  rewrite displayBuilding_erases_first. intros E. injection E as <-.
  rewrite <- (eraseBuilding_twice (Building.id b) m) at 2.
  generalize (eraseBuilding (Building.id b) m). intros m0.
  unfold eraseBuilding. rewrite !eraseLayerAndSource_eq.
  unfold removeSource, removeLayer, addLayer, addSource.
  cbn [sources layers]. rewrite <- !app_assoc. cbn [app].
  rewrite !filter_app. cbn [filter fst layer_id].
  rewrite !String.eqb_refl, eqb_label_source. cbn [negb app filter fst layer_id].
  rewrite !String.eqb_refl. cbn [negb]. now rewrite !app_nil_r.
Qed.

Lemma on_map_named (name : string) (m : map_surface N) :
  on_map name m
  = negb (Nat.eqb (List.length (sources_named name m)) 0)
    && negb (Nat.eqb (List.length (layers_named name m)) 0).
Proof. unfold on_map. now rewrite getSource_named, getLayer_named. Qed.

(** [displayBuilding] takes no name off the map. *)
Lemma displayBuilding_keeps (b : Building.t N) (m m' : map_surface N) (name : string) :
  displayBuilding b (Some m) = Some m' ->
  on_map name m = true -> on_map name m' = true.
Proof.
  intros E Hon.
  pose proof (displayBuilding_sources_named b m name) as HS.
  pose proof (displayBuilding_layers_named b m name) as HL.
  rewrite E in HS, HL. rewrite on_map_named in *. rewrite HS, HL.
  destruct (String.eqb name (building_source (Building.id b))); [reflexivity|].
  destruct (String.eqb name (building_label (Building.id b))); [reflexivity | exact Hon].
Qed.

Lemma displayBuilding_puts (b : Building.t N) (m m' : map_surface N) :
  displayBuilding b (Some m) = Some m' ->
  on_map (building_source (Building.id b)) m' = true /\
  on_map (building_label (Building.id b)) m' = true.
Proof.
  intros E. rewrite !on_map_named.
  pose proof (displayBuilding_sources_named b m (building_source (Building.id b))) as HS.
  pose proof (displayBuilding_layers_named b m (building_source (Building.id b))) as HL.
  pose proof (displayBuilding_sources_named b m (building_label (Building.id b))) as HS'.
  pose proof (displayBuilding_layers_named b m (building_label (Building.id b))) as HL'.
  rewrite E in HS, HL, HS', HL'.
  rewrite String.eqb_refl in HS, HL.
  rewrite eqb_label_source, String.eqb_refl in HS', HL'.
  rewrite HS, HL, HS', HL'. split; reflexivity.
Qed.

(** The names of a building with another id are out of reach of
    [eraseBuilding]. *)
Lemma eraseBuilding_other (k k' : Z) (m : map_surface N) :
  k' <> k ->
  sources_named (building_source k') (eraseBuilding k m)
    = sources_named (building_source k') m /\
  layers_named (building_source k') (eraseBuilding k m)
    = layers_named (building_source k') m /\
  sources_named (building_label k') (eraseBuilding k m)
    = sources_named (building_label k') m /\
  layers_named (building_label k') (eraseBuilding k m)
    = layers_named (building_label k') m.
Proof.
  intros Hk. unfold eraseBuilding.
  rewrite !sources_named_erase, !layers_named_erase.
  assert (E1 : String.eqb (building_source k') (building_label k) = false)
    by (apply String.eqb_neq; apply building_source_not_label).
  assert (E2 : String.eqb (building_source k') (building_source k) = false)
    by (apply String.eqb_neq; intros E; now apply building_source_inj in E).
  assert (E3 : String.eqb (building_label k') (building_label k) = false)
    by (apply String.eqb_neq; intros E; now apply building_label_inj in E).
  assert (E4 : String.eqb (building_label k') (building_source k) = false)
    by (apply String.eqb_neq; intros E; symmetry in E; revert E;
        apply building_source_not_label).
  rewrite E1, E2, E3, E4. repeat split.
Qed.

Lemma eraseBuilding_own (k : Z) (m : map_surface N) :
  sources_named (building_source k) (eraseBuilding k m) = [] /\
  layers_named (building_source k) (eraseBuilding k m) = [] /\
  sources_named (building_label k) (eraseBuilding k m) = [] /\
  layers_named (building_label k) (eraseBuilding k m) = [].
Proof.
  unfold eraseBuilding.
  rewrite !sources_named_erase, !layers_named_erase.
  rewrite !String.eqb_refl, eqb_source_label. repeat split.
Qed.

End DisplayFacts.

(** X1. [displayBuilding] does nothing when there is no map. On a map it
    leaves, under the building's name [building-<id>], exactly one source
    (the polygon with the building's height and coordinates) and exactly one
    layer (the extrusion in the building's color and height), and under
    [building-<id>-label] exactly one source (the label point at the centre
    of the ring, with the text [#<id>], a line break and the type) and
    exactly one symbol layer, whatever was there under these two names
    before; every other name of the map keeps its sources and layers. *)
Theorem displayed_building_is_drawn_once
    (N : Type) (NUM : JSNumber N) (b : Building.t N) (m : map_surface N) :
  BuildingManager.displayBuilding b None = None /\
  exists m' : map_surface N,
    BuildingManager.displayBuilding b (Some m) = Some m' /\
    sources_named (building_source (Building.id b)) m' = [polygon_of b] /\
    layers_named (building_source (Building.id b)) m'
      = [FillExtrusion (Building.color b) (Building.height b)] /\
    sources_named (building_label (Building.id b)) m' = [label_of b] /\
    layers_named (building_label (Building.id b)) m' = [Symbol] /\
    forall name : string,
      name <> building_source (Building.id b) ->
      name <> building_label (Building.id b) ->
      sources_named name m' = sources_named name m /\
      layers_named name m' = layers_named name m.
Proof.
  split; [reflexivity|].
  destruct (BuildingManager.displayBuilding b (Some m)) as [m'|] eqn:E;
    [|discriminate E].
  exists m'. split; [reflexivity|].
  assert (HS := fun name => displayBuilding_sources_named b m name).
  assert (HL := fun name => displayBuilding_layers_named b m name).
  rewrite E in HS, HL.
  repeat split.
  - rewrite HS. now rewrite String.eqb_refl.
  - rewrite HL. now rewrite String.eqb_refl.
  - rewrite HS. now rewrite eqb_label_source, String.eqb_refl.
  - rewrite HL. now rewrite eqb_label_source, String.eqb_refl.
  - rewrite HS. apply String.eqb_neq in H, H0. now rewrite H, H0.
  - rewrite HL. apply String.eqb_neq in H, H0. now rewrite H, H0.
Qed.

(** X2. Displaying a building over an earlier display of a building with
    the same id leaves the map exactly as displaying it alone would have:
    the redraw after an update replaces the graphics, it does not pile them
    up (and [displayBuilding] is idempotent: take the same building twice).
    Erasing the building's graphics first, as [handleDeleteBuilding] does,
    changes nothing either. *)
Theorem last_display_wins
    (N : Type) (NUM : JSNumber N) (old new : Building.t N)
    (map : option (map_surface N)) :
  Building.id old = Building.id new ->
  BuildingManager.displayBuilding new (BuildingManager.displayBuilding old map)
  = BuildingManager.displayBuilding new map /\
  BuildingManager.displayBuilding new
    (option_map (eraseBuilding (Building.id new)) map)
  = BuildingManager.displayBuilding new map.
Proof.
  intros Hid. destruct map as [m|]; [|split; reflexivity]. split.
  - destruct (BuildingManager.displayBuilding old (Some m)) as [m1|] eqn:E;
      [|discriminate E].
    apply eraseBuilding_displayed in E. rewrite Hid in E.
    now rewrite !displayBuilding_erases_first, E.
  - cbn [option_map]. now rewrite !displayBuilding_erases_first, eraseBuilding_twice.
Qed.

(* ================================================================= *)
(** ** Deleting and updating a building *)

Section DeletingABuilding.
Import BuildingManager.
Context {N : Type} `{JSNumber N} `{JSRuntime N} `{JSONCodec (list (Building.t N))}.

Lemma handleDeleteBuilding_no_map (k : Z) (s : @state N) :
  surface s = None ->
  handleDeleteBuilding k s
  = Done (alert "Failed to delete building. Please try again." s).
Proof. intros Hm. unfold handleDeleteBuilding. now rewrite Hm. Qed.

Lemma handleDeleteBuilding_on_map (k : Z) (s : @state N) (m : map_surface N) :
  surface s = Some m ->
  let cleared :=
    setSelectedBuilding None
      (setBuildings (filter (fun b => negb (Building.id b =? k)%Z) (buildings s))
         (setSurface (Some (eraseBuilding k m)) s)) in
  handleDeleteBuilding k s
  = match storedBuildings s with
    | Some stored =>
        Done (setItem (JSON_stringify (filter (fun b => negb (Building.id b =? k)%Z) stored))
                cleared)
    | None => Done (alert "Failed to delete building. Please try again." cleared)
    end.
Proof.
  intros Hm. cbv zeta. unfold handleDeleteBuilding. rewrite Hm. cbv zeta.
  unfold storedBuildings. cbn [storage setSelectedBuilding setBuildings setSurface].
  destruct (storage s) as [text|]; [|reflexivity].
  destruct (JSON_parse text); reflexivity.
Qed.

Lemma filter_by_id_In (k : Z) (l : list (Building.t N)) (b : Building.t N) :
  In b (filter (fun b => negb (Building.id b =? k)%Z) l)
  <-> In b l /\ Building.id b <> k.
Proof.
  rewrite filter_In, negb_true_iff, Z.eqb_neq. reflexivity.
Qed.

Lemma map_id_filter (k : Z) (l : list (Building.t N)) :
  map Building.id (filter (fun b => negb (Building.id b =? k)%Z) l)
  = filter (fun i => negb (i =? k)%Z) (map Building.id l).
Proof. symmetry. apply filter_map_swap. Qed.

Lemma map_id_replaceById (selected updated : Building.t N) (l : list (Building.t N)) :
  Building.id updated = Building.id selected ->
  map Building.id (replaceById selected updated l) = map Building.id l.
Proof.
  intros Hid. unfold replaceById. rewrite map_map. apply map_ext.
  intros b. destruct (Building.id b =? Building.id selected)%Z eqn:E; [|reflexivity].
  apply Z.eqb_eq in E. congruence.
Qed.

Lemma handleUpdateBuilding_surface (s : @state N) (selected : Building.t N) :
  selectedBuilding s = Some selected ->
  surface (final (handleUpdateBuilding s))
  = displayBuilding (updatedBuilding s selected) (surface s).
Proof.
  intros Hsel. unfold handleUpdateBuilding. rewrite Hsel. cbv zeta.
  destruct (storedBuildings _); reflexivity.
Qed.

Lemma handleUpdateBuilding_idle (s : @state N) :
  selectedBuilding s = None -> handleUpdateBuilding s = Done s.
Proof. intros Hsel. unfold handleUpdateBuilding. now rewrite Hsel. Qed.

Lemma handleDeleteBuilding_effects (k : Z) (s : @state N) (m : map_surface N) :
  surface s = Some m ->
  let s' := final (handleDeleteBuilding k s) in
  buildings s' = filter (fun b => negb (Building.id b =? k)%Z) (buildings s) /\
  selectedBuilding s' = None /\
  surface s' = Some (eraseBuilding k m).
Proof.
  intros Hm. cbv zeta. rewrite (handleDeleteBuilding_on_map k s m Hm).
  destruct (storedBuildings s); repeat split.
Qed.

End DeletingABuilding.

(** X3. [handleDeleteBuilding]. Without a map (the [map] prop is null) the
    handler's [catch] shows the alert and nothing else changes: the building
    stays in the catalog. With a map: the catalog loses exactly the entries
    with the given id (it is unchanged when there is none), the selection is
    cleared, and the names [building-<id>] and [building-<id>-label] are off
    the map; the store is rewritten as the stored list without that id when
    the stored text parses, and when it does not, the store is left as it
    was and the alert is shown, catalog and map having changed already. *)
Theorem delete_building_outcomes
    (N : Type) (NUM : JSNumber N) (RT : JSRuntime N)
    (CB : JSONCodec (list (Building.t N)))
    (k : Z) (s : @BuildingManager.state N) :
  let s' := final (BuildingManager.handleDeleteBuilding k s) in
  (BuildingManager.surface s = None ->
   BuildingManager.handleDeleteBuilding k s
   = Done (BuildingManager.alert "Failed to delete building. Please try again." s)) /\
  (forall m : map_surface N,
      BuildingManager.surface s = Some m ->
      (forall b, In b (BuildingManager.buildings s')
                 <-> In b (BuildingManager.buildings s) /\ Building.id b <> k) /\
      ((forall b, In b (BuildingManager.buildings s) -> Building.id b <> k) ->
       BuildingManager.buildings s' = BuildingManager.buildings s) /\
      BuildingManager.selectedBuilding s' = None /\
      BuildingManager.surface s' = Some (eraseBuilding k m) /\
      on_map (building_source k) (eraseBuilding k m) = false /\
      on_map (building_label k) (eraseBuilding k m) = false /\
      (forall stored,
          BuildingManager.storedBuildings s = Some stored ->
          BuildingManager.storage s'
          = Some (JSON_stringify
                    (filter (fun b => negb (Building.id b =? k)%Z) stored)) /\
          BuildingManager.alerts s' = BuildingManager.alerts s) /\
      (BuildingManager.storedBuildings s = None ->
       BuildingManager.storage s' = BuildingManager.storage s /\
       BuildingManager.alerts s'
       = BuildingManager.alerts s ++ ["Failed to delete building. Please try again."%string])).
Proof.
  intros s'. split; [apply handleDeleteBuilding_no_map|].
  intros m Hm.
  destruct (handleDeleteBuilding_effects k s m Hm) as [Hb [Hsel Hsurf]].
  fold s' in Hb, Hsel, Hsurf.
  destruct (eraseBuilding_own (N := N) k m) as [E1 [_ [E3 _]]].
  split; [|split; [|split; [|split; [|split; [|split; [|split]]]]]].
  - intros b. rewrite Hb. apply filter_by_id_In.
  - intros Hnone. rewrite Hb. apply forallb_filter_id. apply forallb_forall.
    intros b Hin. apply negb_true_iff, Z.eqb_neq. now apply Hnone.
  - exact Hsel.
  - exact Hsurf.
  - rewrite on_map_named, E1. reflexivity.
  - rewrite on_map_named, E3. reflexivity.
  - intros stored Hst. subst s'.
    rewrite (handleDeleteBuilding_on_map k s m Hm), Hst. split; reflexivity.
  - intros Hst. subst s'.
    rewrite (handleDeleteBuilding_on_map k s m Hm), Hst. split; reflexivity.
Qed.

Section OtherBuildings.
Import BuildingManager.
Context {N : Type} `{JSNumber N}.

Lemma eraseBuilding_graphics (k k' : Z) (m : map_surface N) :
  k' <> k -> building_graphics k' (eraseBuilding k m) = building_graphics k' m.
Proof.
  intros Hk. unfold building_graphics.
  destruct (eraseBuilding_other k k' m Hk) as [E1 [E2 [E3 E4]]].
  now rewrite E1, E2, E3, E4.
Qed.

Lemma displayBuilding_graphics (b : Building.t N) (k' : Z) (m : map_surface N) :
  k' <> Building.id b ->
  option_map (building_graphics k') (displayBuilding b (Some m))
  = Some (building_graphics k' m).
Proof.
  intros Hk.
  assert (HS := fun name => displayBuilding_sources_named b m name).
  assert (HL := fun name => displayBuilding_layers_named b m name).
  destruct (displayBuilding b (Some m)) as [m'|]; [|destruct (HS EmptyString)].
  cbn [option_map]. unfold building_graphics. rewrite !HS, !HL.
  assert (E1 : String.eqb (building_source k') (building_label (Building.id b)) = false)
    by (apply String.eqb_neq; apply building_source_not_label).
  assert (E2 : String.eqb (building_source k') (building_source (Building.id b)) = false)
    by (apply String.eqb_neq; intros E; now apply building_source_inj in E).
  assert (E3 : String.eqb (building_label k') (building_label (Building.id b)) = false)
    by (apply String.eqb_neq; intros E; now apply building_label_inj in E).
  assert (E4 : String.eqb (building_label k') (building_source (Building.id b)) = false)
    by (apply String.eqb_neq; intros E; symmetry in E; revert E;
        apply building_source_not_label).
  now rewrite E1, E2, E3, E4.
Qed.

End OtherBuildings.

(** X4. What the map holds for a building of another id is out of reach:
    displaying a building, deleting it, updating it when it is the
    selection, or adding a building whose new id is another one, leaves the
    sources and layers named [building-<k>] and [building-<k>-label] of every
    other id [k] as they were. (The names are injective in the id, and no
    [building-<id>] is a [building-<k>-label].) *)
Theorem other_buildings_keep_their_graphics
    (N : Type) (NUM : JSNumber N) (RT : JSRuntime N)
    (CB : JSONCodec (list (Building.t N)))
    (b : Building.t N) (k : Z) (s : @BuildingManager.state N) (m : map_surface N) :
  k <> Building.id b ->
  BuildingManager.surface s = Some m ->
  option_map (building_graphics k) (BuildingManager.displayBuilding b (Some m))
  = Some (building_graphics k m) /\
  option_map (building_graphics k)
    (BuildingManager.surface
       (final (BuildingManager.handleDeleteBuilding (Building.id b) s)))
  = Some (building_graphics k m) /\
  (BuildingManager.selectedBuilding s = Some b ->
   option_map (building_graphics k)
     (BuildingManager.surface (final (BuildingManager.handleUpdateBuilding s)))
   = Some (building_graphics k m)) /\
  (forall (location : @point N) (lookup : aqi_lookup N),
      BuildingManager.newId (BuildingManager.buildings s) <> k ->
      option_map (building_graphics k)
        (BuildingManager.surface
           (final (BuildingManager.afterLookup s location lookup s)))
      = Some (building_graphics k m)).
Proof.
  intros Hk Hm. split; [|split; [|split]].
  - now apply displayBuilding_graphics.
  - destruct (handleDeleteBuilding_effects (Building.id b) s m Hm) as [_ [_ Hs]].
    rewrite Hs. cbn [option_map]. f_equal. now apply eraseBuilding_graphics.
  - intros Hsel. rewrite (handleUpdateBuilding_surface s b Hsel), Hm.
    now apply displayBuilding_graphics.
  - intros location lookup Hnew. unfold BuildingManager.afterLookup.
    destruct lookup as [| |[aqi|]]; cbn [final BuildingManager.surface BuildingManager.alert];
      try (rewrite Hm; reflexivity).
    destruct (BuildingManager.above aqi _); cbn [final BuildingManager.surface BuildingManager.alert];
      [rewrite Hm; reflexivity|].
    cbn [BuildingManager.surface BuildingManager.setSurface
         BuildingManager.setBuildingType BuildingManager.setItem
         BuildingManager.setBuildings].
    rewrite Hm. apply displayBuilding_graphics. cbn. congruence.
Qed.

(** X5. [handleUpdateBuilding] with a selection always returns normally,
    with the catalog mapped through the replacement and the updated building
    redrawn. When the stored text parses, the store is rewritten from the
    stored list, the selection is cleared, the type field is emptied and no
    alert is shown; when it does not parse, the [catch] shows the alert: the
    store keeps its text, the selection and the type field stay, and the
    catalog and the map have changed already. *)
Theorem update_outcomes
    (N : Type) (NUM : JSNumber N) (RT : JSRuntime N)
    (CB : JSONCodec (list (Building.t N)))
    (s : @BuildingManager.state N) (selected : Building.t N) :
  BuildingManager.selectedBuilding s = Some selected ->
  let updated := BuildingManager.updatedBuilding s selected in
  exists s' : @BuildingManager.state N,
    BuildingManager.handleUpdateBuilding s = Done s' /\
    BuildingManager.buildings s'
    = BuildingManager.replaceById selected updated (BuildingManager.buildings s) /\
    BuildingManager.surface s'
    = BuildingManager.displayBuilding updated (BuildingManager.surface s) /\
    match BuildingManager.storedBuildings s with
    | Some stored =>
        BuildingManager.storage s'
        = Some (JSON_stringify (BuildingManager.replaceById selected updated stored)) /\
        BuildingManager.selectedBuilding s' = None /\
        BuildingManager.buildingType s' = EmptyString /\
        BuildingManager.alerts s' = BuildingManager.alerts s
    | None =>
        BuildingManager.storage s' = BuildingManager.storage s /\
        BuildingManager.selectedBuilding s' = Some selected /\
        BuildingManager.buildingType s' = BuildingManager.buildingType s /\
        BuildingManager.alerts s'
        = BuildingManager.alerts s ++ ["Failed to update building. Please try again."%string]
    end.
Proof.
  intros Hsel updated. subst updated.
  unfold BuildingManager.handleUpdateBuilding. rewrite Hsel. cbv zeta.
  unfold BuildingManager.storedBuildings.
  cbn [BuildingManager.storage BuildingManager.setSurface BuildingManager.setBuildings].
  destruct (BuildingManager.storage s) as [text|] eqn:Hst.
  - destruct (JSON_parse text) as [stored|]; cbn [try_catch];
      eexists; (split; [reflexivity|]); cbn; rewrite ?Hst, ?Hsel; repeat split.
  - cbn [try_catch]. eexists. split; [reflexivity|]. cbn. repeat split.
Qed.

(* ================================================================= *)
(** ** Invariants of a session of the building manager *)

Section SessionInvariants.
Import BuildingManager BuildingSession.
Context {N : Type} `{JSNumber N} `{JSRuntime N} `{JSONCodec (list (Building.t N))}.

(** *** Every building of the catalog is on the map *)

Lemma afterLookup_drawn (render : @state N) (location : @point N)
    (lookup : aqi_lookup N) (s : @state N) :
  catalog_drawn s -> catalog_drawn (final (afterLookup render location lookup s)).
Proof.
  intros Hs. unfold afterLookup.
  destruct lookup as [| |[aqi|]]; try exact Hs.
  destruct (BuildingManager.above aqi _); [exact Hs|].
  cbv zeta. cbn [final]. intros m b Hm Hb.
  cbn [surface buildings setSurface setBuildingType setItem setBuildings] in Hm, Hb.
  destruct (surface s) as [m0|] eqn:Hm0; [|discriminate Hm].
  apply in_app_or in Hb. destruct Hb as [Hb | [<- | []]].
  - destruct (Hs m0 b Hm0 Hb) as [H2 H3].
    split; now apply (displayBuilding_keeps _ _ _ _ Hm).
  - now apply (displayBuilding_puts _ _ _ Hm).
Qed.

Lemma handleUpdateBuilding_drawn (s : @state N) :
  catalog_drawn s -> catalog_drawn (final (handleUpdateBuilding s)).
Proof.
  intros Hs. destruct (selectedBuilding s) as [selected|] eqn:Hsel.
  - intros m b Hm Hb.
    rewrite (handleUpdateBuilding_surface s selected Hsel) in Hm.
    rewrite (handleUpdateBuilding_catalog s selected Hsel) in Hb.
    destruct (surface s) as [m0|] eqn:Hm0; [|discriminate Hm].
    unfold replaceById in Hb. apply in_map_iff in Hb.
    destruct Hb as [b0 [Hb0 Hin]].
    destruct (Building.id b0 =? Building.id selected)%Z.
    + subst b. now apply (displayBuilding_puts _ _ _ Hm).
    + subst b0. destruct (Hs m0 b Hm0 Hin) as [H2 H3].
      split; now apply (displayBuilding_keeps _ _ _ _ Hm).
  - now rewrite (handleUpdateBuilding_idle s Hsel).
Qed.

Lemma handleDeleteBuilding_drawn (k : Z) (s : @state N) :
  catalog_drawn s -> catalog_drawn (final (handleDeleteBuilding k s)).
Proof.
  intros Hs. destruct (surface s) as [m0|] eqn:Hm0.
  - destruct (handleDeleteBuilding_effects k s m0 Hm0) as [Hb [_ Hsurf]].
    intros m b Hm Hin. rewrite Hsurf in Hm. injection Hm as <-.
    rewrite Hb in Hin. apply filter_by_id_In in Hin. destruct Hin as [Hin Hk].
    destruct (Hs m0 b Hm0 Hin) as [H2 H3].
    destruct (eraseBuilding_other k (Building.id b) m0 Hk) as [E1 [E2 [E3 E4]]].
    rewrite !on_map_named in *. now rewrite E1, E2, E3, E4.
  - rewrite (handleDeleteBuilding_no_map k s Hm0). exact Hs.
Qed.

Lemma step_drawn (e : event) (w : session) :
  catalog_drawn (now w) -> catalog_drawn (now (step e w)).
Proof.
  intros Hw. destruct e; cbn [step now]; try exact Hw.
  - destruct (nth_error (buildings (now w)) i); exact Hw.
  - destruct (clickedLocation (now w)); [|exact Hw].
    destruct (negb (truthy (buildingType (now w)))); exact Hw.
  - destruct (nth_error (pending w) i) as [[render location]|]; [|exact Hw].
    cbn [now]. now apply afterLookup_drawn.
  - now apply handleUpdateBuilding_drawn.
  - destruct (selectedBuilding (now w)); [|exact Hw].
    cbn [now]. now apply handleDeleteBuilding_drawn.
Qed.

(** *** The selection is a building of the catalog *)

Lemma afterLookup_selection (render : @state N) (location : @point N)
    (lookup : aqi_lookup N) (s : @state N) :
  selection_in_catalog s ->
  selection_in_catalog (final (afterLookup render location lookup s)).
Proof.
  intros Hs. unfold afterLookup.
  destruct lookup as [| |[aqi|]]; try exact Hs.
  destruct (BuildingManager.above aqi _); [exact Hs|].
  cbv zeta. cbn [final]. intros selected Hsel.
  destruct (Hs selected Hsel) as [b [Hin Hb]].
  exists b. split; [|exact Hb]. cbn. apply in_or_app. now left.
Qed.

Lemma handleUpdateBuilding_selection (s : @state N) :
  selection_in_catalog s -> selection_in_catalog (final (handleUpdateBuilding s)).
Proof.
  intros Hs. destruct (selectedBuilding s) as [selected|] eqn:Hsel.
  - intros selected' Hsel'.
    assert (Hsame : selected' = selected).
    { revert Hsel'. unfold handleUpdateBuilding. rewrite Hsel. cbv zeta.
      destruct (storedBuildings _); cbn; congruence. }
    subst selected'.
    destruct (Hs selected Hsel) as [b [Hin [Hid Hloc]]].
    exists (updatedBuilding s selected).
    rewrite (handleUpdateBuilding_catalog s selected Hsel).
    split; [|split; reflexivity].
    unfold replaceById. apply in_map_iff. exists b. split; [|exact Hin].
    apply Z.eqb_eq in Hid. now rewrite Hid.
  - now rewrite (handleUpdateBuilding_idle s Hsel).
Qed.

Lemma handleDeleteBuilding_selection (k : Z) (s : @state N) :
  selection_in_catalog s -> selection_in_catalog (final (handleDeleteBuilding k s)).
Proof.
  intros Hs. destruct (surface s) as [m0|] eqn:Hm0.
  - destruct (handleDeleteBuilding_effects k s m0 Hm0) as [_ [Hsel _]].
    intros selected Hsel'. rewrite Hsel in Hsel'. discriminate.
  - rewrite (handleDeleteBuilding_no_map k s Hm0). exact Hs.
Qed.

Lemma step_selection (e : event) (w : session) :
  selection_in_catalog (now w) -> selection_in_catalog (now (step e w)).
Proof.
  intros Hw. destruct e; cbn [step now]; try exact Hw.
  - destruct (nth_error (buildings (now w)) i) as [building|] eqn:Hi; [|exact Hw].
    cbn [now]. intros selected Hsel. cbn in Hsel. injection Hsel as <-.
    exists building. split; [|split; reflexivity].
    cbn. now apply nth_error_In in Hi.
  - destruct (clickedLocation (now w)); [|exact Hw].
    destruct (negb (truthy (buildingType (now w)))); exact Hw.
  - destruct (nth_error (pending w) i) as [[render location]|]; [|exact Hw].
    cbn [now]. now apply afterLookup_selection.
  - now apply handleUpdateBuilding_selection.
  - destruct (selectedBuilding (now w)); [|exact Hw].
    cbn [now]. now apply handleDeleteBuilding_selection.
Qed.

End SessionInvariants.

(** X6. Along any session of the building manager (form edits, map
    clicks, selections, adds whose lookups settle in any order, updates,
    deletes), if every building of the catalog has its polygon and its label
    on the map (a source and a layer under each of its two names), then this
    still holds at the end. The empty catalog is such a start. *)
Theorem catalog_stays_drawn
    (N : Type) (NUM : JSNumber N) (RT : JSRuntime N)
    (CB : JSONCodec (list (Building.t N)))
    (events : list BuildingSession.event) (w : BuildingSession.session) :
  catalog_drawn (BuildingSession.now w) ->
  catalog_drawn (BuildingSession.now (BuildingSession.run events w)).
Proof.
  revert w. unfold BuildingSession.run.
  induction events as [|e events IH]; intros w Hw; cbn [fold_left].
  - exact Hw.
  - apply IH. now apply step_drawn.
Qed.

(** X7. Along any session, the selected building (when there is one) has
    an entry in the catalog with its id and its anchor: Update and Delete
    never act on a building that is gone, also after an update whose store
    rewrite failed and left the selection in place. *)
Theorem selection_stays_in_catalog
    (N : Type) (NUM : JSNumber N) (RT : JSRuntime N)
    (CB : JSONCodec (list (Building.t N)))
    (events : list BuildingSession.event) (w : BuildingSession.session) :
  selection_in_catalog (BuildingSession.now w) ->
  selection_in_catalog (BuildingSession.now (BuildingSession.run events w)).
Proof.
  revert w. unfold BuildingSession.run.
  induction events as [|e events IH]; intros w Hw; cbn [fold_left].
  - exact Hw.
  - apply IH. now apply step_selection.
Qed.

Section OneAddInFlight.
Import BuildingManager BuildingSession.
Context {N : Type} `{JSNumber N} `{JSRuntime N} `{JSONCodec (list (Building.t N))}.

Lemma ids_leave_room_ids (n : nat) (l : list (Building.t N)) :
  ids_leave_room n l <->
  (Z.of_nat n < 2 ^ 53)%Z /\
  forall i, In i (map Building.id l) -> (- 2 ^ 53 < i /\ i + Z.of_nat n < 2 ^ 53)%Z.
Proof.
  unfold ids_leave_room. split; intros [Hn Hl]; (split; [exact Hn|]).
  - intros i Hi. apply in_map_iff in Hi. destruct Hi as [b [<- Hb]]. now apply Hl.
  - intros b Hb. apply Hl. now apply in_map.
Qed.

Lemma ids_leave_room_less (n : nat) (l : list (Building.t N)) :
  ids_leave_room (S n) l -> ids_leave_room n l.
Proof.
  intros [Hn Hl]. split; [lia|]. intros b Hb. specialize (Hl b Hb). lia.
Qed.

Lemma ids_leave_room_safe (n : nat) (l : list (Building.t N)) :
  ids_leave_room n l -> safe_ids l.
Proof. intros [Hn Hl] b Hb. specialize (Hl b Hb). lia. Qed.

Lemma ids_leave_room_incl (n : nat) (l l' : list (Building.t N)) :
  incl (map Building.id l') (map Building.id l) ->
  ids_leave_room n l -> ids_leave_room n l'.
Proof.
  intros Hincl Hl. apply ids_leave_room_ids. apply ids_leave_room_ids in Hl.
  destruct Hl as [Hn Hl]. split; [exact Hn|]. intros i Hi. apply Hl. now apply Hincl.
Qed.

Lemma newId_leaves_room (n : nat) (l : list (Building.t N)) :
  ids_leave_room (S n) l -> (- 2 ^ 53 < newId l /\ newId l + Z.of_nat n < 2 ^ 53)%Z.
Proof.
  intros Hl. destruct l as [|b0 l].
  - destruct Hl as [Hn _]. rewrite newId_empty. lia.
  - destruct (newId_is_max_plus_one (b0 :: l)) as [top [Hin [E _]]].
    + now apply (ids_leave_room_safe (S n)).
    + discriminate.
    + destruct Hl as [_ Hl]. specialize (Hl top Hin). lia.
Qed.

Lemma afterLookup_unique (render : @state N) (location : @point N)
    (lookup : aqi_lookup N) (s : @state N) :
  safe_ids (buildings render) ->
  unique_ids (buildings s) ->
  incl (map Building.id (buildings s)) (map Building.id (buildings render)) ->
  unique_ids (buildings (final (afterLookup render location lookup s))).
Proof.
  intros Hsafe Hu Hincl. unfold afterLookup.
  destruct lookup as [| |[aqi|]]; try exact Hu.
  destruct (BuildingManager.above aqi _); [exact Hu|].
  cbv zeta. cbn [final buildings setSurface setBuildingType setItem setBuildings].
  apply unique_ids_snoc; [exact Hu|].
  intros b' Hb' E.
  assert (Hin : In (Building.id b') (map Building.id (buildings render)))
    by (apply Hincl; now apply in_map).
  apply in_map_iff in Hin. destruct Hin as [b'' [E' Hin]].
  apply (newId_above _ _ Hsafe) in Hin.
  cbn [Building.id newBuilding] in E. lia.
Qed.

Lemma afterLookup_room (n : nat) (render : @state N) (location : @point N)
    (lookup : aqi_lookup N) (s : @state N) :
  ids_leave_room n (buildings s) ->
  ids_leave_room (S n) (buildings render) ->
  ids_leave_room n (buildings (final (afterLookup render location lookup s))).
Proof.
  intros Hs Hr. unfold afterLookup.
  destruct lookup as [| |[aqi|]]; try exact Hs.
  destruct (BuildingManager.above aqi _); [exact Hs|].
  cbv zeta. cbn [final buildings setSurface setBuildingType setItem setBuildings].
  destruct Hs as [Hn Hs]. split; [exact Hn|].
  intros b Hb. apply in_app_or in Hb. destruct Hb as [Hb | [<- | []]].
  - now apply Hs.
  - cbn [Building.id newBuilding]. now apply newId_leaves_room.
Qed.

Lemma handleUpdateBuilding_ids (s : @state N) :
  map Building.id (buildings (final (handleUpdateBuilding s)))
  = map Building.id (buildings s).
Proof.
  destruct (selectedBuilding s) as [selected|] eqn:Hsel.
  - rewrite (handleUpdateBuilding_catalog s selected Hsel).
    now apply map_id_replaceById.
  - now rewrite (handleUpdateBuilding_idle s Hsel).
Qed.

Lemma handleDeleteBuilding_ids (k : Z) (s : @state N) :
  exists keep : Z -> bool,
    map Building.id (buildings (final (handleDeleteBuilding k s)))
    = filter keep (map Building.id (buildings s)).
Proof.
  destruct (surface s) as [m0|] eqn:Hm0.
  - destruct (handleDeleteBuilding_effects k s m0 Hm0) as [Hb _].
    exists (fun i => negb (i =? k)%Z). rewrite Hb. apply map_id_filter.
  - rewrite (handleDeleteBuilding_no_map k s Hm0).
    exists (fun _ => true). cbn. now rewrite filter_true.
Qed.

Lemma flight_invariant_less (n : nat) (w : @session N) :
  flight_invariant (S n) w -> flight_invariant n w.
Proof.
  intros [Hu [Hlen [Hr Hp]]]. split; [exact Hu|]. split; [exact Hlen|].
  split; [now apply ids_leave_room_less|].
  intros render location Hin. destruct (Hp render location Hin) as [Hi Hrr].
  split; [exact Hi | now apply ids_leave_room_less].
Qed.

Lemma step_flight (n : nat) (e : event) (w : @session N) :
  flight_invariant (S n) w ->
  (e = ClickAdd -> pending w = []) ->
  flight_invariant n (step e w).
Proof.
  intros Hbefore Hadd.
  assert (Hkeep := flight_invariant_less n w Hbefore).
  destruct Hbefore as [_ [_ [_ Hroom]]].
  destruct Hkeep as [Hu [Hlen [Hr Hp]]].
  assert (Hsame : flight_invariant n w) by (split; [exact Hu | split; [exact Hlen | split; [exact Hr | exact Hp]]]).
  unfold flight_invariant.
  destruct e; cbn [step]; try exact Hsame.
  - destruct (nth_error (buildings (now w)) i); exact Hsame.
  - specialize (Hadd eq_refl).
    destruct (clickedLocation (now w)) as [location|]; [|exact Hsame].
    destruct (negb (truthy (buildingType (now w)))); [exact Hsame|].
    rewrite Hadd. cbn [app pending now]. split; [exact Hu|]. split; [cbn; lia|].
    split; [exact Hr|].
    intros render location' [E | []]. injection E as <- _.
    split; [apply incl_refl | exact Hr].
  - destruct (nth_error (pending w) i) as [[render location]|] eqn:Hi; [|exact Hsame].
    assert (Hin := nth_error_In _ _ Hi).
    assert (Hone : pending w = [(render, location)] /\ i = 0%nat).
    { destruct (pending w) as [|p [|q rest]]; [destruct Hin | | cbn in Hlen; lia].
      destruct Hin as [-> | []]. split; [reflexivity|].
      destruct i as [|i]; [reflexivity|]. destruct i; discriminate Hi. }
    destruct Hone as [Hpen ->]. rewrite Hpen. cbn [drop_nth pending now].
    destruct (Hp render location Hin) as [Hincl _].
    destruct (Hroom render location Hin) as [_ Hrender].
    split; [|split; [cbn; lia | split; [|intros ? ? []]]].
    + apply afterLookup_unique; [|exact Hu | exact Hincl].
      now apply (ids_leave_room_safe (S n)).
    + now apply afterLookup_room.
  - cbn [pending now]. unfold unique_ids.
    split; [rewrite handleUpdateBuilding_ids; exact Hu|]. split; [exact Hlen|].
    split.
    + apply (ids_leave_room_incl n (buildings (now w))); [|exact Hr].
      rewrite handleUpdateBuilding_ids. apply incl_refl.
    + intros render location Hin. destruct (Hp render location Hin) as [Hi Hrr].
      split; [|exact Hrr]. rewrite handleUpdateBuilding_ids. exact Hi.
  - destruct (selectedBuilding (now w)) as [selected|]; [|exact Hsame].
    cbn [pending now].
    destruct (handleDeleteBuilding_ids (Building.id selected) (now w)) as [keep Hk].
    unfold unique_ids. rewrite Hk.
    split; [now apply NoDup_filter|]. split; [exact Hlen|].
    split.
    + apply (ids_leave_room_incl n (buildings (now w))); [|exact Hr].
      rewrite Hk. intros i Hi. now apply filter_In in Hi.
    + intros render location Hin. destruct (Hp render location Hin) as [Hi Hrr].
      split; [|exact Hrr]. intros i Hf. apply filter_In in Hf. now apply Hi.
Qed.

Lemma run_flight (events : list event) (w : @session N) :
  one_add_in_flight events w = true ->
  flight_invariant (List.length events) w -> flight_invariant 0 (run events w).
Proof.
  revert w. unfold run.
  induction events as [|e events IH]; intros w Hone Hw; cbn [fold_left].
  - exact Hw.
  - cbn [one_add_in_flight] in Hone. apply IH.
    + destruct e; try exact Hone. now destruct (pending w).
    + apply step_flight; [exact Hw|]. intros ->.
      destruct (pending w); [reflexivity | discriminate Hone].
Qed.

End OneAddInFlight.

(** X8. Ids stay unique along any session in which the add button is not
    clicked while an earlier add still waits for its lookup, whatever else
    happens while it waits (edits, selections, updates, deletes), provided
    the ids the session starts from leave room below [2 ^ 53] for as many
    adds as the session has events, so that every [max + 1] is computed
    exactly. Two adds in flight can give one id twice
    ([double_click_gives_one_id_twice]), and so can one add on a catalog
    that holds the id [2 ^ 53] ([id_repeats_beyond_safe_integers]). *)
Theorem ids_stay_unique_with_one_add_in_flight
    (N : Type) (NUM : JSNumber N) (RT : JSRuntime N)
    (CB : JSONCodec (list (Building.t N)))
    (events : list BuildingSession.event) (s : @BuildingManager.state N) :
  one_add_in_flight events (BuildingSession.start s) = true ->
  unique_ids (BuildingManager.buildings s) ->
  ids_leave_room (List.length events) (BuildingManager.buildings s) ->
  unique_ids (BuildingManager.buildings
                (BuildingSession.now
                   (BuildingSession.run events (BuildingSession.start s)))).
Proof.
  intros Hone Hu Hroom.
  apply (run_flight events (BuildingSession.start s) Hone).
  split; [exact Hu|]. split; [cbn; lia|]. split; [exact Hroom | intros ? ? []].
Qed.

(* ================================================================= *)
(** ** Select then update, the edges of the gate, the mount effect *)

Section SelectThenUpdate.
Import BuildingManager.
Context {N : Type} `{JSNumber N} `{JSRuntime N} `{JSONCodec (list (Building.t N))}.

Lemma updatedBuilding_of_selected (b : Building.t N) (s : @state N) :
  coordinates_derived b ->
  num_or (Building.rotation b) (num_lit 0) = Building.rotation b ->
  updatedBuilding (handleSelectBuilding b s) b = b.
Proof.
  intros Hd Hr. unfold updatedBuilding, handleSelectBuilding.
  cbn [buildingWidth buildingHeight buildingColor buildingRotation buildingType
       setSelectedBuilding setBuildingWidth setBuildingHeight setBuildingColor
       setBuildingRotation setBuildingType].
  rewrite Hr. unfold coordinates_derived in Hd. rewrite <- Hd. now destruct b.
Qed.

Lemma replaceById_same (b : Building.t N) (l : list (Building.t N)) :
  In b l -> unique_ids l -> replaceById b b l = l.
Proof.
  intros Hin Hu. destruct (in_split _ _ Hin) as [before [after ->]].
  now apply replaceById_split.
Qed.

End SelectThenUpdate.

(** X9. Selecting a building of the catalog and pressing Update with no
    edit in between leaves the catalog as it was, redraws that building and
    sends no lookup, provided ids are unique, the building's coordinates are
    derived from its own fields, and its rotation survives [rotation || 0]
    (it is neither NaN nor -0). *)
Theorem select_then_update_changes_nothing
    (N : Type) (NUM : JSNumber N) (RT : JSRuntime N)
    (CB : JSONCodec (list (Building.t N)))
    (b : Building.t N) (s : @BuildingManager.state N) :
  In b (BuildingManager.buildings s) ->
  unique_ids (BuildingManager.buildings s) ->
  coordinates_derived b ->
  num_or (Building.rotation b) (num_lit 0) = Building.rotation b ->
  let s' := final (BuildingManager.handleUpdateBuilding
                     (BuildingManager.handleSelectBuilding b s)) in
  BuildingManager.buildings s' = BuildingManager.buildings s /\
  BuildingManager.surface s'
  = BuildingManager.displayBuilding b (BuildingManager.surface s) /\
  BuildingManager.lookups s' = BuildingManager.lookups s.
Proof.
  intros Hin Hu Hd Hr s'. subst s'.
  assert (Hsel : BuildingManager.selectedBuilding
                   (BuildingManager.handleSelectBuilding b s) = Some b) by reflexivity.
  rewrite (handleUpdateBuilding_catalog _ b Hsel).
  rewrite (handleUpdateBuilding_surface _ b Hsel).
  rewrite (updatedBuilding_of_selected b s Hd Hr).
  split; [|split].
  - now apply replaceById_same.
  - reflexivity.
  - unfold BuildingManager.handleUpdateBuilding. rewrite Hsel. cbv zeta.
    destruct (BuildingManager.storedBuildings _); reflexivity.
Qed.

Section GateEdges.
Import BuildingManager.
Local Open Scope float_scope.
Variables cos sin : float -> float.
Context `{JSRuntime float} `{JSONCodec (list (Building.t float))}.

Lemma ltb_nan (x : float) : (x <? nan) = false.
Proof.
  rewrite ltb_spec. unfold SFltb.
  change (Prim2SF nan) with S754_nan.
  destruct (Prim2SF x) as [| | |[] ? ?]; reflexivity.
Qed.

Lemma ceiling_of_listed (e : string * Z) :
  In e buildingAqiLimits ->
  maxAqiAllowed (H := gate_engine cos sin) (fst e) = NumberLimit (float_of_Z (snd e)) /\
  (50 <=? float_of_Z (snd e)) = true /\ (float_of_Z (snd e) <=? 400) = true.
Proof.
  unfold buildingAqiLimits. cbn [In].
  intros Hin.
  repeat (destruct Hin as [<- | Hin]; [repeat split; reflexivity|]).
  destruct Hin.
Qed.

Lemma ceiling_found (t : string) (e : string * Z) :
  find (fun e => String.eqb (fst e) t) buildingAqiLimits = Some e ->
  In e buildingAqiLimits /\ fst e = t.
Proof.
  intros F. apply find_some in F. destruct F as [Hin E].
  apply String.eqb_eq in E. auto.
Qed.

Lemma offered_types_are_the_table_keys : map fst buildingAqiLimits = buildingTypes.
Proof. reflexivity. Qed.

Lemma ceiling_of_offered (t : string) :
  In t buildingTypes ->
  exists limit : Z,
    In (t, limit) buildingAqiLimits /\
    maxAqiAllowed (H := gate_engine cos sin) t = NumberLimit (float_of_Z limit).
Proof.
  intros Hin. rewrite <- offered_types_are_the_table_keys in Hin.
  apply in_map_iff in Hin. destruct Hin as [[t' limit] [E Hin]]. cbn [fst] in E. subst t'.
  exists limit. split; [exact Hin|].
  now destruct (ceiling_of_listed (t, limit) Hin) as [Hc _].
Qed.

Lemma ceiling_of_other (t : string) :
  ~ In t buildingTypes -> ~ In t Object_prototype_keys ->
  maxAqiAllowed (H := gate_engine cos sin) t = NumberLimit 200.
Proof.
  intros Hout Hown. unfold maxAqiAllowed.
  destruct (find (fun e => String.eqb (fst e) t) buildingAqiLimits) as [e|] eqn:F.
  - exfalso. apply Hout. destruct (ceiling_found t e F) as [Hin <-].
    rewrite <- offered_types_are_the_table_keys. now apply in_map.
  - destruct (existsb (String.eqb t) Object_prototype_keys) eqn:Hex; [|reflexivity].
    exfalso. apply Hown. apply existsb_exists in Hex. destruct Hex as [k [Hin E]].
    apply String.eqb_eq in E. now subst k.
Qed.

Lemma number_ceiling_range (t : string) (n : float) :
  maxAqiAllowed (H := gate_engine cos sin) t = NumberLimit n ->
  (50 <=? n) = true /\ (n <=? 400) = true.
Proof.
  intros Hn. unfold maxAqiAllowed in Hn.
  destruct (find (fun e => String.eqb (fst e) t) buildingAqiLimits) as [e|] eqn:F.
  - destruct (ceiling_found t e F) as [Hin _].
    destruct (ceiling_of_listed e Hin) as [Hc [Hlo Hhi]].
    unfold maxAqiAllowed in Hc.
    assert (F' : find (fun e0 => String.eqb (fst e0) (fst e)) buildingAqiLimits = Some e).
    { destruct (ceiling_found t e F) as [_ <-]. exact F. }
    rewrite F' in Hc. rewrite Hc in Hn. injection Hn as <-. now split.
  - destruct (existsb (String.eqb t) Object_prototype_keys); [discriminate|].
    injection Hn as <-. split; reflexivity.
Qed.

End GateEdges.

(** X10. The ceiling [buildingAqiLimits[buildingType] || 200] on doubles.
    Every type the select offers ([buildingTypes]) has an entry of its own
    in the table and its ceiling is that entry's number. A type that names a
    member every object inherits (constructor, toString, ...) gets that
    member: it is not a number, and no index compares above it. Every other
    type gets 200. A ceiling that is a number lies between 50 and 400. *)
Theorem every_offered_type_has_its_ceiling
    (cos sin : float -> float) (t : string) :
  let ceiling := BuildingManager.maxAqiAllowed (H := Binary64 cos sin) t in
  (In t buildingTypes ->
   exists limit : Z,
     In (t, limit) buildingAqiLimits /\ ceiling = NumberLimit (float_of_Z limit)) /\
  (In t Object_prototype_keys ->
   ceiling = InheritedMember /\
   forall aqi : float, BuildingManager.above (H := Binary64 cos sin) aqi ceiling = false) /\
  (~ In t buildingTypes -> ~ In t Object_prototype_keys ->
   ceiling = NumberLimit 200%float) /\
  (forall n : float,
      ceiling = NumberLimit n -> (50 <=? n)%float = true /\ (n <=? 400)%float = true).
Proof.
  intros ceiling. subst ceiling. split; [|split; [|split]].
  - apply (ceiling_of_offered cos sin).
  - intros Hin. rewrite (inherited_key_limit (H := Binary64 cos sin) t Hin).
    split; reflexivity.
  - apply (ceiling_of_other cos sin).
  - apply (number_ceiling_range cos sin).
Qed.

(** X11. An air-quality index that is NaN passes the gate for every
    building type: [aqi > maxAqiAllowed] is false on NaN, so an add that
    passed validation appends the building and shows no alert. *)
Theorem nan_index_passes_the_gate
    (cos sin : float -> float) (RT : JSRuntime float)
    (CB : JSONCodec (list (Building.t float)))
    (s : @BuildingManager.state float) (location : float * float) :
  BuildingManager.clickedLocation s = Some location ->
  BuildingManager.buildingType s <> EmptyString ->
  exists s' : @BuildingManager.state float,
    BuildingManager.handleAddBuilding (H := Binary64 cos sin) (LookupBody (Some nan)) s
    = Done s' /\
    BuildingManager.buildings s'
    = BuildingManager.buildings s
      ++ [BuildingManager.newBuilding (H := Binary64 cos sin) s location] /\
    BuildingManager.alerts s' = BuildingManager.alerts s.
Proof.
  intros Hloc Htype.
  rewrite (handleAddBuilding_validated (H := Binary64 cos sin) _ s location Hloc Htype).
  destruct (afterLookup_accepted (H := Binary64 cos sin) s location nan
              (BuildingManager.fetchAqi (snd location) (fst location) s))
    as [s' [E [Hb [_ [_ [_ [Ha _]]]]]]].
  - destruct (BuildingManager.maxAqiAllowed _); [apply ltb_nan | reflexivity].
  - exists s'. auto.
Qed.

(** X12. The mount effect of the building manager never touches the map,
    the alerts or the store. With the key absent or empty it changes
    nothing; with text that parses, the catalog becomes the parsed list (its
    buildings are listed, not drawn); with text that does not parse it ends
    in an exception that nothing catches, the state unchanged (unlike
    [loadRoutes], which resets the catalog). *)
Theorem mount_load_never_draws
    (N : Type) (NUM : JSNumber N) (RT : JSRuntime N)
    (CB : JSONCodec (list (Building.t N))) (s : @BuildingManager.state N) :
  let s' := final (BuildingManager.loadStored s) in
  BuildingManager.surface s' = BuildingManager.surface s /\
  BuildingManager.alerts s' = BuildingManager.alerts s /\
  BuildingManager.storage s' = BuildingManager.storage s /\
  (BuildingManager.storage s = None \/ BuildingManager.storage s = Some EmptyString ->
   BuildingManager.loadStored s = Done s) /\
  (forall saved,
      BuildingManager.storage s = Some saved -> saved <> EmptyString ->
      match JSON_parse saved with
      | Some parsed =>
          BuildingManager.loadStored s = Done (BuildingManager.setBuildings parsed s)
      | None => BuildingManager.loadStored s = Raised s
      end).
Proof.
  cbv zeta. unfold BuildingManager.loadStored.
  destruct (BuildingManager.storage s) as [saved|] eqn:Hst.
  - destruct (truthy saved) eqn:Ht.
    + assert (Hne : saved <> EmptyString) by now apply truthy_nonempty.
      destruct (JSON_parse saved) as [parsed|] eqn:Hp; cbn [final];
        (do 3 (split; [cbn; congruence|])); split.
      * intros [Habs | Hempty]; [discriminate|]. injection Hempty as ->. congruence.
      * intros saved' E _. injection E as <-. now rewrite Hp.
      * intros [Habs | Hempty]; [discriminate|]. injection Hempty as ->. congruence.
      * intros saved' E _. injection E as <-. now rewrite Hp.
    + do 3 (split; [cbn; congruence|]). split; [reflexivity|].
      intros saved' E Hne. injection E as <-.
      apply truthy_nonempty in Hne. congruence.
  - do 3 (split; [cbn; congruence|]). split; [reflexivity|].
    intros saved' E. discriminate E.
Qed.

(** X13. The air-quality service is called by [handleAddBuilding] only:
    exactly once when the add passes validation, for the clicked location as
    (lat, lng) = ([clickedLocation[1]], [clickedLocation[0]]), and not at all
    when validation fails; update, delete, select and the mount effect send
    nothing. *)
Theorem lookups_are_sent_by_validated_adds_only
    (N : Type) (NUM : JSNumber N) (RT : JSRuntime N)
    (CB : JSONCodec (list (Building.t N)))
    (lookup : aqi_lookup N) (b : Building.t N) (k : Z)
    (s : @BuildingManager.state N) :
  BuildingManager.lookups (final (BuildingManager.handleAddBuilding lookup s))
  = BuildingManager.lookups s ++
    match BuildingManager.clickedLocation s with
    | Some location =>
        if truthy (BuildingManager.buildingType s)
        then [(snd location, fst location)] else []
    | None => []
    end /\
  BuildingManager.lookups (final (BuildingManager.handleUpdateBuilding s))
  = BuildingManager.lookups s /\
  BuildingManager.lookups (final (BuildingManager.handleDeleteBuilding k s))
  = BuildingManager.lookups s /\
  BuildingManager.lookups (BuildingManager.handleSelectBuilding b s)
  = BuildingManager.lookups s /\
  BuildingManager.lookups (final (BuildingManager.loadStored s))
  = BuildingManager.lookups s.
Proof.
  split; [|split; [|split; [|split]]].
  - unfold BuildingManager.handleAddBuilding.
    destruct (BuildingManager.clickedLocation s) as [location|];
      [|cbn; now rewrite app_nil_r].
    destruct (truthy (BuildingManager.buildingType s)); cbn [negb];
      [|cbn; now rewrite app_nil_r].
    unfold BuildingManager.afterLookup.
    destruct lookup as [| |[aqi|]]; try reflexivity.
    destruct (BuildingManager.above aqi _); reflexivity.
  - unfold BuildingManager.handleUpdateBuilding.
    destruct (BuildingManager.selectedBuilding s) as [selected|]; [|reflexivity].
    cbv zeta. destruct (BuildingManager.storedBuildings _); reflexivity.
  - unfold BuildingManager.handleDeleteBuilding.
    destruct (BuildingManager.surface s) as [m|]; [|reflexivity].
    cbv zeta. destruct (BuildingManager.storedBuildings _); reflexivity.
  - reflexivity.
  - unfold BuildingManager.loadStored.
    destruct (BuildingManager.storage s) as [saved|]; [|reflexivity].
    destruct (truthy saved); [|reflexivity].
    destruct (JSON_parse saved); reflexivity.
Qed.

(* ================================================================= *)
(** ** Drawing routes *)

Section DrawingARoute.
Import RouteManagerLocal.
Context {N : Type} `{JSRuntime N}.

Lemma drawRouteOnMap_steps (route : Route.t) (m : map_surface N) :
  drawRouteOnMap route m
  = addLayer {| layer_id := route_source (Route.id route);
                layer_source := route_source (Route.id route);
                layer_paint := route_paint route |}
      (addSource (route_source (Route.id route)) (route_line route)
         (if getSource (route_source (Route.id route)) m
          then removeSource (route_source (Route.id route))
                 (removeLayer (route_source (Route.id route)) m)
          else m)).
Proof. reflexivity. Qed.

Lemma drawRouteOnMap_sources_named (route : Route.t) (m : map_surface N) (name : string) :
  sources_named name (drawRouteOnMap route m)
  = if String.eqb name (route_source (Route.id route)) then [route_line route]
    else sources_named name m.
Proof.
  rewrite drawRouteOnMap_steps, sources_named_addLayer, sources_named_addSource.
  rewrite (String.eqb_sym (route_source _) name).
  assert (E : sources_named name
                (if getSource (route_source (Route.id route)) m
                 then removeSource (route_source (Route.id route))
                        (removeLayer (route_source (Route.id route)) m)
                 else m)
              = if String.eqb name (route_source (Route.id route)) then []
                else sources_named name m).
  { destruct (getSource (route_source (Route.id route)) m) eqn:G.
    - rewrite <- eraseLayerAndSource_eq. apply sources_named_erase.
    - destruct (String.eqb name (route_source (Route.id route))) eqn:En; [|reflexivity].
      apply String.eqb_eq in En. subst name.
      rewrite getSource_named in G. apply negb_false_iff, Nat.eqb_eq in G.
      now apply length_zero_iff_nil. }
  rewrite E. destruct (String.eqb name (route_source (Route.id route))); [reflexivity|].
  apply app_nil_r.
Qed.

Lemma drawRouteOnMap_layers_named (route : Route.t) (m : map_surface N) (name : string) :
  layers_named name (drawRouteOnMap route m)
  = if String.eqb name (route_source (Route.id route))
    then (if getSource name m then [] else layers_named name m) ++ [route_paint route]
    else layers_named name m.
Proof.
  rewrite drawRouteOnMap_steps, layers_named_addLayer, layers_named_addSource.
  cbn [layer_id layer_paint].
  rewrite (String.eqb_sym (route_source _) name).
  destruct (String.eqb name (route_source (Route.id route))) eqn:En.
  - apply String.eqb_eq in En. subst name.
    destruct (getSource (route_source (Route.id route)) m); [|reflexivity].
    rewrite <- eraseLayerAndSource_eq, layers_named_erase.
    now rewrite String.eqb_refl.
  - rewrite app_nil_r.
    destruct (getSource (route_source (Route.id route)) m); [|reflexivity].
    rewrite <- eraseLayerAndSource_eq, layers_named_erase. now rewrite En.
Qed.

Lemma drawRouteOnMap_puts (route : Route.t) (m : map_surface N) :
  on_map (route_source (Route.id route)) (drawRouteOnMap route m) = true.
Proof.
  rewrite on_map_named, drawRouteOnMap_sources_named, drawRouteOnMap_layers_named.
  rewrite String.eqb_refl, length_app, Nat.add_comm. reflexivity.
Qed.

Lemma drawRouteOnMap_keeps (route : Route.t) (m : map_surface N) (name : string) :
  on_map name m = true -> on_map name (drawRouteOnMap route m) = true.
Proof.
  intros Hon.
  destruct (String.eqb name (route_source (Route.id route))) eqn:En.
  - apply String.eqb_eq in En. subst name. apply drawRouteOnMap_puts.
  - rewrite on_map_named in *.
    now rewrite drawRouteOnMap_sources_named, drawRouteOnMap_layers_named, En.
Qed.

(** Drawing a list of routes, as [parsed.forEach(drawRouteOnMap)] does. *)
Lemma draw_all_keeps (parsed : list Route.t) (m : map_surface N) (name : string) :
  on_map name m = true ->
  on_map name (fold_left (fun m route => drawRouteOnMap route m) parsed m) = true.
Proof.
  revert m. induction parsed as [|r parsed IH]; intros m Hon; cbn [fold_left].
  - exact Hon.
  - apply IH. now apply drawRouteOnMap_keeps.
Qed.

Lemma draw_all_puts (parsed : list Route.t) (m : map_surface N) (route : Route.t) :
  In route parsed ->
  on_map (route_source (Route.id route))
         (fold_left (fun m route => drawRouteOnMap route m) parsed m) = true.
Proof.
  revert m. induction parsed as [|r parsed IH]; intros m Hin; cbn [fold_left].
  - destruct Hin.
  - destruct Hin as [-> | Hin]; [|now apply IH].
    apply draw_all_keeps. apply drawRouteOnMap_puts.
Qed.

Lemma draw_all_other (parsed : list Route.t) (m : map_surface N) (name : string) :
  (forall route, In route parsed -> name <> route_source (Route.id route)) ->
  sources_named name (fold_left (fun m route => drawRouteOnMap route m) parsed m)
  = sources_named name m.
Proof.
  revert m. induction parsed as [|r parsed IH]; intros m Hother; cbn [fold_left].
  - reflexivity.
  - rewrite IH by (intros route Hin; apply Hother; now right).
    rewrite drawRouteOnMap_sources_named.
    assert (Hr : name <> route_source (Route.id r)) by (apply Hother; now left).
    apply String.eqb_neq in Hr. now rewrite Hr.
Qed.

Lemma draw_all_named (parsed : list Route.t) (m : map_surface N) (route : Route.t) :
  NoDup (map Route.id parsed) -> In route parsed ->
  sources_named (route_source (Route.id route))
                (fold_left (fun m route => drawRouteOnMap route m) parsed m)
  = [route_line route].
Proof.
  revert m. induction parsed as [|r parsed IH]; intros m Hnd Hin; cbn [fold_left].
  - destruct Hin.
  - cbn [map] in Hnd. inversion Hnd as [|i ids Hfresh Hnd']. subst i ids.
    destruct Hin as [-> | Hin]; [|now apply IH].
    rewrite draw_all_other.
    + rewrite drawRouteOnMap_sources_named. now rewrite String.eqb_refl.
    + intros r' Hr' E. apply route_source_inj in E.
      apply Hfresh. rewrite E. now apply in_map.
Qed.

End DrawingARoute.

Section LocalCatalog.
Import RouteManagerLocal.
Context {N : Type} `{JSRuntime N} `{JSONCodec (list Route.t)}.

Lemma forEach_draw (parsed : list Route.t) (s : @state N) :
  fold_left (fun st route => onMap (drawRouteOnMap route) st) parsed s
  = onMap (fun m => fold_left (fun m route => drawRouteOnMap route m) parsed m) s.
Proof.
  revert s. induction parsed as [|r parsed IH]; intros s; cbn [fold_left].
  - now destruct s.
  - rewrite IH. reflexivity.
Qed.

Lemma loadRoutes_parsed (s : @state N) (saved : string) (parsed : list Route.t) :
  storage s = Some saved -> saved <> EmptyString -> JSON_parse saved = Some parsed ->
  loadRoutes s
  = Done (onMap (fun m => fold_left (fun m route => drawRouteOnMap route m) parsed m)
                (setRoutes parsed s)).
Proof.
  intros Hst Hne Hp. unfold loadRoutes. rewrite Hst.
  apply truthy_nonempty in Hne. rewrite Hne, Hp. cbn [try_catch].
  now rewrite forEach_draw.
Qed.

End LocalCatalog.

(** X17. [loadRoutes] of the local-storage variant, on a store that holds
    non-empty text that parses: it returns normally, the catalog is the
    parsed list, store and error are untouched, every parsed route has its
    source and its layer [route-<id>] on the map, no name that was on the map
    is taken off, and when the parsed ids are distinct the source of each
    route is that route's line and nothing else. *)
Theorem loaded_routes_are_drawn
    (N : Type) (RT : JSRuntime N) (CD : JSONCodec (list Route.t))
    (s : @RouteManagerLocal.state N) (saved : string) (parsed : list Route.t) :
  RouteManagerLocal.storage s = Some saved ->
  saved <> EmptyString ->
  JSON_parse saved = Some parsed ->
  exists s' : @RouteManagerLocal.state N,
    RouteManagerLocal.loadRoutes s = Done s' /\
    RouteManagerLocal.routes s' = parsed /\
    RouteManagerLocal.storage s' = RouteManagerLocal.storage s /\
    RouteManagerLocal.error s' = RouteManagerLocal.error s /\
    (forall route, In route parsed ->
       on_map (route_source (Route.id route)) (RouteManagerLocal.surface s') = true) /\
    (forall name, on_map name (RouteManagerLocal.surface s) = true ->
       on_map name (RouteManagerLocal.surface s') = true) /\
    (NoDup (map Route.id parsed) ->
     forall route, In route parsed ->
       sources_named (route_source (Route.id route)) (RouteManagerLocal.surface s')
       = [route_line route]).
Proof.
  intros Hst Hne Hp. eexists. split; [now apply (loadRoutes_parsed s saved parsed)|].
  cbn [RouteManagerLocal.routes RouteManagerLocal.storage RouteManagerLocal.error
       RouteManagerLocal.surface RouteManagerLocal.onMap RouteManagerLocal.setRoutes].
  repeat split.
  - intros route Hin. now apply draw_all_puts.
  - intros name Hon. now apply draw_all_keeps.
  - intros Hnd route Hin. now apply draw_all_named.
Qed.

Section Redrawing.
Import RouteManagerLocal.
Context {N : Type} `{JSRuntime N}.

Lemma route_paint_cases (route : Route.t) :
  route_paint (N := N) route
  = if String.eqb (Route.type route) "minor" then Line "#808080" 3
    else Line "#000000" 5.
Proof.
  unfold route_paint, roadTypes. cbn [find value].
  destruct (String.eqb "major" (Route.type route)) eqn:E1.
  - apply String.eqb_eq in E1. now rewrite <- E1.
  - rewrite (String.eqb_sym "minor"). now destruct (String.eqb (Route.type route) "minor").
Qed.

End Redrawing.

(** X18. Drawing a route over an earlier drawing of a route with the same
    id leaves exactly one source and one layer under [route-<id>], those of
    the later route; the line is grey and 3 wide when the type is [minor],
    black and 5 wide otherwise (an unknown type is drawn as a major road);
    every other name keeps its sources and layers. *)
Theorem redrawn_route_has_one_line
    (N : Type) (RT : JSRuntime N) (old new : Route.t) (m : map_surface N) :
  Route.id old = Route.id new ->
  let name := route_source (Route.id new) in
  let m' := RouteManagerLocal.drawRouteOnMap new
              (RouteManagerLocal.drawRouteOnMap old m) in
  sources_named name m' = [route_line new] /\
  layers_named name m' = [route_paint new] /\
  route_paint (N := N) new
  = (if String.eqb (Route.type new) "minor" then Line "#808080" 3
     else Line "#000000" 5) /\
  (forall other, other <> name ->
     sources_named other m' = sources_named other m /\
     layers_named other m' = layers_named other m).
Proof.
  intros Hid name m'. subst name m'.
  rewrite !drawRouteOnMap_sources_named, !drawRouteOnMap_layers_named.
  rewrite Hid, String.eqb_refl.
  assert (Hon : getSource (route_source (Route.id new))
                  (RouteManagerLocal.drawRouteOnMap old m) = true).
  { pose proof (drawRouteOnMap_puts old m) as P. rewrite Hid in P.
    unfold on_map in P. now apply andb_true_iff in P. }
  rewrite Hon. split; [reflexivity|]. split; [reflexivity|].
  split; [apply route_paint_cases|].
  intros other Hother. apply String.eqb_neq in Hother.
  rewrite !drawRouteOnMap_sources_named, !drawRouteOnMap_layers_named.
  now rewrite Hid, Hother.
Qed.

(* ================================================================= *)
(** ** The local catalog of routes *)

Lemma split_comma_nonempty (s : string) : split_comma s <> [].
Proof.
  destruct s as [|c s]; cbn; [discriminate|].
  destruct (Ascii.eqb c ","); [discriminate|].
  destruct (split_comma s); discriminate.
Qed.

(** A text with no comma in front of a comma: the split starts with it. *)
Lemma split_comma_join (a b : string) :
  split_comma a = [a] ->
  split_comma (a ++ "," ++ b) = a :: split_comma b.
Proof.
  induction a as [|c a IH]; intros Ha.
  - reflexivity.
  - cbn [append split_comma] in *.
    destruct (Ascii.eqb c ","); [discriminate Ha|].
    destruct (split_comma a) as [|word words] eqn:E.
    + now apply split_comma_nonempty in E.
    + injection Ha as -> ->. now rewrite IH.
Qed.

Section ReadingPointsBack.
Context {N : Type} `{JSRuntime N}.

Lemma point_reads_back (p : @point N) :
  reads_back (fst p) -> reads_back (snd p) ->
  map Number_ofString
      (split_comma (Number_toString (fst p) ++ "," ++ Number_toString (snd p)))
  = [fst p; snd p].
Proof.
  intros [Hx Hsx] [Hy Hsy].
  rewrite (split_comma_join _ _ Hsx), Hsy. cbn [map]. now rewrite Hx, Hy.
Qed.

Lemma route_line_reads_back (points : list (@point N)) (route : Route.t) :
  Route.coordinates route = serialize_points points ->
  (forall p, In p points -> reads_back (fst p) /\ reads_back (snd p)) ->
  route_line route = LineString (map (fun p => [fst p; snd p]) points).
Proof.
  intros Hc Hp. unfold route_line. rewrite Hc. unfold serialize_points.
  rewrite map_map. f_equal. apply map_ext_in.
  intros p Hin. destruct (Hp p Hin). now apply point_reads_back.
Qed.

End ReadingPointsBack.

Section LocalRoutes.
Import RouteManagerLocal.
Context {N : Type} `{JSRuntime N} `{JSONCodec (list Route.t)}.

Lemma handleSaveRoute_surface (now : Z) (iso : string) (s : @state N) :
  commit_allowed (routeName s) (clickedPoints s) ->
  surface (handleSaveRoute now iso s)
  = eraseLayerAndSource temp_route_line
      (drawRouteOnMap
         {| Route.id := now; Route.name := routeName s; Route.type := routeType s;
            Route.coordinates := serialize_points (clickedPoints s);
            Route.createdAt := iso |}
         (surface s)).
Proof.
  intros Ha. unfold handleSaveRoute. now rewrite allowed_guard by assumption.
Qed.

Lemma route_source_not_temp (id : Z) :
  String.eqb (route_source id) temp_route_line = false.
Proof. reflexivity. Qed.

Lemma handleDeleteRoute_fields (id : Z) (s : @state N) :
  let s' := handleDeleteRoute id s in
  routes s' = filter (fun route => negb (Route.id route =? id)%Z) (routes s) /\
  storage s' = Some (JSON_stringify (routes s')) /\
  surface s' = eraseLayerAndSource (route_source id) (surface s).
Proof. repeat split. Qed.

Lemma handleDeleteRoute_twice (id : Z) (s : @state N) :
  handleDeleteRoute id (handleDeleteRoute id s) = handleDeleteRoute id s.
Proof.
  unfold handleDeleteRoute, saveRoutesToStorage, onMap, setRoutes, setItem.
  cbn [routes routeName routeType clickedPoints isDrawing isStyleLoaded error
       storage surface alerts].
  now rewrite filter_twice, eraseLayerAndSource_twice.
Qed.

Lemma filter_route_In (id : Z) (l : list Route.t) (route : Route.t) :
  In route (filter (fun route => negb (Route.id route =? id)%Z) l)
  <-> In route l /\ Route.id route <> id.
Proof. rewrite filter_In, negb_true_iff, Z.eqb_neq. reflexivity. Qed.

Lemma filter_route_fresh (id : Z) (l : list Route.t) :
  (forall route, In route l -> Route.id route <> id) ->
  filter (fun route => negb (Route.id route =? id)%Z) l = l.
Proof.
  intros Hf. apply forallb_filter_id, forallb_forall.
  intros route Hin. apply negb_true_iff, Z.eqb_neq. now apply Hf.
Qed.

Lemma erase_off_map (name : string) (m : map_surface N) :
  on_map name (eraseLayerAndSource name m) = false.
Proof.
  rewrite on_map_named, sources_named_erase. now rewrite String.eqb_refl.
Qed.

Lemma reload_in_step (s : @state N) :
  storage s = Some (JSON_stringify (routes s)) ->
  JSON_stringify (routes s) <> EmptyString ->
  JSON_parse (JSON_stringify (routes s)) = Some (routes s) ->
  exists s' : @state N, loadRoutes s = Done s' /\ routes s' = routes s.
Proof.
  intros Hst Hne Hp. eexists.
  split; [now apply (loadRoutes_parsed s _ (routes s) Hst)|reflexivity].
Qed.

End LocalRoutes.

(** X19. After a successful commit in the local-storage variant the map
    holds under [route-<now>] exactly one source, the line through the
    captured points in capture order, as numbers; the route is on the map
    and the temporary drawing line is off it. Hypothesis: the runtime reads
    back the numbers it prints ([Number(`${x}`)] is [x], and the text holds
    no comma), as JavaScript does for doubles. *)
Theorem drawn_route_goes_through_the_points
    (N : Type) (RT : JSRuntime N) (CD : JSONCodec (list Route.t))
    (now : Z) (iso : string) (s : @RouteManagerLocal.state N) :
  commit_allowed (RouteManagerLocal.routeName s) (RouteManagerLocal.clickedPoints s) ->
  (forall p, In p (RouteManagerLocal.clickedPoints s) ->
             reads_back (fst p) /\ reads_back (snd p)) ->
  let s' := RouteManagerLocal.handleSaveRoute now iso s in
  sources_named (route_source now) (RouteManagerLocal.surface s')
  = [LineString (map (fun p => [fst p; snd p]) (RouteManagerLocal.clickedPoints s))] /\
  on_map (route_source now) (RouteManagerLocal.surface s') = true /\
  on_map temp_route_line (RouteManagerLocal.surface s') = false.
Proof.
  intros Ha Hp s'. subst s'. rewrite (handleSaveRoute_surface now iso s Ha).
  split; [|split].
  - rewrite sources_named_erase, route_source_not_temp.
    rewrite drawRouteOnMap_sources_named. cbn [Route.id]. rewrite String.eqb_refl.
    f_equal. now apply route_line_reads_back.
  - rewrite on_map_named, sources_named_erase, layers_named_erase, route_source_not_temp.
    rewrite <- on_map_named.
    apply (drawRouteOnMap_puts
             {| Route.id := now; Route.name := RouteManagerLocal.routeName s;
                Route.type := RouteManagerLocal.routeType s;
                Route.coordinates := serialize_points (RouteManagerLocal.clickedPoints s);
                Route.createdAt := iso |}).
  - apply erase_off_map.
Qed.

(** X20. [handleDeleteRoute] of the local-storage variant: the catalog
    loses exactly the routes with the given id (it is unchanged when there
    is none), the store holds the JSON of the new catalog, [route-<id>] is
    off the map and every other name keeps its sources and layers; deleting
    the same id again changes nothing. *)
Theorem delete_route_removes_exactly_that_id
    (N : Type) (RT : JSRuntime N) (CD : JSONCodec (list Route.t))
    (id : Z) (s : @RouteManagerLocal.state N) :
  let s' := RouteManagerLocal.handleDeleteRoute id s in
  (forall route, In route (RouteManagerLocal.routes s')
                 <-> In route (RouteManagerLocal.routes s) /\ Route.id route <> id) /\
  ((forall route, In route (RouteManagerLocal.routes s) -> Route.id route <> id) ->
   RouteManagerLocal.routes s' = RouteManagerLocal.routes s) /\
  RouteManagerLocal.storage s' = Some (JSON_stringify (RouteManagerLocal.routes s')) /\
  on_map (route_source id) (RouteManagerLocal.surface s') = false /\
  (forall name, name <> route_source id ->
     sources_named name (RouteManagerLocal.surface s')
       = sources_named name (RouteManagerLocal.surface s) /\
     layers_named name (RouteManagerLocal.surface s')
       = layers_named name (RouteManagerLocal.surface s)) /\
  RouteManagerLocal.handleDeleteRoute id s' = s'.
Proof.
  intros s'. destruct (handleDeleteRoute_fields id s) as [Hr [Hst Hm]].
  fold s' in Hr, Hst, Hm.
  split; [|split; [|split; [|split; [|split]]]].
  - intros route. rewrite Hr. apply filter_route_In.
  - intros Hf. rewrite Hr. now apply filter_route_fresh.
  - exact Hst.
  - rewrite Hm. apply erase_off_map.
  - intros name Hn. rewrite Hm, sources_named_erase, layers_named_erase.
    apply String.eqb_neq in Hn. now rewrite Hn.
  - apply handleDeleteRoute_twice.
Qed.

(** X21. Committing a route at clock reading [now] and deleting the id
    [now] right after gives back the catalog as it was, and the store holds
    its JSON, provided no route of the catalog had that id; [route-<now>] is
    off the map and, apart from the temporary line, every name keeps its
    sources and layers. *)
Theorem commit_then_delete_restores_the_catalog
    (N : Type) (RT : JSRuntime N) (CD : JSONCodec (list Route.t))
    (now : Z) (iso : string) (s : @RouteManagerLocal.state N) :
  commit_allowed (RouteManagerLocal.routeName s) (RouteManagerLocal.clickedPoints s) ->
  (forall route, In route (RouteManagerLocal.routes s) -> Route.id route <> now) ->
  let s' := RouteManagerLocal.handleDeleteRoute now
              (RouteManagerLocal.handleSaveRoute now iso s) in
  RouteManagerLocal.routes s' = RouteManagerLocal.routes s /\
  RouteManagerLocal.storage s' = Some (JSON_stringify (RouteManagerLocal.routes s)) /\
  on_map (route_source now) (RouteManagerLocal.surface s') = false /\
  (forall name, name <> route_source now -> name <> temp_route_line ->
     sources_named name (RouteManagerLocal.surface s')
       = sources_named name (RouteManagerLocal.surface s) /\
     layers_named name (RouteManagerLocal.surface s')
       = layers_named name (RouteManagerLocal.surface s)).
Proof.
  intros Ha Hfresh s'.
  destruct (local_commit_allowed now iso s Ha) as [Hroutes _].
  destruct (handleDeleteRoute_fields now (RouteManagerLocal.handleSaveRoute now iso s))
    as [Hr [Hst Hm]].
  fold s' in Hr, Hst, Hm.
  assert (Hcat : RouteManagerLocal.routes s' = RouteManagerLocal.routes s).
  { rewrite Hr, Hroutes, filter_app. cbn [filter Route.id].
    rewrite Z.eqb_refl. cbn [negb]. rewrite app_nil_r.
    now apply filter_route_fresh. }
  split; [exact Hcat|]. split; [now rewrite Hst, Hcat|]. split.
  - rewrite Hm. apply erase_off_map.
  - intros name Hn Ht. rewrite Hm, (handleSaveRoute_surface now iso s Ha).
    rewrite !sources_named_erase, !layers_named_erase.
    rewrite drawRouteOnMap_sources_named, drawRouteOnMap_layers_named.
    cbn [Route.id].
    apply String.eqb_neq in Hn, Ht. now rewrite Hn, Ht.
Qed.

(** X22. What a commit or a delete leaves in the store is what
    [loadRoutes] reads back: after either, a reload returns normally with
    the same catalog, every route of it drawn, provided JSON reads back what
    it wrote for that catalog (and writes a non-empty text). *)
Theorem reload_gives_back_the_catalog
    (N : Type) (RT : JSRuntime N) (CD : JSONCodec (list Route.t))
    (now : Z) (iso : string) (id : Z) (s after : @RouteManagerLocal.state N) :
  (commit_allowed (RouteManagerLocal.routeName s) (RouteManagerLocal.clickedPoints s) /\
   after = RouteManagerLocal.handleSaveRoute now iso s) \/
  after = RouteManagerLocal.handleDeleteRoute id s ->
  JSON_stringify (RouteManagerLocal.routes after) <> EmptyString ->
  JSON_parse (JSON_stringify (RouteManagerLocal.routes after))
  = Some (RouteManagerLocal.routes after) ->
  exists s' : @RouteManagerLocal.state N,
    RouteManagerLocal.loadRoutes after = Done s' /\
    RouteManagerLocal.routes s' = RouteManagerLocal.routes after /\
    forall route, In route (RouteManagerLocal.routes after) ->
      on_map (route_source (Route.id route)) (RouteManagerLocal.surface s') = true.
Proof.
  intros Hop Hne Hp.
  assert (Hst : RouteManagerLocal.storage after
                = Some (JSON_stringify (RouteManagerLocal.routes after))).
  { destruct Hop as [[Ha ->] | ->].
    - destruct (local_commit_allowed now iso s Ha) as [Hr [Hs _]]. now rewrite Hs, Hr.
    - reflexivity. }
  eexists. split; [now apply (loadRoutes_parsed after _ _ Hst Hne Hp)|].
  split; [reflexivity|].
  intros route Hin.
  cbn [RouteManagerLocal.surface RouteManagerLocal.onMap].
  now apply draw_all_puts.
Qed.

(* ================================================================= *)
(** ** The remote catalog of routes *)

Section RemoteOutcomes.
Import RouteManagerRemote.
Context {N : Type} `{JSRuntime N}.

Lemma remote_post_failed (iso : string) (message : option string) (got : get_outcome)
    (s : @state N) :
  commit_allowed (routeName s) (clickedPoints s) ->
  handleSaveRoute iso (PostFailed message) got s
  = setError (match message with
              | Some m => if truthy m then m
                          else "Failed to save route. Please try again."%string
              | None => "Failed to save route. Please try again."%string
              end)
      (send (POST_routes {| name := routeName s; type := routeType s;
                            coordinates := serialize_points (clickedPoints s);
                            createdAt := iso |}) s).
Proof.
  intros Ha. unfold handleSaveRoute. now rewrite allowed_guard by assumption.
Qed.

Lemma remote_post_ok (iso : string) (got : get_outcome) (s : @state N) :
  commit_allowed (routeName s) (clickedPoints s) ->
  handleSaveRoute iso PostOk got s
  = loadRoutes got
      (alert "Route saved successfully!"
         (setError ""
            (setIsDrawing false
               (setClickedPoints []
                  (setRouteName ""
                     (onMap (eraseLayerAndSource temp_route_line)
                        (send (POST_routes
                                 {| name := routeName s; type := routeType s;
                                    coordinates := serialize_points (clickedPoints s);
                                    createdAt := iso |}) s))))))).
Proof.
  intros Ha. unfold handleSaveRoute. now rewrite allowed_guard by assumption.
Qed.

(** The reload touches the catalog, the error and the request log only. *)
Lemma loadRoutes_keeps (got : get_outcome) (s : @state N) :
  surface (loadRoutes got s) = surface s /\
  routeName (loadRoutes got s) = routeName s /\
  clickedPoints (loadRoutes got s) = clickedPoints s /\
  isDrawing (loadRoutes got s) = isDrawing s /\
  alerts (loadRoutes got s) = alerts s /\
  requests (loadRoutes got s) = requests s ++ [GET_routes].
Proof. destruct got; repeat split. Qed.

End RemoteOutcomes.

(** X23. Remote variant, the [POST] fails: the draft is kept. Catalog,
    route name, road type, point buffer, drawing mode, map and alerts are
    unchanged, exactly one request (the POST) was sent and no reload
    follows; the error shown is never empty: it is the service's message
    when there is a non-empty one, and the fixed text [Failed to save route.
    Please try again.] otherwise. Pressing Save again sends the same name, type and
    coordinates. *)
Theorem failed_post_keeps_the_draft
    (N : Type) (RT : JSRuntime N)
    (iso iso' : string) (message : option string)
    (got got' : RouteManagerRemote.get_outcome) (r : @RouteManagerRemote.state N) :
  commit_allowed (RouteManagerRemote.routeName r) (RouteManagerRemote.clickedPoints r) ->
  let r' := RouteManagerRemote.handleSaveRoute iso
              (RouteManagerRemote.PostFailed message) got r in
  let sent := serialize_points (RouteManagerRemote.clickedPoints r) in
  (RouteManagerRemote.routes r' = RouteManagerRemote.routes r /\
   RouteManagerRemote.routeName r' = RouteManagerRemote.routeName r /\
   RouteManagerRemote.routeType r' = RouteManagerRemote.routeType r /\
   RouteManagerRemote.clickedPoints r' = RouteManagerRemote.clickedPoints r /\
   RouteManagerRemote.isDrawing r' = RouteManagerRemote.isDrawing r /\
   RouteManagerRemote.surface r' = RouteManagerRemote.surface r /\
   RouteManagerRemote.alerts r' = RouteManagerRemote.alerts r) /\
  RouteManagerRemote.requests r'
  = RouteManagerRemote.requests r ++
    [RouteManagerRemote.POST_routes
       {| RouteManagerRemote.name := RouteManagerRemote.routeName r;
          RouteManagerRemote.type := RouteManagerRemote.routeType r;
          RouteManagerRemote.coordinates := sent;
          RouteManagerRemote.createdAt := iso |}] /\
  RouteManagerRemote.error r' <> EmptyString /\
  (forall m, message = Some m -> m <> EmptyString -> RouteManagerRemote.error r' = m) /\
  (message = None \/ message = Some EmptyString ->
   RouteManagerRemote.error r' = "Failed to save route. Please try again."%string) /\
  RouteManagerRemote.requests
    (RouteManagerRemote.handleSaveRoute iso' RouteManagerRemote.PostOk got' r')
  = RouteManagerRemote.requests r' ++
    [RouteManagerRemote.POST_routes
       {| RouteManagerRemote.name := RouteManagerRemote.routeName r;
          RouteManagerRemote.type := RouteManagerRemote.routeType r;
          RouteManagerRemote.coordinates := sent;
          RouteManagerRemote.createdAt := iso' |};
     RouteManagerRemote.GET_routes].
Proof.
  intros Ha r' sent. subst r' sent.
  rewrite (remote_post_failed iso message got r Ha).
  split; [repeat split|]. split; [reflexivity|]. split; [|split; [|split]].
  - cbn [RouteManagerRemote.error RouteManagerRemote.setError].
    destruct message as [m|]; [|discriminate].
    destruct (truthy m) eqn:E; [now apply truthy_nonempty | discriminate].
  - intros m -> Hm. cbn [RouteManagerRemote.error RouteManagerRemote.setError].
    apply truthy_nonempty in Hm. now rewrite Hm.
  - intros [-> | ->]; reflexivity.
  - match goal with
    | |- RouteManagerRemote.requests (RouteManagerRemote.handleSaveRoute _ _ _ ?st) = _ =>
        assert (Ha' : commit_allowed (RouteManagerRemote.routeName st)
                                     (RouteManagerRemote.clickedPoints st)) by exact Ha;
        destruct (remote_commit_allowed iso' RouteManagerRemote.PostOk got' st Ha')
          as [Hreq _]
    end.
    rewrite Hreq. reflexivity.
Qed.

(** X24. Remote variant, the [POST] succeeds: name and buffer are emptied,
    drawing mode is off, the success alert is shown, the temporary line is
    off the map and nothing else on the map changes (this variant does not
    draw the saved route); the catalog becomes what the reload returns, with
    an empty error, or stays as it was with the error [Failed to load routes]
    when the reload fails. *)
Theorem saved_remote_route_is_reloaded_not_drawn
    (N : Type) (RT : JSRuntime N)
    (iso : string) (got : RouteManagerRemote.get_outcome)
    (r : @RouteManagerRemote.state N) :
  commit_allowed (RouteManagerRemote.routeName r) (RouteManagerRemote.clickedPoints r) ->
  let r' := RouteManagerRemote.handleSaveRoute iso RouteManagerRemote.PostOk got r in
  RouteManagerRemote.routeName r' = EmptyString /\
  RouteManagerRemote.clickedPoints r' = [] /\
  RouteManagerRemote.isDrawing r' = false /\
  RouteManagerRemote.alerts r'
    = RouteManagerRemote.alerts r ++ ["Route saved successfully!"%string] /\
  RouteManagerRemote.surface r'
    = eraseLayerAndSource temp_route_line (RouteManagerRemote.surface r) /\
  on_map temp_route_line (RouteManagerRemote.surface r') = false /\
  (forall name, name <> temp_route_line ->
     sources_named name (RouteManagerRemote.surface r')
       = sources_named name (RouteManagerRemote.surface r) /\
     layers_named name (RouteManagerRemote.surface r')
       = layers_named name (RouteManagerRemote.surface r)) /\
  match got with
  | RouteManagerRemote.GetOk data =>
      RouteManagerRemote.routes r' = data /\ RouteManagerRemote.error r' = EmptyString
  | RouteManagerRemote.GetFailed =>
      RouteManagerRemote.routes r' = RouteManagerRemote.routes r /\
      RouteManagerRemote.error r' = "Failed to load routes"%string
  end.
Proof.
  intros Ha r'. subst r'. rewrite (remote_post_ok iso got r Ha).
  destruct (loadRoutes_keeps got
              (RouteManagerRemote.alert "Route saved successfully!"
                 (RouteManagerRemote.setError ""
                    (RouteManagerRemote.setIsDrawing false
                       (RouteManagerRemote.setClickedPoints []
                          (RouteManagerRemote.setRouteName ""
                             (RouteManagerRemote.onMap
                                (eraseLayerAndSource temp_route_line)
                                (RouteManagerRemote.send
                                   (RouteManagerRemote.POST_routes
                                      {| RouteManagerRemote.name :=
                                           RouteManagerRemote.routeName r;
                                         RouteManagerRemote.type :=
                                           RouteManagerRemote.routeType r;
                                         RouteManagerRemote.coordinates :=
                                           serialize_points
                                             (RouteManagerRemote.clickedPoints r);
                                         RouteManagerRemote.createdAt := iso |})
                                   r))))))))
    as [Hs [Hn [Hc [Hd [Hal _]]]]].
  rewrite Hs, Hn, Hc, Hd, Hal.
  cbn [RouteManagerRemote.surface RouteManagerRemote.routeName
       RouteManagerRemote.clickedPoints RouteManagerRemote.isDrawing
       RouteManagerRemote.alerts RouteManagerRemote.alert RouteManagerRemote.setError
       RouteManagerRemote.setIsDrawing RouteManagerRemote.setClickedPoints
       RouteManagerRemote.setRouteName RouteManagerRemote.onMap RouteManagerRemote.send].
  repeat (split; [reflexivity|]). split; [apply erase_off_map|].
  split.
  - intros name Hne. rewrite sources_named_erase, layers_named_erase.
    apply String.eqb_neq in Hne. now rewrite Hne.
  - destruct got; split; reflexivity.
Qed.

(** X25. Remote variant, [handleDeleteRoute]. When the [DELETE] fails only
    the error ([Failed to delete route]) and the request log change. When it
    succeeds and the component has its map, [route-<id>] is taken off the
    map, one reload is sent, the catalog is what the reload returns
    (unchanged when the reload fails) and the error is empty afterwards,
    also when the reload failed: its message is overwritten. When it
    succeeds and the [map] prop is still null, reading the layer throws: the
    outcome is that of a failed [DELETE] (the same error, no reload, the
    catalog as it was), though the service has deleted the route. *)
Theorem remote_delete_outcomes
    (N : Type) (RT : JSRuntime N)
    (id : Z) (got : RouteManagerRemote.get_outcome) (r : @RouteManagerRemote.state N) :
  let failed := RouteManagerRemote.handleDeleteRoute id RouteManagerRemote.DeleteFailed got r in
  let done := RouteManagerRemote.handleDeleteRoute id RouteManagerRemote.DeleteOk got r in
  (failed = RouteManagerRemote.setError "Failed to delete route"
              (RouteManagerRemote.send (RouteManagerRemote.DELETE_route id) r) /\
   RouteManagerRemote.routes failed = RouteManagerRemote.routes r /\
   RouteManagerRemote.surface failed = RouteManagerRemote.surface r /\
   RouteManagerRemote.requests failed
   = RouteManagerRemote.requests r ++ [RouteManagerRemote.DELETE_route id]) /\
  (RouteManagerRemote.mapPresent r = true ->
   RouteManagerRemote.requests done
   = RouteManagerRemote.requests r ++
     [RouteManagerRemote.DELETE_route id; RouteManagerRemote.GET_routes] /\
   RouteManagerRemote.surface done
   = eraseLayerAndSource (route_source id) (RouteManagerRemote.surface r) /\
   on_map (route_source id) (RouteManagerRemote.surface done) = false /\
   RouteManagerRemote.error done = EmptyString /\
   RouteManagerRemote.routes done
   = match got with
     | RouteManagerRemote.GetOk data => data
     | RouteManagerRemote.GetFailed => RouteManagerRemote.routes r
     end) /\
  (RouteManagerRemote.mapPresent r = false ->
   done = failed /\
   RouteManagerRemote.error done = "Failed to delete route"%string /\
   RouteManagerRemote.routes done = RouteManagerRemote.routes r /\
   RouteManagerRemote.requests done
   = RouteManagerRemote.requests r ++ [RouteManagerRemote.DELETE_route id]).
Proof.
  cbv zeta. split; [repeat split|]. split; intros Hm.
  - assert (Hs : RouteManagerRemote.surface
                   (RouteManagerRemote.handleDeleteRoute id RouteManagerRemote.DeleteOk got r)
                 = eraseLayerAndSource (route_source id) (RouteManagerRemote.surface r)).
    { unfold RouteManagerRemote.handleDeleteRoute.
      cbn [RouteManagerRemote.mapPresent RouteManagerRemote.send]. rewrite Hm.
      destruct got; reflexivity. }
    rewrite Hs. split; [|split; [reflexivity|split; [apply erase_off_map|]]].
    + unfold RouteManagerRemote.handleDeleteRoute.
      cbn [RouteManagerRemote.mapPresent RouteManagerRemote.send]. rewrite Hm.
      destruct got; cbn; now rewrite <- app_assoc.
    + unfold RouteManagerRemote.handleDeleteRoute.
      cbn [RouteManagerRemote.mapPresent RouteManagerRemote.send]. rewrite Hm.
      destruct got; split; reflexivity.
  - unfold RouteManagerRemote.handleDeleteRoute.
    cbn [RouteManagerRemote.mapPresent RouteManagerRemote.send]. rewrite Hm.
    repeat split.
Qed.

(** The routes are listed before the parent has made the map; a delete
    pressed then is carried out by the service and reported as failed. *)
Example delete_before_the_map_is_there :
  let r := RouteManagerRemote.loadRoutes (N := Z)
             (RouteManagerRemote.GetOk [an_old_route])
             RouteManagerRemote.initial_without_map in
  let r' := RouteManagerRemote.handleDeleteRoute 5 RouteManagerRemote.DeleteOk
              (RouteManagerRemote.GetOk []) r in
  RouteManagerRemote.routes r' = [an_old_route] /\
  RouteManagerRemote.error r' = "Failed to delete route"%string /\
  RouteManagerRemote.requests r'
  = [RouteManagerRemote.GET_routes; RouteManagerRemote.DELETE_route 5].
Proof. repeat split. Qed.

(* ================================================================= *)
(** ** Buttons and handlers *)

(** X26. The buttons agree with their handlers. When the Add button is
    disabled the handler would only show its validation alert; when it is
    enabled the validation passes and the lookup is sent. When the Update
    button is hidden [handleUpdateBuilding] does nothing. When the Save
    button is shown, a commit is refused exactly for an empty name (the
    handler's check on the number of points cannot fail), and with a name
    the catalog grows by one. *)
Theorem buttons_guard_their_handlers
    (N : Type) (NUM : JSNumber N) (RT : JSRuntime N)
    (CB : JSONCodec (list (Building.t N))) (CR : JSONCodec (list Route.t))
    (lookup : aqi_lookup N) (s : @BuildingManager.state N)
    (now : Z) (iso : string) (rs : @RouteManagerLocal.state N) :
  (addButtonDisabled s = true ->
   BuildingManager.handleAddBuilding lookup s
   = Done (BuildingManager.alert "Please select a location and building type" s)) /\
  (addButtonDisabled s = false ->
   exists location : @point N,
     BuildingManager.clickedLocation s = Some location /\
     BuildingManager.handleAddBuilding lookup s
     = BuildingManager.afterLookup s location lookup
         (BuildingManager.fetchAqi (snd location) (fst location) s)) /\
  (selectionButtonsShown s = false ->
   BuildingManager.handleUpdateBuilding s = Done s) /\
  (saveButtonShown rs = true ->
   (RouteManagerLocal.routeName rs = EmptyString ->
    RouteManagerLocal.handleSaveRoute now iso rs
    = RouteManagerLocal.setError validation_message rs) /\
   (RouteManagerLocal.routeName rs <> EmptyString ->
    commit_allowed (RouteManagerLocal.routeName rs) (RouteManagerLocal.clickedPoints rs) /\
    List.length (RouteManagerLocal.routes (RouteManagerLocal.handleSaveRoute now iso rs))
    = S (List.length (RouteManagerLocal.routes rs)))).
Proof.
  unfold addButtonDisabled, selectionButtonsShown, saveButtonShown.
  split; [|split; [|split]].
  - intros Hd. apply handleAddBuilding_not_validated.
    destruct (BuildingManager.clickedLocation s); [|now left].
    right. cbn in Hd. now apply truthy_empty, negb_true_iff.
  - intros Hd. destruct (BuildingManager.clickedLocation s) as [location|] eqn:Hloc;
      [|discriminate Hd].
    exists location. split; [reflexivity|].
    apply handleAddBuilding_validated; [exact Hloc|].
    cbn in Hd. now apply truthy_nonempty, negb_false_iff.
  - intros Hsel. apply handleUpdateBuilding_idle.
    now destruct (BuildingManager.selectedBuilding s).
  - intros Hshown. apply andb_true_iff in Hshown. destruct Hshown as [_ Hlen].
    apply Nat.leb_le in Hlen. split.
    + intros Hname. apply local_commit_refused. now left.
    + intros Hname.
      assert (Ha : commit_allowed (RouteManagerLocal.routeName rs)
                                  (RouteManagerLocal.clickedPoints rs)) by now split.
      split; [exact Ha|].
      destruct (local_commit_allowed now iso rs Ha) as [Hr _].
      rewrite Hr, length_app. cbn. lia.
Qed.

(* ================================================================= *)
(** ** Examples for the properties above *)

Section MapExamples.
#[local] Existing Instance Doubles.
#[local] Existing Instance IntegralRuntime.
#[local] Existing Instance blank_codec.

(** The park of [park_selected], displayed, then displayed again as updated. *)
Lemma last_display_wins_witness :
  let updated := BuildingManager.updatedBuilding park_selected the_park in
  BuildingManager.displayBuilding updated
    (BuildingManager.displayBuilding the_park (Some empty_map))
  = BuildingManager.displayBuilding updated (Some empty_map) /\
  BuildingManager.displayBuilding updated
    (option_map (eraseBuilding (Building.id updated)) (Some empty_map))
  = BuildingManager.displayBuilding updated (Some empty_map).
Proof.
  apply (last_display_wins float Doubles the_park
           (BuildingManager.updatedBuilding park_selected the_park) (Some empty_map)).
  reflexivity.
Defined.

(** A second park displayed on the map that holds the first: the graphics of
    the first are as they were. *)
Lemma other_buildings_witness :
  let m := match BuildingManager.surface park_added with
           | Some m => m
           | None => empty_map
           end in
  let second := BuildingManager.newBuilding park_added jaipur in
  Building.id second = 2%Z /\
  option_map (building_graphics 1) (BuildingManager.displayBuilding second (Some m))
  = Some (building_graphics 1 m).
Proof.
  cbv zeta. split; [vm_compute; reflexivity|].
  destruct (other_buildings_keep_their_graphics float Doubles IntegralRuntime
              (blank_codec (Building.t float))
              (BuildingManager.newBuilding park_added jaipur) 1%Z park_added
              (match BuildingManager.surface park_added with
               | Some m => m
               | None => empty_map
               end))
    as [Hdisplay _].
  - vm_compute. discriminate.
  - vm_compute. reflexivity.
  - exact Hdisplay.
Defined.

(** Two parks added one after the other, the second deleted. *)
Lemma catalog_stays_drawn_witness :
  catalog_drawn
    (BuildingSession.now
       (BuildingSession.run two_parks_events (BuildingSession.start park_at_jaipur))).
Proof.
  apply (catalog_stays_drawn float Doubles IntegralRuntime
           (blank_codec (Building.t float)) two_parks_events
           (BuildingSession.start park_at_jaipur)).
  intros m b _ [].
Defined.

(** The session that adds a park and selects it. *)
Lemma selection_stays_in_catalog_witness :
  selection_in_catalog
    (BuildingSession.now
       (BuildingSession.run park_session_events (BuildingSession.start park_at_jaipur))).
Proof.
  apply (selection_stays_in_catalog float Doubles IntegralRuntime
           (blank_codec (Building.t float)) park_session_events
           (BuildingSession.start park_at_jaipur)).
  intros selected E. discriminate E.
Defined.

(** The same two-park session: its adds never overlap. *)
Lemma ids_stay_unique_witness :
  unique_ids
    (BuildingManager.buildings
       (BuildingSession.now
          (BuildingSession.run two_parks_events (BuildingSession.start park_at_jaipur)))).
Proof.
  apply (ids_stay_unique_with_one_add_in_flight float Doubles IntegralRuntime
           (blank_codec (Building.t float)) two_parks_events park_at_jaipur).
  - vm_compute. reflexivity.
  - constructor.
  - split; [vm_compute; reflexivity | intros b []].
Defined.

(** It ends with the first park alone. *)
Example two_parks_catalog :
  map Building.id
      (BuildingManager.buildings
         (BuildingSession.now
            (BuildingSession.run two_parks_events (BuildingSession.start park_at_jaipur))))
  = [1%Z].
Proof. vm_compute. reflexivity. Qed.

(** The first park, selected and updated at once. *)
Lemma select_then_update_witness :
  let s' := final (BuildingManager.handleUpdateBuilding
                     (BuildingManager.handleSelectBuilding the_park park_added)) in
  BuildingManager.buildings s' = BuildingManager.buildings park_added /\
  BuildingManager.surface s'
  = BuildingManager.displayBuilding the_park (BuildingManager.surface park_added) /\
  BuildingManager.lookups s' = BuildingManager.lookups park_added.
Proof.
  apply (select_then_update_changes_nothing float Doubles IntegralRuntime
           (blank_codec (Building.t float)) the_park park_added).
  - left. vm_compute. reflexivity.
  - vm_compute. repeat constructor. intros [].
  - reflexivity.
  - reflexivity.
Defined.

(** A park at Jaipur when the index is NaN. *)
Lemma nan_index_witness :
  exists s' : @BuildingManager.state float,
    BuildingManager.handleAddBuilding (LookupBody (Some nan)) park_at_jaipur = Done s' /\
    BuildingManager.buildings s'
    = BuildingManager.buildings park_at_jaipur
      ++ [BuildingManager.newBuilding park_at_jaipur jaipur] /\
    BuildingManager.alerts s' = BuildingManager.alerts park_at_jaipur.
Proof.
  apply (nan_index_passes_the_gate series_cos series_sin IntegralRuntime
           (blank_codec (Building.t float)) park_at_jaipur jaipur).
  - reflexivity.
  - discriminate.
Defined.

(** The update of [park_selected] over a store that holds text that is not
    JSON. *)
Lemma update_outcomes_witness :
  let s := BuildingManager.setItem "{oops" park_selected in
  exists s' : @BuildingManager.state float,
    BuildingManager.handleUpdateBuilding s = Done s' /\
    BuildingManager.selectedBuilding s' = Some the_park /\
    BuildingManager.storage s' = Some "{oops"%string /\
    BuildingManager.alerts s' = ["Failed to update building. Please try again."%string].
Proof.
  cbv zeta.
  destruct (update_outcomes float Doubles IntegralRuntime
              (blank_codec (Building.t float))
              (BuildingManager.setItem "{oops" park_selected) the_park)
    as [s' [Hdone [_ [_ Hrest]]]].
  - vm_compute. reflexivity.
  - exists s'. split; [exact Hdone|].
    change (BuildingManager.storedBuildings
              (BuildingManager.setItem "{oops" park_selected))
      with (@None (list (Building.t float))) in Hrest.
    destruct Hrest as [Hst [Hsel [_ Hal]]]. repeat split; assumption.
Defined.

(** A park at Jaipur: turned down at 80, accepted at 50, the ceiling. *)
Lemma add_gated_witness :
  (exists reason : string,
      BuildingManager.handleAddBuilding (LookupBody (Some 80%float)) park_at_jaipur
      = Done (BuildingManager.alert reason
                (BuildingManager.fetchAqi 26.9124%float 75.7873%float park_at_jaipur)) /\
      reason <> EmptyString) /\
  (exists s' : @BuildingManager.state float,
      BuildingManager.handleAddBuilding (LookupBody (Some 50%float)) park_at_jaipur
      = Done s' /\
      BuildingManager.buildings s' = [the_park]).
Proof.
  destruct (add_gated_by_air_quality series_cos series_sin (H := IntegralRuntime)
              (H0 := blank_codec (Building.t float)) park_at_jaipur jaipur)
    as [Hblocked Hpassed].
  - reflexivity.
  - discriminate.
  - split.
    + destruct (Hblocked (LookupBody (Some 80%float))) as [reason [E [Hne _]]].
      * right. right. exists 80%float, 50%float. repeat split.
      * exists reason. split; [exact E | exact Hne].
    + destruct (Hpassed 50%float) as [s' [E [Hb _]]].
      * left. exists 50%float. split; reflexivity.
      *
        exists s'. split; [exact E | exact Hb].
Defined.

End MapExamples.

Section RouteStoreExamples.
#[local] Existing Instance IntegerRuntime.
#[local] Existing Instance line_codec.

(** A store that holds two routes. *)
Lemma loaded_routes_witness :
  let s := RouteManagerLocal.initial (N := Z)
             (Some (JSON_stringify [an_old_route; main_street])) empty_map in
  exists s' : @RouteManagerLocal.state Z,
    RouteManagerLocal.loadRoutes s = Done s' /\
    RouteManagerLocal.routes s' = [an_old_route; main_street] /\
    sources_named (route_source 5) (RouteManagerLocal.surface s')
    = [LineString [[70; 20]; [71; 21]]%Z].
Proof.
  cbv zeta.
  destruct (loaded_routes_are_drawn Z IntegerRuntime line_codec
              (RouteManagerLocal.initial (N := Z)
                 (Some (JSON_stringify [an_old_route; main_street])) empty_map)
              (JSON_stringify [an_old_route; main_street])
              [an_old_route; main_street])
    as [s' [Hload [Hr [_ [_ [_ [_ Hnamed]]]]]]].
  - reflexivity.
  - vm_compute. discriminate.
  - vm_compute. reflexivity.
  - exists s'. split; [exact Hload|]. split; [exact Hr|].
    apply (Hnamed ltac:(vm_compute; repeat constructor; cbn; intuition discriminate)
                  an_old_route ltac:(now left)).
Defined.

(** Main St committed next to the old route, then reloaded. *)
Lemma reload_witness :
  let after := RouteManagerLocal.handleSaveRoute a_clock_reading an_iso_date
                 (RouteManagerLocal.setRoutes [an_old_route]
                    (local_session "Main St" [(72, 19)%Z; (73, 18)%Z])) in
  exists s' : @RouteManagerLocal.state Z,
    RouteManagerLocal.loadRoutes after = Done s' /\
    RouteManagerLocal.routes s' = [an_old_route; main_street].
Proof.
  cbv zeta.
  destruct (reload_gives_back_the_catalog Z IntegerRuntime line_codec
              a_clock_reading an_iso_date 0%Z
              (RouteManagerLocal.setRoutes [an_old_route]
                 (local_session "Main St" [(72, 19)%Z; (73, 18)%Z]))
              (RouteManagerLocal.handleSaveRoute a_clock_reading an_iso_date
                 (RouteManagerLocal.setRoutes [an_old_route]
                    (local_session "Main St" [(72, 19)%Z; (73, 18)%Z]))))
    as [s' [Hload [Hr _]]].
  - left. split; [|reflexivity]. split; [discriminate | cbn; lia].
  - vm_compute. discriminate.
  - vm_compute. reflexivity.
  - exists s'. split; [exact Hload | exact Hr].
Defined.

End RouteStoreExamples.

Section RouteMapExamples.
#[local] Existing Instance IntegerRuntime.
#[local] Existing Instance blank_codec.

(** Main St through two points, on integers. *)
Lemma drawn_route_witness :
  let s' := RouteManagerLocal.handleSaveRoute a_clock_reading an_iso_date
              (local_session "Main St" [(72, 19)%Z; (73, 18)%Z]) in
  sources_named (route_source a_clock_reading) (RouteManagerLocal.surface s')
  = [LineString [[72; 19]; [73; 18]]%Z] /\
  on_map (route_source a_clock_reading) (RouteManagerLocal.surface s') = true /\
  on_map temp_route_line (RouteManagerLocal.surface s') = false.
Proof.
  apply (drawn_route_goes_through_the_points Z IntegerRuntime (blank_codec Route.t)
           a_clock_reading an_iso_date
           (local_session "Main St" [(72, 19)%Z; (73, 18)%Z])).
  - split; [discriminate | cbn; lia].
  - intros p [<- | [<- | []]]; repeat split.
Defined.

(** Main St committed next to the old route, and deleted. *)
Lemma commit_then_delete_witness :
  let s := RouteManagerLocal.setRoutes [an_old_route]
             (local_session "Main St" [(72, 19)%Z; (73, 18)%Z]) in
  let s' := RouteManagerLocal.handleDeleteRoute a_clock_reading
              (RouteManagerLocal.handleSaveRoute a_clock_reading an_iso_date s) in
  RouteManagerLocal.routes s' = [an_old_route] /\
  on_map (route_source a_clock_reading) (RouteManagerLocal.surface s') = false.
Proof.
  cbv zeta.
  destruct (commit_then_delete_restores_the_catalog Z IntegerRuntime (blank_codec Route.t)
              a_clock_reading an_iso_date
              (RouteManagerLocal.setRoutes [an_old_route]
                 (local_session "Main St" [(72, 19)%Z; (73, 18)%Z])))
    as [Hr [_ [Hoff _]]].
  - split; [discriminate | cbn; lia].
  - intros route [<- | []]. discriminate.
  - split; [exact Hr | exact Hoff].
Defined.

(** The old route drawn, then drawn again with a third point. *)
Lemma redrawn_route_witness :
  let renamed :=
    {| Route.id := 5; Route.name := "Old Road"; Route.type := "major";
       Route.coordinates := ["70,20"; "71,21"; "72,22"]%string;
       Route.createdAt := an_iso_date |} in
  let m' := RouteManagerLocal.drawRouteOnMap renamed
              (RouteManagerLocal.drawRouteOnMap an_old_route (empty_map (N := Z))) in
  sources_named (route_source 5) m' = [LineString [[70; 20]; [71; 21]; [72; 22]]%Z] /\
  layers_named (route_source 5) m' = [Line "#000000" 5].
Proof.
  cbv zeta.
  destruct (redrawn_route_has_one_line Z IntegerRuntime an_old_route
              {| Route.id := 5; Route.name := "Old Road"; Route.type := "major";
                 Route.coordinates := ["70,20"; "71,21"; "72,22"]%string;
                 Route.createdAt := an_iso_date |} empty_map)
    as [Hs [Hl _]].
  - reflexivity.
  - split; [exact Hs | exact Hl].
Defined.

(** Main St refused by the service with a message. *)
Lemma failed_post_witness :
  let r := remote_session "Main St" [(72, 19)%Z; (73, 18)%Z] in
  let r' := RouteManagerRemote.handleSaveRoute an_iso_date
              (RouteManagerRemote.PostFailed (Some "Name already taken"%string))
              RouteManagerRemote.GetFailed r in
  RouteManagerRemote.clickedPoints r' = [(72, 19)%Z; (73, 18)%Z] /\
  RouteManagerRemote.isDrawing r' = true /\
  RouteManagerRemote.error r' = "Name already taken"%string.
Proof.
  cbv zeta.
  destruct (failed_post_keeps_the_draft Z IntegerRuntime an_iso_date an_iso_date
              (Some "Name already taken"%string)
              RouteManagerRemote.GetFailed RouteManagerRemote.GetFailed
              (remote_session "Main St" [(72, 19)%Z; (73, 18)%Z]))
    as [[_ [_ [_ [Hc [Hd _]]]]] [_ [_ [He _]]]].
  - split; [discriminate | cbn; lia].
  - split; [exact Hc|]. split; [exact Hd|]. apply (He _ eq_refl). discriminate.
Defined.

(** Main St saved, the reload failing. *)
Lemma saved_remote_witness :
  let r := remote_session "Main St" [(72, 19)%Z; (73, 18)%Z] in
  let r' := RouteManagerRemote.handleSaveRoute an_iso_date RouteManagerRemote.PostOk
              RouteManagerRemote.GetFailed r in
  RouteManagerRemote.clickedPoints r' = [] /\
  RouteManagerRemote.alerts r' = ["Route saved successfully!"%string] /\
  RouteManagerRemote.routes r' = [] /\
  RouteManagerRemote.error r' = "Failed to load routes"%string.
Proof.
  cbv zeta.
  destruct (saved_remote_route_is_reloaded_not_drawn Z IntegerRuntime an_iso_date
              RouteManagerRemote.GetFailed
              (remote_session "Main St" [(72, 19)%Z; (73, 18)%Z]))
    as [_ [Hc [_ [Ha [_ [_ [_ [Hr He]]]]]]]].
  - split; [discriminate | cbn; lia].
  - repeat split; assumption.
Defined.

End RouteMapExamples.

